(** * Luna Massage e-mail service: retrying delivery and request handling

  A shallow embedding of [server.js] (the revision with the retry logic):
  [sendEmailWithRetry], the [POST /send-confirmation] handler with its
  validation, template selection and error classification, and the
  [GET /test] handler; and of the [POST /send-confirmation] handler of the
  revision before it.

  Conventions of the embedding.

  - JavaScript strings are sequences of UTF-16 code units ([list N]);
    ASCII literals of the source are written with [js "..."].
  - JavaScript numbers that the modelled code computes with (the attempt
    counter, [maxRetries], delays in milliseconds, HTTP status codes) are
    integers and are modelled in [Z].  The delay [Math.pow(2, attempt) *
    1000] handed to [setTimeout] is recorded by its mathematical value; the
    double is that value up to attempt 1014 and [Infinity] from attempt
    1015 on.  How long the timer then waits is a separate matter: Node
    replaces every delay above [2^31 - 1] milliseconds, [Infinity]
    included, by 1 millisecond ([timer_duration]).
  - JSON values of a request body are the inductive [value]; a number of
    a request body is held by the decimal digits and the exponent that
    [Number::toString] prints it from.
  - Conversions that JavaScript can refuse throw in the embedding as they
    do in the code: [ToString] of an object that has an own [toString]
    property ([TypeError]), [JSON.stringify] of a body and
    [Array.prototype.join] of an array nested too deeply for the stack of
    the host ([RangeError]; the [Env] tells for which values).
  - Effects (console output, [req.setTimeout], transport creation,
    [transporter.sendMail], the backoff sleep) are recorded in order in a
    trace carried by the state; the answers of the outside world (the mail
    relay, the clock, the process environment) are read from an [Env]. *)

From Stdlib Require Import ZArith NArith List String Ascii Bool Lia DecimalString.
From Equations Require Import Equations.
Import ListNotations.

Local Open Scope Z_scope.
Set Warnings "-register-all".

(** ** JavaScript strings and values *)

Module Js.

(** A string is its sequence of UTF-16 code units. *)
Definition jsstring := list N.

(** An ASCII literal of the source. *)
Definition js (s : string) : jsstring :=
  List.map N_of_ascii (list_ascii_of_string s).

Definition jsstring_eqb (a b : jsstring) : bool :=
  if list_eq_dec N.eq_dec a b then true else false.

(** [a.startsWith(b)] at position 0. *)
Fixpoint starts_with (pat s : jsstring) : bool :=
  match pat, s with
  | [], _ => true
  | _ :: _, [] => false
  | p :: pat', c :: s' => N.eqb p c && starts_with pat' s'
  end.

(** [String.prototype.includes]: [pat] occurs as a substring of [s]. *)
Fixpoint includes (s pat : jsstring) : bool :=
  starts_with pat s ||
  match s with
  | [] => false
  | _ :: s' => includes s' pat
  end.

(** A number that [JSON.parse] can produce.  A finite number other than
    zero is held the way [Number::toString] reads it: its sign, the integer
    [s] made of its [k] significant decimal digits, and the exponent [n],
    so that its magnitude is [s * 10 ^ (n - k)].  Both zeros are falsy and
    print alike, and are one value here. *)
Inductive number : Type :=
| NZero
| NInfinity (negative : bool)
| NDecimal (negative : bool) (s : positive) (n : Z).

(** Values that [JSON.parse] can produce, together with [undefined]
    (an absent property).  An object is its list of properties; a lookup
    takes the first binding of a key. *)
Inductive value : Type :=
| VUndefined
| VNull
| VBool (b : bool)
| VNum (x : number)
| VStr (s : jsstring)
| VArr (l : list value)
| VObj (props : list (jsstring * value)).

(** ToBoolean. *)
Definition truthy (v : value) : bool :=
  match v with
  | VUndefined | VNull => false
  | VBool b => b
  | VNum NZero => false
  | VNum _ => true
  | VStr s => match s with [] => false | _ => true end
  | VArr _ | VObj _ => true
  end.

(** [undefined] and [null] have no properties; reading one throws. *)
Definition nullish (v : value) : bool :=
  match v with
  | VUndefined | VNull => true
  | _ => false
  end.

Fixpoint lookup (k : jsstring) (props : list (jsstring * value)) : value :=
  match props with
  | [] => VUndefined
  | (k', v) :: rest => if jsstring_eqb k k' then v else lookup k rest
  end.

(** [v.k] for a receiver that is not nullish and a key [k] that is
    neither an array index, ["length"], nor the name of a prototype
    member (the keys read by the server are [booking], [status], [email],
    [bookingId]): only objects have such a property. *)
Definition prop (v : value) (k : jsstring) : value :=
  match v with
  | VObj props => lookup k props
  | _ => VUndefined
  end.

(** Decimal rendering of an integer that the code computes with and that
    has fewer than 22 digits (an hour on the 12-hour clock, a reading of
    the clock in milliseconds, a decimal exponent): all its digits. *)
Definition number_to_string (n : Z) : jsstring :=
  js (NilZero.string_of_int (Z.to_int n)).

Definition comma : N := 44.
Definition full_stop : N := 46.
Definition digit_zero : N := 48.

(** The decimal digits of [s], most significant first. *)
Definition digits (s : positive) : jsstring :=
  js (NilEmpty.string_of_uint (Pos.to_uint s)).

(** [Number::toString] in radix 10 for the magnitude [s * 10 ^ (n - k)]:
    plain notation when [-5 <= n <= 21], exponent notation otherwise. *)
Definition decimal_toString (s : positive) (n : Z) : jsstring :=
  let d := digits s in
  let k := Z.of_nat (List.length d) in
  if (-5 <=? n) && (n <=? 21) then
    if k <=? n then d ++ List.repeat digit_zero (Z.to_nat (n - k))
    else if 0 <? n
    then List.firstn (Z.to_nat n) d ++ [full_stop] ++ List.skipn (Z.to_nat n) d
    else js "0." ++ List.repeat digit_zero (Z.to_nat (- n)) ++ d
  else
    let e := n - 1 in
    let exponent := (if e <? 0 then js "e-" else js "e+") ++
                    number_to_string (Z.abs e) in
    match d with
    | [] => exponent
    | [d1] => [d1] ++ exponent
    | d1 :: more => [d1] ++ [full_stop] ++ more ++ exponent
    end.

Definition Number_toString (x : number) : jsstring :=
  match x with
  | NZero => js "0"
  | NInfinity false => js "Infinity"
  | NInfinity true => js "-Infinity"
  | NDecimal false s n => decimal_toString s n
  | NDecimal true s n => js "-" ++ decimal_toString s n
  end.

(** [props] has an own property named [k]. *)
Fixpoint has_own (k : jsstring) (props : list (jsstring * value)) : bool :=
  match props with
  | [] => false
  | (k', _) :: rest => jsstring_eqb k k' || has_own k rest
  end.

(** ToString; [None] when the conversion throws a [TypeError].  An array
    is the comma-separated join of its elements, where [undefined] and
    [null] elements give the empty string.  An object that came from
    [JSON.parse] prints as [[object Object]] through
    [Object.prototype.toString], unless it has an own property [toString]:
    that property is no function, [valueOf] gives no primitive either, and
    the conversion throws. *)
Fixpoint ToString (v : value) : option jsstring :=
  match v with
  | VUndefined => Some (js "undefined")
  | VNull => Some (js "null")
  | VBool true => Some (js "true")
  | VBool false => Some (js "false")
  | VNum x => Some (Number_toString x)
  | VStr s => Some s
  | VArr l =>
      (fix join (l : list value) : option jsstring :=
         match l with
         | [] => Some []
         | x :: rest =>
             match (if nullish x then Some [] else ToString x) with
             | None => None
             | Some sx =>
                 match rest with
                 | [] => Some sx
                 | _ :: _ =>
                     match join rest with
                     | None => None
                     | Some sr => Some (sx ++ comma :: sr)
                     end
                 end
             end
         end) l
  | VObj props =>
      if has_own (js "toString") props then None
      else Some (js "[object Object]")
  end.

(** [v === 'literal']: strict equality with a string. *)
Definition strict_eq_string (v : value) (lit : jsstring) : bool :=
  match v with
  | VStr s => jsstring_eqb s lit
  | _ => false
  end.

End Js.
Import Js.

(** ** Regular expressions

  The fragment used by [emailRegex]: character classes, concatenation and
  [+], matched against the whole subject (the pattern is anchored by [^]
  and [$], carries no flags, and so [test] is a full match). *)

Module Regex.

Inductive re : Type :=
| Void                         (* matches nothing *)
| Eps                          (* matches the empty string *)
| Class (p : N -> bool)        (* one code unit satisfying [p] *)
| Cat (r1 r2 : re)
| Alt (r1 r2 : re)
| Star (r : re).

Definition Plus (r : re) : re := Cat r (Star r).

Fixpoint nullable (r : re) : bool :=
  match r with
  | Void => false
  | Eps => true
  | Class _ => false
  | Cat r1 r2 => nullable r1 && nullable r2
  | Alt r1 r2 => nullable r1 || nullable r2
  | Star _ => true
  end.

(** Brzozowski derivative with respect to one code unit. *)
Fixpoint deriv (c : N) (r : re) : re :=
  match r with
  | Void => Void
  | Eps => Void
  | Class p => if p c then Eps else Void
  | Cat r1 r2 =>
      if nullable r1
      then Alt (Cat (deriv c r1) r2) (deriv c r2)
      else Cat (deriv c r1) r2
  | Alt r1 r2 => Alt (deriv c r1) (deriv c r2)
  | Star r1 => Cat (deriv c r1) (Star r1)
  end.

Fixpoint full_match (r : re) (s : jsstring) : bool :=
  match s with
  | [] => nullable r
  | c :: s' => full_match (deriv c r) s'
  end.

(** The class [\s] of ECMAScript: WhiteSpace and LineTerminator. *)
Definition is_space (c : N) : bool :=
  ((9 <=? c) && (c <=? 13) || (c =? 32) || (c =? 160) || (c =? 5760) ||
   (8192 <=? c) && (c <=? 8202) || (c =? 8232) || (c =? 8233) ||
   (c =? 8239) || (c =? 8287) || (c =? 12288) || (c =? 65279))%N.

Definition at_sign : N := 64.
Definition dot : N := 46.

(** [[^\s@]] *)
Definition not_space_at (c : N) : bool :=
  negb (is_space c) && negb (c =? at_sign)%N.

(** [/^[^\s@]+@[^\s@]+\.[^\s@]+$/] *)
Definition emailRegex : re :=
  Cat (Plus (Class not_space_at))
    (Cat (Class (N.eqb at_sign))
       (Cat (Plus (Class not_space_at))
          (Cat (Class (N.eqb dot))
             (Plus (Class not_space_at))))).

(** [emailRegex.test(v)]: the argument is converted with ToString;
    [None] when that conversion throws. *)
Definition emailRegex_test (v : value) : option bool :=
  option_map (full_match emailRegex) (ToString v).

End Regex.
Import Regex.

(** ** Mail transport, effects and the state of the process *)

Module Mail.

(** The message handed to [transporter.sendMail]. *)
Record MailOptions : Type := {
  from : jsstring;
  to : value;
  subject : jsstring;
  html : jsstring;
  replyTo : option jsstring;
  text : jsstring
}.

(** What [sendMail] resolves to: the provider's message identifier and its
    raw response. *)
Record Info : Type := {
  messageId : value;
  response : value
}.

(** An [Error] object: its [message] and its [code] ([undefined] when the
    error has none). *)
Record JsError : Type := {
  message : jsstring;
  code : value
}.

(** A thrown value.  The server throws [Error] objects, and [undefined]
    when [lastError] was never assigned. *)
Inductive thrown : Type :=
| ThrownUndefined
| ThrownError (e : JsError).

(** Answer of the mail relay to one [sendMail] invocation.  The transport
    rejects with [Error] objects, whose [message] is a string. *)
Inductive SendOutcome : Type :=
| Resolved (info : Info)
| Rejected (error : JsError).

(** The object built by [nodemailer.createTransport]. *)
Record Transport : Type := {
  service : jsstring;
  host : jsstring;
  port : Z;
  secure : bool;
  requireTLS : bool;
  auth_user : value;
  auth_pass : value;
  connectionTimeout : Z;
  greetingTimeout : Z;
  socketTimeout : Z;
  tls_rejectUnauthorized : bool
}.

(** Console output of the modelled functions, one constructor per
    statement, with the values it prints. *)
Inductive logline : Type :=
| LogAttempt (attempt maxRetries : Z)
| LogAttemptFailed (attempt : Z) (msg : jsstring)
| LogWaiting (seconds : Z)
| LogReceived (timestamp : jsstring)
| LogRequestBody (body : value)
| LogSending (recipient : value)
| LogSubject (subject : jsstring)
| LogSent
| LogMessageId (id : value)
| LogResponse (r : value)
| LogErrorSending (error : thrown)
| LogTestError (error : thrown).

(** Observable effects, in the order in which they happen. *)
Inductive event : Type :=
| EvLog (l : logline)
| EvRequestTimeout (ms : Z)          (* req.setTimeout(ms) *)
| EvCreateTransport (t : Transport)  (* nodemailer.createTransport(...) *)
| EvSendMail (m : MailOptions)       (* transporter.sendMail(m) *)
| EvSleep (ms : Z).                  (* await setTimeout(resolve, ms) *)

(** The outside world.  [relay k m] is the relay's answer to the
    invocation of [sendMail] that follows [k] earlier invocations.
    [toLocaleDateString d] stands for
    [new Date(d).toLocaleDateString('en-US', {...})] where [new Date(d)]
    does not throw, and [parseInt s] is [None] when the host's [parseInt]
    gives [NaN].  [stringify_error v] is what [JSON.stringify(v, null, 2)]
    throws, if it throws (the [RangeError] of a value nested too deeply for
    the call stack of the host, or too large to print), and
    [join_overflows l] tells whether converting the array of the elements
    [l] to a string exhausts the call stack (through
    [Array.prototype.join], the one conversion that recurses). *)
Record Env : Type := {
  relay : nat -> MailOptions -> SendOutcome;
  Date_now : nat -> Z;               (* reading of the clock after k events *)
  toISOString : Z -> jsstring;
  toLocaleDateString : value -> jsstring;
  parseInt : jsstring -> option Z;
  stringify_error : value -> option JsError;
  join_overflows : list value -> bool;
  env_EMAIL_USER : option jsstring;
  env_EMAIL_APP_PASSWORD : option jsstring;
  env_TEST_EMAIL : option jsstring
}.

(** [JSON.stringify(v, null, 2)] throws. *)
Definition stringify_throws (env : Env) (v : value) : bool :=
  match stringify_error env v with
  | Some _ => true
  | None => false
  end.

(** A variable of the process environment: a string when it is set,
    [undefined] when it is not. *)
Definition process_env (variable : option jsstring) : value :=
  match variable with
  | Some s => VStr s
  | None => VUndefined
  end.

Definition EMAIL_USER (env : Env) : value := process_env (env_EMAIL_USER env).

Definition EMAIL_APP_PASSWORD (env : Env) : value :=
  process_env (env_EMAIL_APP_PASSWORD env).

Definition TEST_EMAIL (env : Env) : value := process_env (env_TEST_EMAIL env).

(** The module-level variable [transporter] and the effects so far. *)
Record state : Type := {
  transporter : option Transport;
  trace : list event
}.

Inductive result (A : Type) : Type :=
| Ok (a : A)
| Throw (t : thrown).
Arguments Ok {A} a.
Arguments Throw {A} t.

(** Sequencing of evaluations that can throw and have no other effect. *)
Definition and_then {A B} (r : result A) (k : A -> result B) : result B :=
  match r with
  | Ok a => k a
  | Throw t => Throw t
  end.

(** Computations: state passing with exceptions. *)
Definition M (A : Type) : Type := state -> result A * state.

(** An evaluation without effect on the state. *)
Definition lift {A} (r : result A) : M A := fun st => (r, st).

Definition ret {A} (a : A) : M A := fun st => (Ok a, st).

Definition throw {A} (t : thrown) : M A := fun st => (Throw t, st).

Definition bind {A B} (m : M A) (k : A -> M B) : M B :=
  fun st =>
    match m st with
    | (Ok a, st') => k a st'
    | (Throw t, st') => (Throw t, st')
    end.

(** [try { m } catch (error) { handler error }] *)
Definition try_catch {A} (m : M A) (handler : thrown -> M A) : M A :=
  fun st =>
    match m st with
    | (Ok a, st') => (Ok a, st')
    | (Throw t, st') => handler t st'
    end.

Definition emit (e : event) : M unit :=
  fun st => (Ok tt, {| transporter := transporter st; trace := trace st ++ [e] |}).

Definition log (l : logline) : M unit := emit (EvLog l).

Definition is_send (e : event) : bool :=
  match e with EvSendMail _ => true | _ => false end.

(** Number of [sendMail] invocations recorded in a trace. *)
Definition invocations (tr : list event) : nat :=
  List.length (List.filter is_send tr).

(** Durations of the backoff sleeps recorded in a trace, in order. *)
Fixpoint sleeps (tr : list event) : list Z :=
  match tr with
  | [] => []
  | EvSleep ms :: rest => ms :: sleeps rest
  | _ :: rest => sleeps rest
  end.

(** Messages handed to the transport, in order. *)
Fixpoint sent_messages (tr : list event) : list MailOptions :=
  match tr with
  | [] => []
  | EvSendMail m :: rest => m :: sent_messages rest
  | _ :: rest => sent_messages rest
  end.

(** The events a computation added when it took [st] to [st']. *)
Definition new_events (st st' : state) : list event :=
  List.skipn (List.length (trace st)) (trace st').

End Mail.
Import Mail.

Declare Scope js_scope.
Delimit Scope js_scope with js.
Notation "x <- m ;; k" := (bind m (fun x => k))
  (at level 61, m at next level, right associativity) : js_scope.
Notation "m ;; k" := (bind m (fun _ => k))
  (at level 61, right associativity) : js_scope.
Notation "x <~ r ;; k" := (and_then r (fun x => k))
  (at level 61, r at next level, right associativity) : js_scope.
Local Open Scope js_scope.

(** ** The server *)

Module Server.

Section WithEnv.

Variable env : Env.

(** *** Primitives of the host *)

(** [new Date().toISOString()] *)
Definition now_iso : M jsstring :=
  fun st => (Ok (toISOString env (Date_now env (List.length (trace st)))), st).

(** [await new Promise(resolve => setTimeout(resolve, delay))] *)
Definition sleep (delay : Z) : M unit := emit (EvSleep delay).

(** Message of the [TypeError] raised by reading [sendMail] from an
    [undefined] [transporter]. *)
Definition TypeError_sendMail : JsError :=
  {| message := js "Cannot read properties of undefined (reading 'sendMail')";
     code := VUndefined |}.

(** Message of the [TypeError] raised by destructuring [undefined] or
    [null]. *)
Definition TypeError_destructure (k : jsstring) (v : value) : JsError :=
  {| message := js "Cannot destructure property '" ++ k ++
                js "' of 'req.body' as it is " ++
                (match v with VNull => js "null" | _ => js "undefined" end) ++
                js ".";
     code := VUndefined |}.

(** The [TypeError] of a conversion to a string that finds no primitive
    value, and the [RangeError] of an exhausted call stack. *)
Definition TypeError_toPrimitive : JsError :=
  {| message := js "Cannot convert object to primitive value";
     code := VUndefined |}.

Definition RangeError_stack : JsError :=
  {| message := js "Maximum call stack size exceeded";
     code := VUndefined |}.

(** What [ToString] gives, or its [TypeError]. *)
Definition converted {A} (o : option A) : result A :=
  match o with
  | Some a => Ok a
  | None => Throw (ThrownError TypeError_toPrimitive)
  end.

(** The conversion of a value to a string as the host runs it: an array
    whose join exhausts the stack ends in a [RangeError]. *)
Definition to_string (v : value) : result jsstring :=
  match v with
  | VArr l =>
      if join_overflows env l
      then Throw (ThrownError RangeError_stack)
      else converted (ToString v)
  | _ => converted (ToString v)
  end.

(** [emailRegex.test(v)] as the host runs it. *)
Definition test_email (v : value) : result bool :=
  match v with
  | VArr l =>
      if join_overflows env l
      then Throw (ThrownError RangeError_stack)
      else converted (emailRegex_test v)
  | _ => converted (emailRegex_test v)
  end.

(** [JSON.stringify(v, null, 2)], for its effect only. *)
Definition stringify (v : value) : M unit :=
  match stringify_error env v with
  | Some error => throw (ThrownError error)
  | None => ret tt
  end.

(** Message of the [TypeError] raised by reading a property of a thrown
    [undefined]. *)
Definition TypeError_read (k : jsstring) : JsError :=
  {| message := js "Cannot read properties of undefined (reading '" ++ k ++ js "')";
     code := VUndefined |}.

(** [await transporter.sendMail(mailOptions)]: a [TypeError] while
    [transporter] is [undefined]; otherwise one invocation of the
    transport, answered by the relay. *)
Definition sendMail (mailOptions : MailOptions) : M Info :=
  fun st =>
    match transporter st with
    | None => (Throw (ThrownError TypeError_sendMail), st)
    | Some _ =>
        let st' := {| transporter := transporter st;
                      trace := trace st ++ [EvSendMail mailOptions] |} in
        match relay env (invocations (trace st)) mailOptions with
        | Resolved info => (Ok info, st')
        | Rejected error => (Throw (ThrownError error), st')
        end
    end.

(** [error.message] of a caught value. *)
Definition message_of (error : thrown) : M jsstring :=
  match error with
  | ThrownError e => ret (message e)
  | ThrownUndefined => throw (ThrownError (TypeError_read (js "message")))
  end.

(** [initializeTransporter()] *)
Definition initializeTransporter : M unit :=
  fun st =>
    let t := {| service := js "gmail";
                host := js "smtp.gmail.com";
                port := 587;
                secure := false;
                requireTLS := true;
                auth_user := EMAIL_USER env;
                auth_pass := EMAIL_APP_PASSWORD env;
                connectionTimeout := 30000;
                greetingTimeout := 30000;
                socketTimeout := 60000;
                tls_rejectUnauthorized := false |} in
    (Ok tt, {| transporter := Some t;
               trace := trace st ++ [EvCreateTransport t] |}).

(** *** Formatting helpers *)

(** [formatDate(dateStr)].  [new Date(dateStr)] converts an object or an
    array to a primitive and throws where the conversion to a string
    throws; the error is caught and [dateStr] is returned. *)
Definition formatDate (dateStr : value) : value :=
  if negb (truthy dateStr) then VStr (js "Not specified")
  else
    match to_string dateStr with
    | Ok _ => VStr (toLocaleDateString env dateStr)
    | Throw _ => dateStr
    end.

Definition colon : N := 58.

(** [s.split(':')] *)
Fixpoint split_colon (s : jsstring) : list jsstring :=
  match s with
  | [] => [[]]
  | c :: s' =>
      match split_colon s' with
      | [] => [[c]]
      | piece :: pieces =>
          if (c =? colon)%N then [] :: piece :: pieces
          else (c :: piece) :: pieces
      end
  end.

(** [formatTime(timeStr)].  A truthy value that is not a string has no
    [split] method: the [TypeError] is caught and [timeStr] is returned. *)
Definition formatTime (timeStr : value) : value :=
  if negb (truthy timeStr) then VStr (js "Not specified")
  else
    match timeStr with
    | VStr s =>
        let parts := split_colon s in
        let hours := List.nth 0 parts [] in
        let minutes := List.nth 1 parts [] in
        match parseInt env hours with
        | None => timeStr
        | Some hour =>
            let ampm := if hour >=? 12 then js "PM" else js "AM" in
            let formattedHour :=
              if Z.rem hour 12 =? 0 then 12 else Z.rem hour 12 in
            VStr (number_to_string formattedHour ++ [colon] ++
                  (match minutes with [] => js "00" | _ => minutes end) ++
                  js " " ++ ampm)
        end
    | _ => timeStr
    end.

(** *** [sendEmailWithRetry] *)

(** One iteration of the [for] loop.  [inl info]: the [try] block returned
    [info] from the function.  [inr error]: the [catch] block ran to its
    end with [lastError = error]. *)
Definition attempt_body (mailOptions : MailOptions) (maxRetries attempt : Z)
  : M (Info + thrown) :=
  try_catch
    (log (LogAttempt attempt maxRetries);;
     info <- sendMail mailOptions;;
     ret (inl info))
    (fun error =>
       msg <- message_of error;;
       log (LogAttemptFailed attempt msg);;
       (if attempt <? maxRetries then
          let delay := 2 ^ attempt * 1000 in
          log (LogWaiting (delay / 1000));;
          sleep delay
        else ret tt);;
       ret (inr error)).

Definition inspect {A} (a : A) : {b : A | a = b} := exist _ a eq_refl.

(** [for (attempt; attempt <= maxRetries; attempt++) { ... } throw lastError] *)
Equations? retry_loop (mailOptions : MailOptions) (maxRetries attempt : Z)
  (lastError : thrown) : M Info
  by wf (Z.to_nat (maxRetries + 1 - attempt)) lt :=
retry_loop mailOptions maxRetries attempt lastError
  with inspect (attempt <=? maxRetries) := {
  | exist _ true _ =>
      r <- attempt_body mailOptions maxRetries attempt;;
      match r with
      | inl info => ret info
      | inr error => retry_loop mailOptions maxRetries (attempt + 1) error
      end
  | exist _ false _ => throw lastError }.
Proof.
  match goal with
  | H : (_ <=? _) = true |- _ => apply Z.leb_le in H
  end.
  lia.
Qed.

(** [sendEmailWithRetry(mailOptions, maxRetries)]; both callers pass
    [maxRetries] explicitly. *)
Definition sendEmailWithRetry (mailOptions : MailOptions) (maxRetries : Z) : M Info :=
  retry_loop mailOptions maxRetries 1 ThrownUndefined.

(** The default [maxRetries = 2] of the signature. *)
Definition sendEmailWithRetry_default (mailOptions : MailOptions) : M Info :=
  sendEmailWithRetry mailOptions 2.

(** *** Templates *)

(** [generateConfirmationEmail(booking)] and [generateReminderEmail(booking)]:
    in this revision both bodies are the placeholder literal. *)
Definition generateConfirmationEmail (booking : value) : jsstring := js "...".

Definition generateReminderEmail (booking : value) : jsstring := js "...".

(** [x || d] *)
Definition or_else (x d : value) : value := if truthy x then x else d.

Definition newline : jsstring := [10%N].
Definition dquote : jsstring := [34%N].

(** U+2728, and the surrogate pairs of U+1F4C5 and U+1F9EA. *)
Definition sparkles : jsstring := [10024%N].
Definition calendar : jsstring := [55357%N; 56517%N].
Definition test_tube : jsstring := [55358%N; 56810%N].

(** The confirmation subject, from the text of [booking.bookingId]. *)
Definition confirmation_subject (bookingId : jsstring) : jsstring :=
  sparkles ++ js " Payment Confirmed - Luna Massage Booking " ++ bookingId.

Definition reminder_subject : jsstring :=
  calendar ++ js " Reminder - Your Luna Massage Appointment".

(** [const isConfirmation = status === 'confirmed'] *)
Definition isConfirmation (status : value) : bool :=
  strict_eq_string status (js "confirmed").

(** [`"Luna Massage" <${process.env.EMAIL_USER}>`] *)
Definition sender : jsstring :=
  dquote ++ js "Luna Massage" ++ dquote ++ js " <" ++
  (match env_EMAIL_USER env with
   | Some user => user
   | None => js "undefined"
   end) ++ js ">".

(** The plain-text body: the template literals are evaluated from left
    to right, and the first conversion that throws ends the evaluation. *)
Definition text_body (booking : value) : result jsstring :=
  bookingId <~ to_string (or_else (prop booking (js "bookingId")) (VStr (js "N/A")));;
  service <~ to_string (or_else (prop booking (js "service")) (VStr (js "N/A")));;
  date <~ to_string (formatDate (prop booking (js "date")));;
  time <~ to_string (formatTime (prop booking (js "time")));;
  amount <~ to_string (or_else (prop booking (js "servicePrice")) (VStr (js "0")));;
  Ok (js "Luna Massage Booking Confirmation" ++ newline ++ newline ++
      js "Booking ID: " ++ bookingId ++ newline ++
      js "Service: " ++ service ++ newline ++
      js "Date: " ++ date ++ newline ++
      js "Time: " ++ time ++ newline ++
      js "Amount: $" ++ amount ++ newline ++ newline ++
      js "Thank you for your booking!").

(** The subject: the confirmation template is evaluated, and can throw,
    only for a confirmation. *)
Definition subject_for (booking status : value) : result jsstring :=
  if isConfirmation status
  then bookingId <~ to_string (prop booking (js "bookingId"));;
       Ok (confirmation_subject bookingId)
  else Ok reminder_subject.

(** The [mailOptions] of [POST /send-confirmation]: the subject is
    evaluated first, then the body, then the object literal with the
    text. *)
Definition confirmation_mailOptions (booking status : value) : result MailOptions :=
  subject <~ subject_for booking status;;
  let htmlContent :=
    if isConfirmation status
    then generateConfirmationEmail booking
    else generateReminderEmail booking in
  text <~ text_body booking;;
  Ok {| from := sender;
        to := prop booking (js "email");
        subject := subject;
        html := htmlContent;
        replyTo := Some (js "info@lunamassage.com");
        text := text |}.

(** *** [POST /send-confirmation] *)

(** What the handler sends: [res.status(statusCode).json(body)]; the status
    is 200 when [res.json] is called directly. *)
Record Response : Type := {
  statusCode : Z;
  body : value
}.

(** The error classification of the [catch] block: status code and
    message reported for an [Error] object. *)
Definition classifyError (error : JsError) : Z * jsstring :=
  if includes (message error) (js "timeout")
     || strict_eq_string (code error) (js "ETIMEDOUT")
  then (504, js "Connection to Gmail timed out. Please try again.")
  else if strict_eq_string (code error) (js "EAUTH")
  then (500, js "Email authentication failed. Check your Gmail App Password on Render.")
  else if strict_eq_string (code error) (js "ECONNECTION")
  then (500, js "Cannot connect to Gmail servers. Check network or firewall settings.")
  else if strict_eq_string (code error) (js "ENOTFOUND")
  then (500, js "Cannot resolve Gmail server. Network issue.")
  else (500, message error).

(** The [catch] block of the handler. *)
Definition send_confirmation_catch (error : thrown) : M Response :=
  log (LogErrorSending error);;
  match error with
  | ThrownUndefined => throw (ThrownError (TypeError_read (js "message")))
  | ThrownError e =>
      let '(statusCode, errorMessage) := classifyError e in
      timestamp <- now_iso;;
      ret {| statusCode := statusCode;
             body := VObj [ (js "success", VBool false);
                            (js "error", VStr errorMessage);
                            (js "code", code e);
                            (js "timestamp", VStr timestamp) ] |}
  end.

(** [const { booking, status } = req.body] *)
Definition destructure_body (req_body : value) : M (value * value) :=
  if nullish req_body
  then throw (ThrownError (TypeError_destructure (js "booking") req_body))
  else ret (prop req_body (js "booking"), prop req_body (js "status")).

(** The two [console.log] calls and [req.setTimeout] stand before the
    [try]: what [JSON.stringify] throws there leaves the handler without a
    response. *)
Definition send_confirmation (req_body : value) : M Response :=
  received <- now_iso;;
  log (LogReceived received);;
  stringify req_body;;
  log (LogRequestBody req_body);;
  emit (EvRequestTimeout 45000);;
  try_catch
    (bs <- destructure_body req_body;;
     let '(booking, status) := bs in
     if negb (truthy booking) || negb (truthy (prop booking (js "email")))
     then ret {| statusCode := 400;
                 body := VObj [ (js "success", VBool false);
                                (js "error", VStr (js "Missing required booking data")) ] |}
     else
       accepted <- lift (test_email (prop booking (js "email")));;
       if negb accepted
       then ret {| statusCode := 400;
                   body := VObj [ (js "success", VBool false);
                                  (js "error", VStr (js "Invalid email address")) ] |}
       else
       (fun st => match transporter st with
                  | None => initializeTransporter st
                  | Some _ => (Ok tt, st)
                  end);;
       mailOptions <- lift (confirmation_mailOptions booking status);;
       lift (to_string (prop booking (js "email")));;
       log (LogSending (prop booking (js "email")));;
       log (LogSubject (subject mailOptions));;
       info <- sendEmailWithRetry mailOptions 2;;
       log LogSent;;
       lift (to_string (messageId info));;
       log (LogMessageId (messageId info));;
       lift (to_string (response info));;
       log (LogResponse (response info));;
       timestamp <- now_iso;;
       ret {| statusCode := 200;
              body := VObj [ (js "success", VBool true);
                             (js "messageId", messageId info);
                             (js "recipient", prop booking (js "email"));
                             (js "timestamp", VStr timestamp) ] |})
    send_confirmation_catch.

(** *** [GET /test] *)

Definition capital_T : N := 84.

(** [s.split('T')[0]] *)
Fixpoint before_T (s : jsstring) : jsstring :=
  match s with
  | [] => []
  | c :: s' => if (c =? capital_T)%N then [] else c :: before_T s'
  end.

Definition testBooking (testEmail : value) (now : Z) : value :=
  VObj [ (js "bookingId", VStr (js "TEST-" ++ number_to_string now));
         (js "name", VStr (js "Test Client"));
         (js "email", testEmail);
         (js "service", VStr (js "Swedish Massage"));
         (js "date",
           VStr (before_T (toISOString env (now + 7 * 24 * 60 * 60 * 1000))));
         (js "time", VStr (js "14:00"));
         (js "servicePrice", VNum (NDecimal false 8 2));
         (js "crypto", VStr (js "BTC"));
         (js "cryptoAmount", VStr (js "0.0015"));
         (js "specialRequests", VStr (js "Test booking - please ignore")) ].

Definition test_mailOptions (booking : value) : MailOptions :=
  {| from := sender;
     to := prop booking (js "email");
     subject := test_tube ++ js " Test Email - Luna Massage";
     html := generateConfirmationEmail booking;
     replyTo := None;
     text := js "Test email from Luna Massage Email Service" |}.

Definition test_endpoint : M Response :=
  try_catch
    (if negb (truthy (EMAIL_USER env)) || negb (truthy (EMAIL_APP_PASSWORD env))
     then ret {| statusCode := 500;
                 body := VObj [ (js "success", VBool false);
                                (js "error", VStr (js "Email not configured. Set EMAIL_USER and EMAIL_APP_PASSWORD on Render.")) ] |}
     else
       let testEmail := or_else (TEST_EMAIL env) (EMAIL_USER env) in
       if negb (truthy testEmail)
       then ret {| statusCode := 400;
                   body := VObj [ (js "success", VBool false);
                                  (js "error", VStr (js "No test email available. Set TEST_EMAIL or EMAIL_USER.")) ] |}
       else
         booking <- (fun st => (Ok (testBooking testEmail
                                      (Date_now env (List.length (trace st)))), st));;
         let mailOptions := test_mailOptions booking in
         info <- sendEmailWithRetry mailOptions 1;;
         timestamp <- now_iso;;
         ret {| statusCode := 200;
                body := VObj [ (js "success", VBool true);
                               (js "message", VStr (js "Test email sent successfully"));
                               (js "to", prop booking (js "email"));
                               (js "messageId", messageId info);
                               (js "timestamp", VStr timestamp) ] |})
    (fun error =>
       log (LogTestError error);;
       msg <- message_of error;;
       timestamp <- now_iso;;
       ret {| statusCode := 500;
              body := VObj [ (js "success", VBool false);
                             (js "error", VStr msg);
                             (js "timestamp", VStr timestamp) ] |}).

End WithEnv.

End Server.
Import Server.

(** ** Vocabulary of the statements *)

Module Policy.

(** Exponential backoff: the delays, in milliseconds, slept after attempts
    [attempt], [attempt + 1], ... ([count] of them). *)
Fixpoint backoff_delays (attempt : Z) (count : nat) : list Z :=
  match count with
  | O => []
  | S c => 2 ^ attempt * 1000 :: backoff_delays (attempt + 1) c
  end.

(** Two answers of the relay that differ at most in which error is
    raised. *)
Definition same_shape (o1 o2 : SendOutcome) : Prop :=
  match o1, o2 with
  | Resolved i1, Resolved i2 => i1 = i2
  | Rejected _, Rejected _ => True
  | _, _ => False
  end.

(** Two outcomes of a delivery that differ at most in which error is
    thrown. *)
Definition same_result (r1 r2 : result Info) : Prop :=
  match r1, r2 with
  | Ok i1, Ok i2 => i1 = i2
  | Throw _, Throw _ => True
  | _, _ => False
  end.

(** Two states with the same transporter, as many invocations and the same
    sleeps. *)
Definition same_control (st1 st2 : state) : Prop :=
  transporter st1 = transporter st2 /\
  invocations (trace st1) = invocations (trace st2) /\
  sleeps (trace st1) = sleeps (trace st2).

(** The transporter is left alone, the trace only grows, and every message
    handed to the transport is [mailOptions]. *)
Definition extends (mailOptions : MailOptions) (st st' : state) : Prop :=
  transporter st' = transporter st /\
  exists added,
    trace st' = trace st ++ added /\
    Forall (fun m => m = mailOptions) (sent_messages added).

(** Events of an attempt that the relay rejects with [error]. *)
Definition rejected_events (mailOptions : MailOptions) (maxRetries attempt : Z)
  (error : JsError) : list event :=
  [EvLog (LogAttempt attempt maxRetries);
   EvSendMail mailOptions;
   EvLog (LogAttemptFailed attempt (message error))] ++
  (if attempt <? maxRetries
   then [EvLog (LogWaiting (2 ^ attempt * 1000 / 1000)); EvSleep (2 ^ attempt * 1000)]
   else []).


(** A request body that passes both checks of [POST /send-confirmation]:
    it can be destructured, [booking] and [booking.email] are truthy, and
    the regular expression accepts the address. *)
Definition passes_validation (env : Env) (req_body : value) : bool :=
  negb (nullish req_body) &&
  truthy (prop req_body (js "booking")) &&
  truthy (prop (prop req_body (js "booking")) (js "email")) &&
  match test_email env (prop (prop req_body (js "booking")) (js "email")) with
  | Ok accepted => accepted
  | Throw _ => false
  end.

(** A request body that one of the two checks turns down: it can be
    destructured, and [booking] or [booking.email] is falsy or the regular
    expression answers [false]. *)
Definition fails_validation (env : Env) (req_body : value) : bool :=
  negb (nullish req_body) &&
  (negb (truthy (prop req_body (js "booking"))) ||
   negb (truthy (prop (prop req_body (js "booking")) (js "email"))) ||
   match test_email env (prop (prop req_body (js "booking")) (js "email")) with
   | Ok accepted => negb accepted
   | Throw _ => false
   end).

(** A request body that can be destructured and whose [booking.email] is
    truthy, but on which the conversion to a string that [emailRegex.test]
    begins with throws. *)
Definition unconvertible_email (env : Env) (req_body : value) : bool :=
  negb (nullish req_body) &&
  truthy (prop req_body (js "booking")) &&
  truthy (prop (prop req_body (js "booking")) (js "email")) &&
  match test_email env (prop (prop req_body (js "booking")) (js "email")) with
  | Ok _ => false
  | Throw _ => true
  end.

(** The error that [emailRegex.test] throws on the address of such a
    body. *)
Definition conversion_error (env : Env) (req_body : value) : thrown :=
  match test_email env (prop (prop req_body (js "booking")) (js "email")) with
  | Ok _ => ThrownUndefined
  | Throw error => error
  end.

(** The message [POST /send-confirmation] builds for a request body, or
    what building it throws. *)
Definition message_for (env : Env) (req_body : value) : result MailOptions :=
  confirmation_mailOptions env (prop req_body (js "booking"))
    (prop req_body (js "status")).



(** The state in which the handler calls [JSON.stringify]. *)
Definition received (env : Env) (st : state) : state :=
  {| transporter := transporter st;
     trace := trace st ++
       [EvLog (LogReceived (toISOString env (Date_now env (List.length (trace st)))))] |}.

(** The state in which the handler starts its [try] block. *)
Definition after_prologue (env : Env) (req_body : value) (st : state) : state :=
  {| transporter := transporter st;
     trace := trace st ++
       [EvLog (LogReceived (toISOString env (Date_now env (List.length (trace st)))));
        EvLog (LogRequestBody req_body);
        EvRequestTimeout 45000] |}.

(** The state of a valid request after the transporter was looked
    after. *)
Definition initialised (env : Env) (req_body : value) (st : state) : state :=
  let st0 := after_prologue env req_body st in
  match transporter st0 with
  | None => snd (initializeTransporter env st0)
  | Some _ => st0
  end.

(** The state in which the handler of a valid request calls
    [sendEmailWithRetry] with the message [m]. *)
Definition ready_to_send (env : Env) (req_body : value) (m : MailOptions)
  (st : state) : state :=
  let st1 := initialised env req_body st in
  {| transporter := transporter st1;
     trace := trace st1 ++
       [EvLog (LogSending (prop (prop req_body (js "booking")) (js "email")));
        EvLog (LogSubject (subject m))] |}.

(** The template literals that log a delivery can print the identifier
    and the response that the transport resolved with (both are strings
    when the transport is nodemailer's). *)
Definition printable_info (env : Env) (info : Info) : bool :=
  match to_string env (messageId info), to_string env (response info) with
  | Ok _, Ok _ => true
  | _, _ => false
  end.

(** The error of the first of the two template literals that throws. *)
Definition logging_error (env : Env) (info : Info) : thrown :=
  match to_string env (messageId info), to_string env (response info) with
  | Throw error, _ => error
  | Ok _, Throw error => error
  | Ok _, Ok _ => ThrownUndefined
  end.

(** The events that follow a delivery up to the response, or up to the
    template literal that throws. *)
Definition delivery_log (env : Env) (info : Info) : list event :=
  match to_string env (messageId info), to_string env (response info) with
  | Throw _, _ => [EvLog LogSent]
  | Ok _, Throw _ => [EvLog LogSent; EvLog (LogMessageId (messageId info))]
  | Ok _, Ok _ => [EvLog LogSent;
                   EvLog (LogMessageId (messageId info));
                   EvLog (LogResponse (response info))]
  end.

(** What follows a delivery, from state [st]: the success response, or
    the [catch] block when logging the delivery throws. *)
Definition delivered (env : Env) (req_body : value) (info : Info) (st : state)
  : result Response * state :=
  let st' := {| transporter := transporter st;
                trace := trace st ++ delivery_log env info |} in
  if printable_info env info
  then
    (Ok {| statusCode := 200;
           body := VObj
             [ (js "success", VBool true);
               (js "messageId", messageId info);
               (js "recipient", prop (prop req_body (js "booking")) (js "email"));
               (js "timestamp",
                 VStr (toISOString env (Date_now env (List.length (trace st'))))) ] |},
     st')
  else send_confirmation_catch env (logging_error env info) st'.

(** The timeout class of the error classification. *)
Definition timeout_class (error : JsError) : bool :=
  includes (message error) (js "timeout") ||
  strict_eq_string (code error) (js "ETIMEDOUT").

End Policy.
Import Policy.

(** ** Sample inputs *)

Module Samples.

Definition err_auth : JsError :=
  {| message := js "Invalid login: 535-5.7.8 Username and Password not accepted";
     code := VStr (js "EAUTH") |}.

Definition err_timeout : JsError :=
  {| message := js "Connection timeout"; code := VStr (js "ETIMEDOUT") |}.

Definition err_greeting : JsError :=
  {| message := js "Greeting never received"; code := VStr (js "ETIMEDOUT") |}.

Definition err_auth_timeout : JsError :=
  {| message := js "Login timeout while authenticating"; code := VStr (js "EAUTH") |}.

Definition err_socket_timeout : JsError :=
  {| message := js "Socket timeout while waiting for response";
     code := VStr (js "ESOCKET") |}.

Definition err_Timeout_capital : JsError :=
  {| message := js "Timeout"; code := VUndefined |}.

Definition err_refused : JsError :=
  {| message := js "connect ECONNREFUSED 127.0.0.1:587";
     code := VStr (js "ESOCKET") |}.

(** An answer of the relay whose identifier no template literal can
    print. *)
Definition info_unprintable : Info :=
  {| messageId := VObj [ (js "toString", VNull) ];
     response := VStr (js "250 2.0.0 OK") |}.

Definition info_ok : Info :=
  {| messageId := VStr (js "<b1946ac9@gmail.com>");
     response := VStr (js "250 2.0.0 OK  1700000000 - gsmtp") |}.

(** A relay that answers its invocations from a script and rejects with
    [last] once the script is exhausted. *)
Definition scripted (script : list SendOutcome) (last : JsError)
  : nat -> MailOptions -> SendOutcome :=
  fun k _ => List.nth k script (Rejected last).

Definition env_with (r : nat -> MailOptions -> SendOutcome) : Env :=
  {| relay := r;
     Date_now := fun k => 1700000000000 + Z.of_nat k;
     toISOString := fun ms => js "2023-11-14T22:13:20.000Z";
     toLocaleDateString := fun _ => js "Friday, December 1, 2023";
     parseInt := fun s => if jsstring_eqb s (js "14") then Some 14 else None;
     stringify_error := fun _ => None;
     join_overflows := fun _ => false;
     env_EMAIL_USER := Some (js "luna@gmail.com");
     env_EMAIL_APP_PASSWORD := Some (js "abcdabcdabcdabcd");
     env_TEST_EMAIL := None |}.

Definition env_rejecting (e : JsError) : Env := env_with (scripted [] e).

(** The process before and after [initializeTransporter()]. *)
Definition st_fresh : state := {| transporter := None; trace := [] |}.

Definition st_ready : state :=
  snd (initializeTransporter (env_with (scripted [] err_auth)) st_fresh).

Definition sample_booking : value :=
  VObj [ (js "email", VStr (js "ana@example.com"));
         (js "bookingId", VStr (js "LM-1042"));
         (js "service", VStr (js "Swedish Massage"));
         (js "date", VStr (js "2023-12-01"));
         (js "time", VStr (js "14:00"));
         (js "servicePrice", VNum (NDecimal false 8 2)) ].

(** [{"toString": 1}]: an object that no conversion to a string accepts. *)
Definition unprintable_object : value :=
  VObj [ (js "toString", VNum (NDecimal false 1 1)) ].

(** [1.5e21], the smallest exponent that prints in exponent notation. *)
Definition big_number : number := NDecimal false 15 22.

Definition sample_request : value :=
  VObj [ (js "booking", sample_booking); (js "status", VStr (js "confirmed")) ].

Definition sample_message : MailOptions :=
  match confirmation_mailOptions (env_rejecting err_auth) sample_booking
          (VStr (js "confirmed")) with
  | Ok m => m
  | Throw _ => {| from := []; to := VUndefined; subject := []; html := [];
                  replyTo := None; text := [] |}
  end.


(** [{"booking": {"email": {"toString": 1}}}] *)
Definition request_unprintable_email : value :=
  VObj [ (js "booking", VObj [ (js "email", unprintable_object) ]) ].

(** [{"booking": {"email": ["a@b", 1.5e21]}}]: the address reads
    [a@b,1.5e+21]. *)
Definition request_exponent_email : value :=
  VObj [ (js "booking",
           VObj [ (js "email", VArr [VStr (js "a@b"); VNum big_number]) ]) ].

(** A valid address and a [time] that no template literal can print. *)
Definition request_unprintable_time : value :=
  VObj [ (js "booking",
           VObj [ (js "email", VStr (js "ana@example.com"));
                  (js "time", unprintable_object) ]);
         (js "status", VStr (js "confirmed")) ].

(** [{"booking": {"email": [["ana@example.com"]]}}]: an address nested in
    arrays. *)
Definition request_nested_email : value :=
  VObj [ (js "booking",
           VObj [ (js "email", VArr [VArr [VStr (js "ana@example.com")]]) ]) ].

(** A valid request without a [status] field. *)
Definition request_without_status : value :=
  VObj [ (js "booking", sample_booking) ].

(** A host whose stack [JSON.stringify] exhausts on every array, and
    [Array.prototype.join] on an array that holds one array. *)
Definition env_small_stack : Env :=
  {| relay := scripted [] err_auth;
     Date_now := fun k => 1700000000000 + Z.of_nat k;
     toISOString := fun ms => js "2023-11-14T22:13:20.000Z";
     toLocaleDateString := fun _ => js "Friday, December 1, 2023";
     parseInt := fun s => None;
     stringify_error :=
       fun v => match v with VArr _ => Some RangeError_stack | _ => None end;
     join_overflows := fun l => match l with [VArr _] => true | _ => false end;
     env_EMAIL_USER := Some (js "luna@gmail.com");
     env_EMAIL_APP_PASSWORD := Some (js "abcdabcdabcdabcd");
     env_TEST_EMAIL := None |}.

End Samples.
Import Samples.

(** ** The earlier revision of the handler

    [server.js] before the retry logic: the transporter is created when the
    module is loaded, the handler calls [transporter.sendMail] once, and
    every error is answered with 500 and its raw message. *)

Module ServerV1.

Section WithEnv.

Variable env : Env.

(** The plain-text body of the earlier revision: one template literal,
    evaluated from left to right. *)
Definition text_body (booking : value) : result jsstring :=
  bookingId <~ to_string env (prop booking (js "bookingId"));;
  service <~ to_string env (prop booking (js "service"));;
  date <~ to_string env (formatDate env (prop booking (js "date")));;
  time <~ to_string env (formatTime env (prop booking (js "time")));;
  Ok (js "Luna Massage Booking Confirmation" ++ newline ++ newline ++
      js "Booking ID: " ++ bookingId ++ newline ++
      js "Service: " ++ service ++ newline ++
      js "Date: " ++ date ++ newline ++
      js "Time: " ++ time ++ newline ++ newline ++
      js "Thank you for your booking!").

Definition confirmation_mailOptions (booking status : value) : result MailOptions :=
  subject <~ subject_for env booking status;;
  let htmlContent :=
    if isConfirmation status
    then generateConfirmationEmail booking
    else generateReminderEmail booking in
  text <~ text_body booking;;
  Ok {| from := sender env;
        to := prop booking (js "email");
        subject := subject;
        html := htmlContent;
        replyTo := Some (js "info@lunamassage.com");
        text := text |}.

(** The [catch] block: 500 with [error.message]. *)
Definition send_confirmation_catch (error : thrown) : M Response :=
  log (LogErrorSending error);;
  msg <- message_of error;;
  timestamp <- now_iso env;;
  ret {| statusCode := 500;
         body := VObj [ (js "success", VBool false);
                        (js "error", VStr msg);
                        (js "timestamp", VStr timestamp) ] |}.

Definition send_confirmation (req_body : value) : M Response :=
  received <- now_iso env;;
  log (LogReceived received);;
  try_catch
    (bs <- destructure_body req_body;;
     let '(booking, status) := bs in
     if negb (truthy booking) || negb (truthy (prop booking (js "email")))
     then ret {| statusCode := 400;
                 body := VObj [ (js "success", VBool false);
                                (js "error", VStr (js "Missing required booking data")) ] |}
     else
       accepted <- lift (test_email env (prop booking (js "email")));;
       if negb accepted
       then ret {| statusCode := 400;
                   body := VObj [ (js "success", VBool false);
                                  (js "error", VStr (js "Invalid email address")) ] |}
       else
       mailOptions <- lift (confirmation_mailOptions booking status);;
       lift (to_string env (prop booking (js "email")));;
       log (LogSending (prop booking (js "email")));;
       info <- sendMail env mailOptions;;
       log (LogMessageId (messageId info));;
       timestamp <- now_iso env;;
       ret {| statusCode := 200;
              body := VObj [ (js "success", VBool true);
                             (js "messageId", messageId info);
                             (js "recipient", prop booking (js "email"));
                             (js "timestamp", VStr timestamp) ] |})
    send_confirmation_catch.

End WithEnv.

End ServerV1.

(** ** Meaning of regular expressions *)

Module Language.

(** [matches r s]: the string [s] belongs to the language of [r]. *)
Inductive matches : re -> jsstring -> Prop :=
| MEps : matches Eps []
| MClass p c : p c = true -> matches (Class p) [c]
| MCat r1 r2 s1 s2 :
    matches r1 s1 -> matches r2 s2 -> matches (Cat r1 r2) (s1 ++ s2)
| MAltL r1 r2 s : matches r1 s -> matches (Alt r1 r2) s
| MAltR r1 r2 s : matches r2 s -> matches (Alt r1 r2) s
| MStarNil r : matches (Star r) []
| MStarCons r s1 s2 :
    matches r s1 -> matches (Star r) s2 -> matches (Star r) (s1 ++ s2).

(** A non-empty run of code units that are neither white space nor [@]. *)
Definition address_part (s : jsstring) : Prop :=
  s <> [] /\ forallb not_space_at s = true.

(** The shape [local@domain.tld] that [emailRegex] describes. *)
Definition address_shape (s : jsstring) : Prop :=
  exists a b c,
    s = a ++ [at_sign] ++ b ++ [dot] ++ c /\
    address_part a /\ address_part b /\ address_part c.

(** [pat] occurs in [s]. *)
Definition substring (pat s : jsstring) : Prop :=
  exists pre post, s = pre ++ pat ++ post.

(** Sum of a list of durations. *)
Definition total (l : list Z) : Z := List.fold_right Z.add 0 l.

(** Events of an attempt made while [transporter] is [undefined]. *)
Definition unreached_events (maxRetries attempt : Z) : list event :=
  [EvLog (LogAttempt attempt maxRetries);
   EvLog (LogAttemptFailed attempt (message TypeError_sendMail))] ++
  (if attempt <? maxRetries
   then [EvLog (LogWaiting (2 ^ attempt * 1000 / 1000)); EvSleep (2 ^ attempt * 1000)]
   else []).

Definition is_create (e : event) : bool :=
  match e with EvCreateTransport _ => true | _ => false end.

(** Number of transports created in a trace. *)
Definition creations (tr : list event) : nat :=
  List.length (List.filter is_create tr).

End Language.
Import Language.

(** * Properties *)

(** ** Strings and values *)

Lemma jsstring_eqb_eq a b : jsstring_eqb a b = true <-> a = b.
Proof.
  unfold jsstring_eqb. destruct (list_eq_dec N.eq_dec a b); split; congruence.
Qed.

Lemma strict_eq_string_spec v lit :
  strict_eq_string v lit = true <-> v = VStr lit.
Proof.
  destruct v; simpl; try (split; [discriminate | congruence]).
  rewrite jsstring_eqb_eq. split; congruence.
Qed.

Example emailRegex_accepts :
  emailRegex_test (VStr (js "ana@example.com")) = Some true.
Proof. reflexivity. Qed.

Example emailRegex_rejects_space :
  emailRegex_test (VStr (js "ana @example.com")) = Some false.
Proof. reflexivity. Qed.

Example emailRegex_rejects_no_dot :
  emailRegex_test (VStr (js "ana@example")) = Some false.
Proof. reflexivity. Qed.

Example ToString_array :
  ToString (VArr [VNum (NDecimal false 15 2); VNull; VStr (js "x@y.z")])
  = Some (js "15,,x@y.z").
Proof. reflexivity. Qed.

Example Number_toString_examples :
  Number_toString (NDecimal false 8 2) = js "80" /\
  Number_toString (NDecimal false 7999 2) = js "79.99" /\
  Number_toString (NDecimal true 5 0) = js "-0.5" /\
  Number_toString (NDecimal false 1 (-5)) = js "0.000001" /\
  Number_toString (NDecimal false 1 (-6)) = js "1e-7" /\
  Number_toString (NDecimal false 1 21) = js "100000000000000000000" /\
  Number_toString (NDecimal false 1 22) = js "1e+21" /\
  Number_toString big_number = js "1.5e+21".
Proof. repeat split. Qed.

Example ToString_own_toString_throws :
  ToString unprintable_object = None /\
  ToString (VArr [VStr (js "a@b.c"); unprintable_object]) = None /\
  emailRegex_test unprintable_object = None.
Proof. repeat split. Qed.

(** The join of an array with a number in exponent notation is an
    address. *)
Example emailRegex_accepts_exponent :
  emailRegex_test (VArr [VStr (js "a@b"); VNum big_number]) = Some true.
Proof. reflexivity. Qed.

(** ** Traces *)

Lemma invocations_app tr1 tr2 :
  invocations (tr1 ++ tr2) = (invocations tr1 + invocations tr2)%nat.
Proof. unfold invocations. rewrite filter_app, length_app. reflexivity. Qed.

Lemma invocations_snoc_log tr l :
  invocations (tr ++ [EvLog l]) = invocations tr.
Proof. rewrite invocations_app. cbn. apply Nat.add_0_r. Qed.

Lemma sleeps_app tr1 tr2 : sleeps (tr1 ++ tr2) = sleeps tr1 ++ sleeps tr2.
Proof.
  induction tr1 as [|ev tr1 IH]; simpl; [reflexivity|].
  destruct ev; simpl; rewrite IH; reflexivity.
Qed.

Lemma sent_messages_app tr1 tr2 :
  sent_messages (tr1 ++ tr2) = sent_messages tr1 ++ sent_messages tr2.
Proof.
  induction tr1 as [|ev tr1 IH]; simpl; [reflexivity|].
  destruct ev; simpl; rewrite IH; reflexivity.
Qed.

Lemma sent_messages_length tr :
  List.length (sent_messages tr) = invocations tr.
Proof.
  unfold invocations.
  induction tr as [|ev tr IH]; simpl; [reflexivity|].
  destruct ev; simpl; rewrite IH; reflexivity.
Qed.

Lemma new_events_app st st' added :
  trace st' = trace st ++ added -> new_events st st' = added.
Proof.
  intros H. unfold new_events. rewrite H.
  rewrite skipn_app, skipn_all, Nat.sub_diag. reflexivity.
Qed.

Example formatTime_afternoon :
  formatTime (env_rejecting err_auth) (VStr (js "14:00")) = VStr (js "2:00 PM").
Proof. reflexivity. Qed.

Example formatTime_not_a_string :
  formatTime (env_rejecting err_auth) (VNum (NDecimal false 14 2))
  = VNum (NDecimal false 14 2).
Proof. reflexivity. Qed.

Example split_colon_example :
  split_colon (js "14:05:") = [js "14"; js "05"; []].
Proof. reflexivity. Qed.

(** ** The retry loop *)

Section Loop.

Variable env : Env.
Variable mailOptions : MailOptions.
Variable maxRetries : Z.

(** The loop, one iteration unfolded. *)
Lemma retry_loop_unfold (attempt : Z) (lastError : thrown) :
  retry_loop env mailOptions maxRetries attempt lastError =
  if attempt <=? maxRetries
  then (r <- attempt_body env mailOptions maxRetries attempt;;
        match r with
        | inl info => ret info
        | inr error => retry_loop env mailOptions maxRetries (attempt + 1) error
        end)
  else throw lastError.
Proof.
  rewrite retry_loop_equation_1. unfold inspect.
  assert (G : forall b (Hb : (attempt <=? maxRetries) = b),
    retry_loop_unfold_clause_1 env mailOptions maxRetries attempt
      (exist _ b Hb) lastError =
    if b
    then (r <- attempt_body env mailOptions maxRetries attempt;;
          match r with
          | inl info => ret info
          | inr error => retry_loop env mailOptions maxRetries (attempt + 1) error
          end)
    else throw lastError).
  { intros [] Hb; reflexivity. }
  exact (G _ eq_refl).
Qed.

Lemma attempt_body_resolved attempt st t info :
  transporter st = Some t ->
  relay env (invocations (trace st)) mailOptions = Resolved info ->
  attempt_body env mailOptions maxRetries attempt st =
  (Ok (inl info),
   {| transporter := transporter st;
      trace := trace st ++ [EvLog (LogAttempt attempt maxRetries);
                            EvSendMail mailOptions] |}).
Proof.
  intros Ht Hr.
  unfold attempt_body, try_catch, bind, log, emit, sendMail, ret. simpl.
  rewrite Ht, invocations_snoc_log, Hr. simpl.
  rewrite <- app_assoc. reflexivity.
Qed.

Lemma attempt_body_rejected attempt st t error :
  transporter st = Some t ->
  relay env (invocations (trace st)) mailOptions = Rejected error ->
  attempt_body env mailOptions maxRetries attempt st =
  (Ok (inr (ThrownError error)),
   {| transporter := transporter st;
      trace := trace st ++ rejected_events mailOptions maxRetries attempt error |}).
Proof.
  intros Ht Hr.
  unfold attempt_body, try_catch, bind, log, sleep, emit, sendMail, ret,
    rejected_events. simpl.
  rewrite Ht, invocations_snoc_log, Hr. simpl.
  destruct (attempt <? maxRetries); simpl;
    repeat rewrite <- app_assoc; reflexivity.
Qed.

Lemma invocations_rejected_events attempt error :
  invocations (rejected_events mailOptions maxRetries attempt error) = 1%nat.
Proof.
  unfold rejected_events. rewrite invocations_app.
  destruct (attempt <? maxRetries); reflexivity.
Qed.

Lemma sleeps_rejected_events attempt error :
  sleeps (rejected_events mailOptions maxRetries attempt error) =
  if attempt <? maxRetries then [2 ^ attempt * 1000] else [].
Proof.
  unfold rejected_events. destruct (attempt <? maxRetries); reflexivity.
Qed.

Lemma sent_messages_rejected_events attempt error :
  sent_messages (rejected_events mailOptions maxRetries attempt error) = [mailOptions].
Proof.
  unfold rejected_events. destruct (attempt <? maxRetries); reflexivity.
Qed.

(** [d] rejected attempts in a row, starting with [attempt]: the loop
    reaches attempt [attempt + d] with the last rejection as [lastError],
    after [d] invocations and a sleep after each attempt short of
    [maxRetries]. *)
Lemma retry_loop_rejections (d : nat) :
  forall attempt lastError st t (errs : nat -> JsError),
    transporter st = Some t ->
    attempt + Z.of_nat d <= maxRetries + 1 ->
    (forall j, (j < d)%nat ->
       relay env (invocations (trace st) + j) mailOptions = Rejected (errs j)) ->
    exists st' added,
      retry_loop env mailOptions maxRetries attempt lastError st =
      retry_loop env mailOptions maxRetries (attempt + Z.of_nat d)
        (match d with
         | O => lastError
         | S d' => ThrownError (errs d')
         end) st' /\
      transporter st' = transporter st /\
      trace st' = trace st ++ added /\
      invocations added = d /\
      sleeps added =
        backoff_delays attempt
          (if attempt + Z.of_nat d - 1 <? maxRetries then d else pred d) /\
      sent_messages added = List.repeat mailOptions d.
Proof.
  induction d as [|d IH]; intros attempt lastError st t errs Ht Hrange Hrej.
  - exists st, []. rewrite Z.add_0_r, app_nil_r.
    repeat split. destruct (_ <? _); reflexivity.
  - assert (Hle : (attempt <=? maxRetries) = true) by (apply Z.leb_le; lia).
    pose proof (Hrej O ltac:(lia)) as H0. rewrite Nat.add_0_r in H0.
    set (st1 := {| transporter := transporter st;
                   trace := trace st ++
                     rejected_events mailOptions maxRetries attempt (errs O) |}).
    destruct (IH (attempt + 1) (ThrownError (errs O)) st1 t (fun j => errs (S j)))
      as (st' & added & Heq & Htr & Htrace & Hinv & Hsl & Hsent).
    + exact Ht.
    + lia.
    + intros j Hj. simpl. rewrite invocations_app, invocations_rejected_events.
      rewrite <- (Hrej (S j)) by lia. f_equal. lia.
    + exists st', (rejected_events mailOptions maxRetries attempt (errs O) ++ added).
      split; [|split; [|split; [|split; [|split]]]].
      * rewrite retry_loop_unfold, Hle. unfold bind at 1.
        rewrite (attempt_body_rejected attempt st t (errs O) Ht H0).
        fold st1. rewrite Heq.
        replace (attempt + 1 + Z.of_nat d) with (attempt + Z.of_nat (S d)) by lia.
        destruct d; reflexivity.
      * exact Htr.
      * rewrite Htrace. unfold st1. simpl. rewrite <- app_assoc. reflexivity.
      * rewrite invocations_app, invocations_rejected_events, Hinv. reflexivity.
      * rewrite sleeps_app, sleeps_rejected_events, Hsl.
        replace (attempt + 1 + Z.of_nat d - 1) with (attempt + Z.of_nat (S d) - 1) by lia.
        destruct (attempt + Z.of_nat (S d) - 1 <? maxRetries) eqn:Hlast.
        -- apply Z.ltb_lt in Hlast.
           assert (Hlt : (attempt <? maxRetries) = true) by (apply Z.ltb_lt; lia).
           rewrite Hlt. reflexivity.
        -- apply Z.ltb_ge in Hlast. destruct d as [|d'].
           ++ assert (Hlt : (attempt <? maxRetries) = false) by (apply Z.ltb_ge; lia).
              rewrite Hlt. reflexivity.
           ++ assert (Hlt : (attempt <? maxRetries) = true) by (apply Z.ltb_lt; lia).
              rewrite Hlt. reflexivity.
      * rewrite sent_messages_app, sent_messages_rejected_events, Hsent.
        reflexivity.
Qed.

(** Every attempt up to [maxRetries] is rejected. *)
Lemma sendEmailWithRetry_all_rejected st t (errs : nat -> JsError) :
  1 <= maxRetries ->
  transporter st = Some t ->
  (forall j, (j < Z.to_nat maxRetries)%nat ->
     relay env (invocations (trace st) + j) mailOptions = Rejected (errs j)) ->
  exists st' added,
    sendEmailWithRetry env mailOptions maxRetries st =
      (Throw (ThrownError (errs (pred (Z.to_nat maxRetries)))), st') /\
    transporter st' = transporter st /\
    trace st' = trace st ++ added /\
    invocations added = Z.to_nat maxRetries /\
    sleeps added = backoff_delays 1 (pred (Z.to_nat maxRetries)) /\
    sent_messages added = List.repeat mailOptions (Z.to_nat maxRetries).
Proof.
  intros Hn Ht Hrej.
  destruct (retry_loop_rejections (Z.to_nat maxRetries) 1 ThrownUndefined st t errs
              Ht ltac:(lia) Hrej)
    as (st' & added & Heq & Htr & Htrace & Hinv & Hsl & Hsent).
  exists st', added. unfold sendEmailWithRetry.
  split; [|split; [|split; [|split; [|split]]]]; try assumption.
  - rewrite Heq, retry_loop_unfold.
    assert (Hgt : (1 + Z.of_nat (Z.to_nat maxRetries) <=? maxRetries) = false)
      by (apply Z.leb_gt; lia).
    rewrite Hgt.
    destruct (Z.to_nat maxRetries) eqn:E; [lia|]. reflexivity.
  - rewrite Hsl.
    assert (Hge : (1 + Z.of_nat (Z.to_nat maxRetries) - 1 <? maxRetries) = false)
      by (apply Z.ltb_ge; lia).
    rewrite Hge. reflexivity.
Qed.

(** Attempts [1 .. k-1] are rejected and attempt [k] is accepted. *)
Lemma sendEmailWithRetry_resolved_at (k : nat) st t (errs : nat -> JsError) info :
  Z.of_nat k < maxRetries ->
  transporter st = Some t ->
  (forall j, (j < k)%nat ->
     relay env (invocations (trace st) + j) mailOptions = Rejected (errs j)) ->
  relay env (invocations (trace st) + k) mailOptions = Resolved info ->
  exists st' added,
    sendEmailWithRetry env mailOptions maxRetries st = (Ok info, st') /\
    transporter st' = transporter st /\
    trace st' = trace st ++ added ++
                [EvLog (LogAttempt (1 + Z.of_nat k) maxRetries); EvSendMail mailOptions] /\
    invocations added = k /\
    sleeps added = backoff_delays 1 k /\
    sent_messages added = List.repeat mailOptions k.
Proof.
  intros Hk Ht Hrej Hres.
  destruct (retry_loop_rejections k 1 ThrownUndefined st t errs Ht ltac:(lia) Hrej)
    as (st1 & added & Heq & Htr & Htrace & Hinv & Hsl & Hsent).
  assert (Hlt : (1 + Z.of_nat k - 1 <? maxRetries) = true) by (apply Z.ltb_lt; lia).
  rewrite Hlt in Hsl.
  assert (Hle : (1 + Z.of_nat k <=? maxRetries) = true) by (apply Z.leb_le; lia).
  assert (Hres1 : relay env (invocations (trace st1)) mailOptions = Resolved info).
  { rewrite Htrace, invocations_app, Hinv. exact Hres. }
  assert (Ht1 : transporter st1 = Some t) by congruence.
  eexists; exists added. unfold sendEmailWithRetry.
  split; [|split; [|split; [|split; [|split]]]].
  - rewrite Heq, retry_loop_unfold, Hle. unfold bind at 1.
    rewrite (attempt_body_resolved _ st1 t info Ht1 Hres1). reflexivity.
  - simpl. exact Htr.
  - simpl. rewrite Htrace, <- app_assoc. reflexivity.
  - exact Hinv.
  - exact Hsl.
  - exact Hsent.
Qed.

End Loop.

Lemma backoff_delays_length count : forall attempt,
  List.length (backoff_delays attempt count) = count.
Proof.
  induction count as [|c IH]; intros attempt; simpl; [reflexivity|].
  rewrite IH. reflexivity.
Qed.


(** ** What every run of the loop preserves *)

Section Extends.

Variable env : Env.
Variable mailOptions : MailOptions.
Variable maxRetries : Z.

Lemma extends_refl st : extends mailOptions st st.
Proof.
  split; [reflexivity|]. exists []. rewrite app_nil_r. split; constructor.
Qed.

Lemma extends_trans st1 st2 st3 :
  extends mailOptions st1 st2 -> extends mailOptions st2 st3 ->
  extends mailOptions st1 st3.
Proof.
  intros [Ht1 (a1 & Ha1 & Hf1)] [Ht2 (a2 & Ha2 & Hf2)].
  split; [congruence|]. exists (a1 ++ a2). split.
  - rewrite Ha2, Ha1, app_assoc. reflexivity.
  - rewrite sent_messages_app. apply Forall_app. split; assumption.
Qed.

Lemma attempt_body_extends attempt st :
  extends mailOptions st (snd (attempt_body env mailOptions maxRetries attempt st)) /\
  exists r, fst (attempt_body env mailOptions maxRetries attempt st) = Ok r.
Proof.
  unfold attempt_body, try_catch, bind, log, sleep, emit, sendMail, ret, extends.
  simpl.
  destruct (transporter st) as [t|] eqn:Ht; simpl.
  - destruct (relay env _ mailOptions) as [info|error]; simpl.
    + split; [split; [reflexivity|] | eexists; reflexivity].
      eexists. rewrite <- app_assoc. split; [reflexivity|].
      simpl. repeat constructor.
    + destruct (attempt <? maxRetries); simpl;
        (split; [split; [reflexivity|] | eexists; reflexivity]);
        eexists; repeat rewrite <- app_assoc; (split; [reflexivity|]);
        simpl; repeat constructor.
  - destruct (attempt <? maxRetries); simpl;
      (split; [split; [reflexivity|] | eexists; reflexivity]);
      eexists; repeat rewrite <- app_assoc; (split; [reflexivity|]);
      simpl; repeat constructor.
Qed.

Lemma retry_loop_extends (fuel : nat) :
  forall attempt lastError st,
    (Z.to_nat (maxRetries + 1 - attempt) <= fuel)%nat ->
    extends mailOptions st
      (snd (retry_loop env mailOptions maxRetries attempt lastError st)).
Proof.
  induction fuel as [|fuel IH]; intros attempt lastError st Hfuel;
    rewrite retry_loop_unfold;
    destruct (attempt <=? maxRetries) eqn:Hle;
    try (apply extends_refl).
  - apply Z.leb_le in Hle. lia.
  - apply Z.leb_le in Hle. unfold bind.
    destruct (attempt_body_extends attempt st) as [Hext [r Hr]].
    destruct (attempt_body env mailOptions maxRetries attempt st) as [r0 st1].
    simpl in Hext, Hr. subst r0.
    destruct r as [info|error]; [exact Hext|].
    eapply extends_trans; [exact Hext|]. apply IH. lia.
Qed.

Lemma sendEmailWithRetry_extends st :
  extends mailOptions st (snd (sendEmailWithRetry env mailOptions maxRetries st)).
Proof.
  unfold sendEmailWithRetry. eapply retry_loop_extends. apply Nat.le_refl.
Qed.

(** With an initialised transporter and [maxRetries >= 1] the transport is
    invoked at least once. *)
Lemma sendEmailWithRetry_invokes st t :
  transporter st = Some t ->
  1 <= maxRetries ->
  exists added,
    trace (snd (sendEmailWithRetry env mailOptions maxRetries st)) = trace st ++ added /\
    (1 <= invocations added)%nat /\
    Forall (fun m => m = mailOptions) (sent_messages added).
Proof.
  intros Ht Hn. unfold sendEmailWithRetry. rewrite retry_loop_unfold.
  assert (Hle : (1 <=? maxRetries) = true) by (apply Z.leb_le; lia).
  rewrite Hle. unfold bind.
  destruct (relay env (invocations (trace st)) mailOptions) as [info|error] eqn:Hr.
  - rewrite (attempt_body_resolved env mailOptions maxRetries 1 st t info Ht Hr).
    simpl. eexists. split; [reflexivity|]. split.
    + cbn. apply Nat.le_refl.
    + simpl. repeat constructor.
  - rewrite (attempt_body_rejected env mailOptions maxRetries 1 st t error Ht Hr).
    match goal with
    | |- context [retry_loop env mailOptions maxRetries ?a ?e ?s] =>
        destruct (retry_loop_extends (Z.to_nat (maxRetries + 1 - a)) a e s
                    (Nat.le_refl _)) as [_ (added & Hadd & Hall)]
    end.
    rewrite Hadd. simpl. rewrite <- app_assoc.
    eexists. split; [reflexivity|]. split.
    + rewrite invocations_app, invocations_rejected_events. lia.
    + rewrite sent_messages_app, sent_messages_rejected_events.
      constructor; [reflexivity | exact Hall].
Qed.

End Extends.

(** ** Two relays that differ in the errors they raise *)

Section TwoRelays.

Variables env1 env2 : Env.
Variable mailOptions : MailOptions.
Variable maxRetries : Z.

Hypothesis relays_same_shape :
  forall k m, same_shape (relay env1 k m) (relay env2 k m).

Lemma attempt_body_same_control attempt st1 st2 :
  same_control st1 st2 ->
  same_control (snd (attempt_body env1 mailOptions maxRetries attempt st1))
               (snd (attempt_body env2 mailOptions maxRetries attempt st2)) /\
  match fst (attempt_body env1 mailOptions maxRetries attempt st1),
        fst (attempt_body env2 mailOptions maxRetries attempt st2) with
  | Ok (inl i1), Ok (inl i2) => i1 = i2
  | Ok (inr _), Ok (inr _) => True
  | _, _ => False
  end.
Proof.
  intros (Ht & Hi & Hs).
  unfold attempt_body, try_catch, bind, log, sleep, emit, sendMail, ret,
    same_control.
  simpl. rewrite !invocations_snoc_log, <- Ht, <- Hi.
  pose proof (relays_same_shape (invocations (trace st1)) mailOptions) as Hshape.
  destruct (transporter st1) as [t|]; simpl.
  - destruct (relay env1 _ mailOptions) as [i1|e1],
             (relay env2 _ mailOptions) as [i2|e2];
      simpl in Hshape; try contradiction; simpl.
    + rewrite !invocations_app, !sleeps_app, Hi, Hs. simpl. auto.
    + destruct (attempt <? maxRetries); simpl;
        rewrite !invocations_app, !sleeps_app, Hi, Hs; simpl; auto.
  - destruct (attempt <? maxRetries); simpl;
      rewrite !invocations_app, !sleeps_app, Hi, Hs; simpl; auto.
Qed.

Lemma retry_loop_same_control (fuel : nat) :
  forall attempt e1 e2 st1 st2,
    (Z.to_nat (maxRetries + 1 - attempt) <= fuel)%nat ->
    same_control st1 st2 ->
    same_control (snd (retry_loop env1 mailOptions maxRetries attempt e1 st1))
                 (snd (retry_loop env2 mailOptions maxRetries attempt e2 st2)) /\
    same_result (fst (retry_loop env1 mailOptions maxRetries attempt e1 st1))
                (fst (retry_loop env2 mailOptions maxRetries attempt e2 st2)).
Proof.
  induction fuel as [|fuel IH]; intros attempt e1 e2 st1 st2 Hfuel Hsame;
    rewrite !retry_loop_unfold;
    destruct (attempt <=? maxRetries) eqn:Hle;
    try (split; [exact Hsame | exact I]).
  - apply Z.leb_le in Hle. lia.
  - apply Z.leb_le in Hle. unfold bind.
    destruct (attempt_body_same_control attempt st1 st2 Hsame) as [Hctl Hres].
    destruct (attempt_body env1 mailOptions maxRetries attempt st1) as [r1 s1].
    destruct (attempt_body env2 mailOptions maxRetries attempt st2) as [r2 s2].
    simpl in Hctl, Hres.
    destruct r1 as [[i1|x1]|t1], r2 as [[i2|x2]|t2]; try contradiction.
    + split; [exact Hctl | exact Hres].
    + apply IH; [lia | exact Hctl].
Qed.

End TwoRelays.

(** One attempt allowed: one invocation, no sleep, and the outcome of that
    invocation is the outcome of the call. *)
Lemma sendEmailWithRetry_once
  (env : Env) (mailOptions : MailOptions) (st : state) (t : Transport) :
  transporter st = Some t ->
  exists added,
    trace (snd (sendEmailWithRetry env mailOptions 1 st)) = trace st ++ added /\
    invocations added = 1%nat /\
    sleeps added = [] /\
    match relay env (invocations (trace st)) mailOptions with
    | Resolved info => fst (sendEmailWithRetry env mailOptions 1 st) = Ok info
    | Rejected error =>
        fst (sendEmailWithRetry env mailOptions 1 st) = Throw (ThrownError error)
    end.
Proof.
  intros Ht.
  destruct (relay env (invocations (trace st)) mailOptions) as [info|error] eqn:Hr.
  - destruct (sendEmailWithRetry_resolved_at env mailOptions 1 O st t
                (fun _ => {| message := []; code := VUndefined |}) info)
      as (st1 & added & Hrun & _ & Htrace & Hinv & Hsl & _);
      [lia | exact Ht | intros j Hj; lia | rewrite Nat.add_0_r; exact Hr |].
    rewrite Hrun. cbn [fst snd]. eexists. split; [exact Htrace|].
    rewrite invocations_app, sleeps_app, Hinv, Hsl. repeat split.
  - destruct (sendEmailWithRetry_all_rejected env mailOptions 1 st t (fun _ => error))
      as (st1 & added & Hrun & _ & Htrace & Hinv & Hsl & _);
      [lia | exact Ht | |].
    { intros j Hj. simpl in Hj. assert (j = O) by lia. subst j.
      rewrite Nat.add_0_r. exact Hr. }
    rewrite Hrun. cbn [fst snd]. exists added. repeat split; assumption.
Qed.

(** [GET /test], with the mail account configured and the transporter
    initialised, makes its single attempt: one invocation and no sleep. *)
Lemma test_endpoint_single_attempt (env : Env) (st : state) (t : Transport) :
  truthy (EMAIL_USER env) = true ->
  truthy (EMAIL_APP_PASSWORD env) = true ->
  transporter st = Some t ->
  invocations (new_events st (snd (test_endpoint env st))) = 1%nat /\
  sleeps (new_events st (snd (test_endpoint env st))) = [].
Proof.
  intros Hu Hp Ht.
  assert (Hte : truthy (or_else (TEST_EMAIL env) (EMAIL_USER env)) = true).
  { unfold or_else. destruct (truthy (TEST_EMAIL env)) eqn:E; assumption. }
  unfold test_endpoint, try_catch, bind. rewrite Hu, Hp. cbn [negb orb].
  rewrite Hte. cbn [negb].
  match goal with
  | |- context [sendEmailWithRetry env ?m 1 st] =>
      destruct (sendEmailWithRetry_once env m st t Ht)
        as (added & Htrace & Hinv & Hsl & _);
      destruct (sendEmailWithRetry env m 1 st) as [[info|error] st1]
  end; cbn [snd] in Htrace.
  - unfold now_iso, ret. cbn [snd].
    rewrite (new_events_app st st1 added Htrace). split; assumption.
  - unfold log, emit, bind, now_iso, ret.
    destruct (message_of error _) as [[msg|x] st2] eqn:Hm;
      destruct error as [|e]; cbn in Hm; inversion Hm; subst; cbn [snd trace];
      erewrite new_events_app by (cbn [trace]; rewrite Htrace, <- app_assoc; reflexivity);
      rewrite invocations_app, sleeps_app, Hinv, Hsl; split; reflexivity.
Qed.

(** ** Claims about [sendEmailWithRetry] *)





(** C2. For every [maxRetries = n >= 1], when attempts [1 .. k-1] fail
    and attempt [k <= n] succeeds, [sendEmailWithRetry] returns the very
    [info] the transport resolved with (message identifier and response
    untouched) after exactly [k] invocations; the successful invocation is
    the last event, so no further attempt or sleep follows it. *)
Theorem success_on_attempt_k
  (env : Env) (mailOptions : MailOptions) (n k : Z) (st : state) (t : Transport)
  (info : Info) :
  1 <= k <= n ->
  transporter st = Some t ->
  (forall j, (j < Z.to_nat (k - 1))%nat ->
     exists error,
       relay env (invocations (trace st) + j) mailOptions = Rejected error) ->
  relay env (invocations (trace st) + Z.to_nat (k - 1)) mailOptions = Resolved info ->
  let run := sendEmailWithRetry env mailOptions n st in
  fst run = Ok info /\
  invocations (new_events st (snd run)) = Z.to_nat k /\
  sleeps (new_events st (snd run)) = backoff_delays 1 (Z.to_nat (k - 1)) /\
  exists before, new_events st (snd run) = before ++ [EvSendMail mailOptions].
Proof.
  intros Hk Ht Hfail Hok.
  set (errs := fun j : nat =>
         match relay env (invocations (trace st) + j) mailOptions with
         | Rejected e => e
         | Resolved _ => {| message := []; code := VUndefined |}
         end).
  destruct (sendEmailWithRetry_resolved_at env mailOptions n (Z.to_nat (k - 1))
              st t errs info)
    as (st1 & added & Hrun & _ & Htrace & Hinv & Hsl & _);
    [lia | exact Ht | | exact Hok |].
  { intros j Hj. unfold errs. destruct (Hfail j Hj) as [e He].
    rewrite He. reflexivity. }
  simpl. rewrite Hrun. simpl.
  rewrite (new_events_app st st1 _ Htrace).
  split; [reflexivity|]. split; [|split].
  - rewrite invocations_app, Hinv.
    change (invocations [EvLog _; EvSendMail mailOptions]) with 1%nat. lia.
  - rewrite sleeps_app, Hsl. simpl. apply app_nil_r.
  - exists (added ++ [EvLog (LogAttempt (1 + Z.of_nat (Z.to_nat (k - 1))) n)]).
    rewrite <- app_assoc. reflexivity.
Qed.

(** Scenario A: two rejections, then success on attempt 3 of 3. *)
Lemma success_on_attempt_k_witness :
  let env := env_with (scripted [Rejected err_timeout; Rejected err_refused;
                                 Resolved info_ok] err_auth) in
  let run := sendEmailWithRetry env sample_message 3 st_ready in
  fst run = Ok info_ok /\
  invocations (new_events st_ready (snd run)) = 3%nat /\
  sleeps (new_events st_ready (snd run)) = [2000; 4000] /\
  exists before, new_events st_ready (snd run) = before ++ [EvSendMail sample_message].
Proof.
  intros env.
  refine (success_on_attempt_k env sample_message 3 3 st_ready _ info_ok
            _ eq_refl _ eq_refl).
  - lia.
  - intros j Hj. simpl in Hj.
    destruct j as [|[|j]]; [eexists; reflexivity | eexists; reflexivity | lia].
Defined.






(** C9. With [maxRetries = 0] the loop body never runs:
    [sendEmailWithRetry] invokes the transport zero times, leaves the state
    as it was, and throws [undefined], the initial value of [lastError]. *)
Theorem zero_retries_throws_undefined
  (env : Env) (mailOptions : MailOptions) (st : state) :
  sendEmailWithRetry env mailOptions 0 st = (Throw ThrownUndefined, st) /\
  invocations (new_events st (snd (sendEmailWithRetry env mailOptions 0 st))) = 0%nat.
Proof.
  assert (E : sendEmailWithRetry env mailOptions 0 st = (Throw ThrownUndefined, st)).
  { unfold sendEmailWithRetry. rewrite retry_loop_unfold. reflexivity. }
  split; [exact E|]. rewrite E. simpl.
  rewrite (new_events_app st st [] (eq_sym (app_nil_r _))). reflexivity.
Qed.

(** C4. Whether to retry does not depend on the kind of error.  Two runs
    against relays that fail on the same invocations and differ only in
    the errors they raise make the same number of attempts, sleep the same
    backoff delays, and both succeed with the same [info] or both fail. *)
Theorem retry_ignores_error_kind
  (env1 env2 : Env) (mailOptions : MailOptions) (n : Z) (st : state) :
  (forall k m, same_shape (relay env1 k m) (relay env2 k m)) ->
  let run1 := sendEmailWithRetry env1 mailOptions n st in
  let run2 := sendEmailWithRetry env2 mailOptions n st in
  invocations (new_events st (snd run1)) = invocations (new_events st (snd run2)) /\
  sleeps (new_events st (snd run1)) = sleeps (new_events st (snd run2)) /\
  same_result (fst run1) (fst run2).
Proof.
  intros Hshape run1 run2.
  assert (Hsame : same_control st st) by (repeat split).
  destruct (retry_loop_same_control env1 env2 mailOptions n Hshape
              (Z.to_nat (n + 1 - 1)) 1 ThrownUndefined ThrownUndefined st st
              (Nat.le_refl _) Hsame) as [(_ & Hinv & Hsl) Hres].
  fold (sendEmailWithRetry env1 mailOptions n) in Hinv, Hsl, Hres.
  fold (sendEmailWithRetry env2 mailOptions n) in Hinv, Hsl, Hres.
  fold run1 in Hinv, Hsl, Hres. fold run2 in Hinv, Hsl, Hres.
  destruct (sendEmailWithRetry_extends env1 mailOptions n st) as [_ (a1 & Ha1 & _)].
  destruct (sendEmailWithRetry_extends env2 mailOptions n st) as [_ (a2 & Ha2 & _)].
  fold run1 in Ha1. fold run2 in Ha2.
  rewrite (new_events_app st (snd run1) a1 Ha1).
  rewrite (new_events_app st (snd run2) a2 Ha2).
  rewrite Ha1, Ha2 in Hinv, Hsl.
  rewrite !invocations_app in Hinv. rewrite !sleeps_app in Hsl.
  split; [lia|]. split; [|exact Hres].
  eapply app_inv_head. exact Hsl.
Qed.

(** A permanent authentication failure is retried exactly as a timeout. *)
Lemma retry_ignores_error_kind_witness :
  let run1 := sendEmailWithRetry (env_rejecting err_auth) sample_message 2 st_ready in
  let run2 := sendEmailWithRetry (env_rejecting err_timeout) sample_message 2 st_ready in
  invocations (new_events st_ready (snd run1)) =
    invocations (new_events st_ready (snd run2)) /\
  sleeps (new_events st_ready (snd run1)) = sleeps (new_events st_ready (snd run2)) /\
  same_result (fst run1) (fst run2).
Proof.
  refine (retry_ignores_error_kind (env_rejecting err_auth) (env_rejecting err_timeout)
            sample_message 2 st_ready _).
  intros k m. unfold env_rejecting, env_with, scripted. simpl.
  destruct k; exact I.
Defined.

(** ** The [catch] block of [POST /send-confirmation] *)

Lemma creations_app tr1 tr2 :
  creations (tr1 ++ tr2) = (creations tr1 + creations tr2)%nat.
Proof. unfold creations. rewrite filter_app, length_app. reflexivity. Qed.

Section Catch.

Variable env : Env.

(** The [catch] block answers every [Error] with its classification and
    only writes to the console. *)
Lemma send_confirmation_catch_error (e : JsError) st :
  send_confirmation_catch env (ThrownError e) st =
  (Ok {| statusCode := fst (classifyError e);
         body := VObj
           [ (js "success", VBool false);
             (js "error", VStr (snd (classifyError e)));
             (js "code", code e);
             (js "timestamp",
               VStr (toISOString env
                       (Date_now env (S (List.length (trace st)))))) ] |},
   {| transporter := transporter st;
      trace := trace st ++ [EvLog (LogErrorSending (ThrownError e))] |}).
Proof.
  unfold send_confirmation_catch, bind, log, emit, now_iso, ret. simpl.
  destruct (classifyError e) as [status msg]. simpl.
  rewrite length_app, Nat.add_comm. reflexivity.
Qed.

Lemma send_confirmation_catch_trace error st :
  snd (send_confirmation_catch env error st) =
  {| transporter := transporter st;
     trace := trace st ++ [EvLog (LogErrorSending error)] |}.
Proof.
  destruct error as [|e].
  - reflexivity.
  - rewrite send_confirmation_catch_error. reflexivity.
Qed.

(** Every run of [sendEmailWithRetry] composed of nothing but attempts of
    [mailOptions]: no transport is created. *)
Lemma retry_loop_creates_nothing mailOptions maxRetries (fuel : nat) :
  forall attempt lastError st,
    (Z.to_nat (maxRetries + 1 - attempt) <= fuel)%nat ->
    exists added,
      trace (snd (retry_loop env mailOptions maxRetries attempt lastError st))
      = trace st ++ added /\
      creations added = 0%nat.
Proof.
  induction fuel as [|fuel IH]; intros attempt lastError st Hfuel;
    rewrite retry_loop_unfold;
    destruct (attempt <=? maxRetries) eqn:Hle;
    try (exists []; rewrite app_nil_r; split; reflexivity).
  - apply Z.leb_le in Hle. lia.
  - apply Z.leb_le in Hle. unfold bind.
    assert (Hbody : exists added1 r,
               attempt_body env mailOptions maxRetries attempt st =
               (Ok r, {| transporter := transporter st;
                         trace := trace st ++ added1 |}) /\
               creations added1 = 0%nat).
    { unfold attempt_body, try_catch, bind, log, sleep, emit, sendMail, ret.
      simpl.
      destruct (transporter st) as [t|]; simpl;
        [destruct (relay env _ mailOptions) as [info|error]; simpl|];
        try destruct (attempt <? maxRetries); simpl;
        repeat rewrite <- app_assoc;
        do 2 eexists; (split; [reflexivity|]); reflexivity. }
    destruct Hbody as (added1 & r & Hbody & Hc1). rewrite Hbody.
    destruct r as [info|error].
    + exists added1. split; [reflexivity | exact Hc1].
    + match goal with
      | |- context [retry_loop env mailOptions maxRetries ?a ?e ?s] =>
          destruct (IH a e s ltac:(lia)) as (added2 & Htrace & Hc2)
      end.
      exists (added1 ++ added2). rewrite Htrace. cbn [trace].
      rewrite <- app_assoc, creations_app, Hc1, Hc2. split; reflexivity.
Qed.

End Catch.

Lemma classifyError_status e :
  fst (classifyError e) = 504 /\ timeout_class e = true \/
  fst (classifyError e) = 500 /\ timeout_class e = false.
Proof.
  unfold classifyError, timeout_class.
  destruct (includes (message e) (js "timeout")
            || strict_eq_string (code e) (js "ETIMEDOUT")); [left; auto|].
  right.
  destruct (strict_eq_string (code e) (js "EAUTH")); [auto|].
  destruct (strict_eq_string (code e) (js "ECONNECTION")); [auto|].
  destruct (strict_eq_string (code e) (js "ENOTFOUND")); auto.
Qed.

Lemma isConfirmation_spec status :
  isConfirmation status = true <-> status = VStr (js "confirmed").
Proof. apply strict_eq_string_spec. Qed.

(** C8. A message that contains [timeout] wins over the code: every such
    error is reported as 504 with the timeout message, whatever its code,
    [EAUTH], [ECONNECTION] and [ENOTFOUND] included. *)
Theorem timeout_message_takes_precedence (env : Env) (e : JsError) (st : state) :
  includes (message e) (js "timeout") = true ->
  classifyError e = (504, js "Connection to Gmail timed out. Please try again.") /\
  exists r,
    fst (send_confirmation_catch env (ThrownError e) st) = Ok r /\
    statusCode r = 504 /\
    prop (body r) (js "error") =
      VStr (js "Connection to Gmail timed out. Please try again.") /\
    prop (body r) (js "code") = code e.
Proof.
  intros Hmsg.
  assert (Hc : classifyError e =
               (504, js "Connection to Gmail timed out. Please try again.")).
  { unfold classifyError. rewrite Hmsg. reflexivity. }
  split; [exact Hc|].
  rewrite send_confirmation_catch_error, Hc. cbn [fst snd].
  eexists. split; [reflexivity|]. repeat split.
Qed.

Lemma timeout_message_takes_precedence_witness :
  code err_auth_timeout = VStr (js "EAUTH") /\
  classifyError err_auth_timeout =
  (504, js "Connection to Gmail timed out. Please try again.").
Proof.
  split; [reflexivity|].
  exact (proj1 (timeout_message_takes_precedence (env_rejecting err_auth)
                  err_auth_timeout st_ready eq_refl)).
Defined.

(** ** The matcher and the language of a regular expression *)

Lemma nullable_matches r : nullable r = true <-> matches r [].
Proof.
  split.
  - induction r; simpl; intros H; try discriminate.
    + constructor.
    + apply andb_prop in H. destruct H as [H1 H2].
      change (@nil N) with (@nil N ++ @nil N). constructor; auto.
    + apply orb_prop in H. destruct H as [H|H].
      * apply MAltL; auto.
      * apply MAltR; auto.
    + constructor.
  - induction r; intros H; simpl; try reflexivity.
    + inversion H.
    + inversion H.
    + inversion H as [| |r1' r2' s1 s2 H1 H2 [E1 E2] E3| | | |]. subst.
      apply app_eq_nil in E3. destruct E3; subst.
      rewrite IHr1, IHr2 by assumption. reflexivity.
    + inversion H; subst.
      * rewrite IHr1 by assumption. reflexivity.
      * rewrite IHr2 by assumption. apply orb_true_r.
Qed.

(** A non-empty member of [Star r] starts with a non-empty member of [r]. *)
Lemma star_cons_split r c s :
  matches (Star r) (c :: s) ->
  exists s1 s2, s = s1 ++ s2 /\ matches r (c :: s1) /\ matches (Star r) s2.
Proof.
  intros H. remember (Star r) as r' eqn:Er. remember (c :: s) as cs eqn:Es.
  revert s Es.
  induction H as [| | | | | |r0 s1 s2 H1 _ H2 IH2]; intros t Et;
    try discriminate.
  inversion Er; subst r0.
  destruct s1 as [|c1 s1].
  - simpl in Et. apply IH2; auto.
  - simpl in Et. inversion Et; subst.
    exists s1, s2. auto.
Qed.

Lemma deriv_matches c r : forall s, matches (deriv c r) s <-> matches r (c :: s).
Proof.
  induction r; intros s; simpl.
  - split; intros H; inversion H.
  - split; intros H; inversion H.
  - destruct (p c) eqn:Hp; split; intros H.
    + inversion H; subst. constructor. exact Hp.
    + inversion H; subst. constructor.
    + inversion H.
    + inversion H; subst. congruence.
  - destruct (nullable r1) eqn:Hn.
    + split; intros H.
      * inversion H as [| | |r1' r2' s' H'|r1' r2' s' H'| |]; subst.
        -- inversion H' as [| |r1'' r2'' s1 s2 H1 H2| | | |]; subst.
           apply IHr1 in H1.
           change (c :: s1 ++ s2) with ((c :: s1) ++ s2). constructor; auto.
        -- apply IHr2 in H'.
           change (c :: s) with ([] ++ c :: s). constructor; auto.
           apply nullable_matches. exact Hn.
      * inversion H as [| |r1' r2' s1 s2 H1 H2 [E1 E2] E3| | | |]; subst.
        destruct s1 as [|c1 s1]; simpl in E3.
        -- subst s2. apply MAltR. apply IHr2. exact H2.
        -- inversion E3; subst. apply MAltL. constructor; auto.
           apply IHr1. exact H1.
    + split; intros H.
      * inversion H as [| |r1' r2' s1 s2 H1 H2| | | |]; subst.
        apply IHr1 in H1.
        change (c :: s1 ++ s2) with ((c :: s1) ++ s2). constructor; auto.
      * inversion H as [| |r1' r2' s1 s2 H1 H2 [E1 E2] E3| | | |]; subst.
        destruct s1 as [|c1 s1]; simpl in E3.
        -- apply nullable_matches in H1. congruence.
        -- inversion E3; subst. constructor; auto. apply IHr1. exact H1.
  - split; intros H.
    + inversion H; subst.
      * apply MAltL. apply IHr1. assumption.
      * apply MAltR. apply IHr2. assumption.
    + inversion H; subst.
      * apply MAltL. apply IHr1. assumption.
      * apply MAltR. apply IHr2. assumption.
  - split; intros H.
    + inversion H as [| |r1' r2' s1 s2 H1 H2| | | |]; subst.
      apply IHr in H1.
      change (c :: s1 ++ s2) with ((c :: s1) ++ s2). constructor; auto.
    + apply star_cons_split in H. destruct H as (s1 & s2 & E & H1 & H2).
      subst s. constructor; auto. apply IHr. exact H1.
Qed.

(** The derivative matcher decides membership in the language. *)
Lemma full_match_matches s : forall r, full_match r s = true <-> matches r s.
Proof.
  induction s as [|c s IH]; intros r; simpl.
  - apply nullable_matches.
  - rewrite IH. apply deriv_matches.
Qed.

Lemma matches_class_inv p s :
  matches (Class p) s -> exists c, s = [c] /\ p c = true.
Proof. intros H. inversion H; subst. eauto. Qed.

Lemma matches_cat_inv r1 r2 s :
  matches (Cat r1 r2) s ->
  exists s1 s2, s = s1 ++ s2 /\ matches r1 s1 /\ matches r2 s2.
Proof. intros H. inversion H; subst. eauto. Qed.

Lemma star_class p s : matches (Star (Class p)) s <-> forallb p s = true.
Proof.
  split.
  - intros H. remember (Star (Class p)) as r eqn:Er.
    induction H as [| | | | | |r0 s1 s2 H1 _ H2 IH2]; try discriminate.
    + reflexivity.
    + inversion Er; subst r0. apply matches_class_inv in H1.
      destruct H1 as (c & -> & Hc). simpl. rewrite Hc. auto.
  - induction s as [|c s IH]; simpl; intros H.
    + constructor.
    + apply andb_prop in H. destruct H as [Hc Hs].
      change (c :: s) with ([c] ++ s). constructor; auto. constructor. exact Hc.
Qed.

Lemma plus_class p s :
  matches (Plus (Class p)) s <-> s <> [] /\ forallb p s = true.
Proof.
  unfold Plus. split.
  - intros H. apply matches_cat_inv in H. destruct H as (s1 & s2 & -> & H1 & H2).
    apply matches_class_inv in H1. destruct H1 as (c & -> & Hc).
    apply star_class in H2. simpl. rewrite Hc, H2. split; [discriminate | reflexivity].
  - intros [Hne H]. destruct s as [|c s]; [contradiction|].
    simpl in H. apply andb_prop in H. destruct H as [Hc Hs].
    change (c :: s) with ([c] ++ s). constructor.
    + constructor. exact Hc.
    + apply star_class. exact Hs.
Qed.

Lemma emailRegex_language s : matches emailRegex s <-> address_shape s.
Proof.
  unfold emailRegex, address_shape, address_part. split.
  - intros H.
    apply matches_cat_inv in H. destruct H as (a & s1 & -> & Ha & H).
    apply matches_cat_inv in H. destruct H as (x & s2 & -> & Hx & H).
    apply matches_cat_inv in H. destruct H as (b & s3 & -> & Hb & H).
    apply matches_cat_inv in H. destruct H as (y & c & -> & Hy & Hc).
    apply matches_class_inv in Hx. destruct Hx as (cx & -> & Hx).
    apply matches_class_inv in Hy. destruct Hy as (cy & -> & Hy).
    apply N.eqb_eq in Hx. apply N.eqb_eq in Hy. subst cx cy.
    apply plus_class in Ha. apply plus_class in Hb. apply plus_class in Hc.
    exists a, b, c. auto.
  - intros (a & b & c & -> & Ha & Hb & Hc).
    constructor; [apply plus_class; exact Ha|].
    constructor; [constructor; apply N.eqb_refl|].
    constructor; [apply plus_class; exact Hb|].
    constructor; [constructor; apply N.eqb_refl|].
    apply plus_class; exact Hc.
Qed.

(** ** The syntactic check of an address *)

Lemma emailRegex_test_matches (v : value) :
  emailRegex_test v = Some true <->
  exists s, ToString v = Some s /\ address_shape s.
Proof.
  unfold emailRegex_test. destruct (ToString v) as [s|]; cbn [option_map].
  - split.
    + intros H. inversion H as [H']. exists s. split; [reflexivity|].
      apply emailRegex_language, full_match_matches. exact H'.
    + intros (s' & Hs & Hshape). inversion Hs; subst s'.
      apply emailRegex_language, full_match_matches in Hshape.
      rewrite Hshape. reflexivity.
  - split; [discriminate | intros (s' & Hs & _); discriminate Hs].
Qed.

(** X1. [emailRegex.test(v)] answers [true] exactly for the values whose
    conversion to a string succeeds and reads [a@b.c], where [a], [b] and
    [c] are non-empty and contain neither white space nor [@]. *)
Theorem emailRegex_test_shape (v : value) :
  emailRegex_test v = Some true <->
  exists a b c,
    ToString v = Some (a ++ [at_sign] ++ b ++ [dot] ++ c) /\
    address_part a /\ address_part b /\ address_part c.
Proof.
  rewrite emailRegex_test_matches. unfold address_shape. split.
  - intros (s & Hs & a & b & c & -> & H). exists a, b, c. auto.
  - intros (a & b & c & Hs & H). eexists. split; [exact Hs|].
    exists a, b, c. auto.
Qed.

Lemma address_part_clean s :
  forallb not_space_at s = true ->
  count_occ N.eq_dec s at_sign = 0%nat /\
  forallb (fun c => negb (is_space c)) s = true.
Proof.
  induction s as [|c s IH]; simpl; intros H; [auto|].
  apply andb_prop in H. destruct H as [Hc Hs].
  destruct (IH Hs) as [IH1 IH2].
  unfold not_space_at in Hc. apply andb_prop in Hc. destruct Hc as [Hsp Hat].
  rewrite Hsp, IH2. split; [|reflexivity].
  destruct (N.eq_dec c at_sign) as [E|E].
  - subst c. discriminate Hat.
  - exact IH1.
Qed.

(** X2. A value that passes the check converts to a string with exactly one
    [@] and no white space of any kind. *)
Theorem accepted_address_one_at_no_space (v : value) :
  emailRegex_test v = Some true ->
  exists s,
    ToString v = Some s /\
    count_occ N.eq_dec s at_sign = 1%nat /\
    forallb (fun c => negb (is_space c)) s = true.
Proof.
  intros H. apply emailRegex_test_matches in H.
  destruct H as (s & Hs & a & b & c & -> & [_ Ha] & [_ Hb] & [_ Hc]).
  destruct (address_part_clean a Ha) as [Ca Sa].
  destruct (address_part_clean b Hb) as [Cb Sb].
  destruct (address_part_clean c Hc) as [Cc Sc].
  eexists. split; [exact Hs|]. split.
  - rewrite !count_occ_app, Ca, Cb, Cc. reflexivity.
  - rewrite !forallb_app, Sa, Sb, Sc. reflexivity.
Qed.

Lemma accepted_address_one_at_no_space_witness :
  exists s,
    ToString (VStr (js "ana@example.com")) = Some s /\
    count_occ N.eq_dec s at_sign = 1%nat /\
    forallb (fun c => negb (is_space c)) s = true.
Proof.
  exact (accepted_address_one_at_no_space (VStr (js "ana@example.com")) eq_refl).
Defined.

Lemma address_shape_has_at s : address_shape s -> In at_sign s.
Proof.
  intros (a & b & c & -> & _). apply in_or_app. right. left. reflexivity.
Qed.

Lemma digits_have_no_at d :
  ~ In at_sign (js (NilEmpty.string_of_uint d)).
Proof.
  induction d; simpl; [tauto|..]; intros [H|H]; try discriminate H; auto.
Qed.

Lemma number_to_string_has_no_at n : ~ In at_sign (number_to_string n).
Proof.
  unfold number_to_string, NilZero.string_of_int.
  destruct (Z.to_int n) as [d|d]; unfold NilZero.string_of_uint.
  - destruct d; try apply digits_have_no_at.
    simpl. intros [H|H]; [discriminate H | exact H].
  - change (~ In at_sign (N_of_ascii "-" :: js (match d with
                                                | Decimal.Nil => "0"%string
                                                | _ => NilEmpty.string_of_uint d
                                                end))).
    intros [H|H]; [discriminate H|]. revert H.
    destruct d; try apply digits_have_no_at.
    simpl. intros [H|H]; [discriminate H | exact H].
Qed.

Lemma no_at_app (a b : jsstring) :
  ~ In at_sign a -> ~ In at_sign b -> ~ In at_sign (a ++ b).
Proof. intros Ha Hb H. apply in_app_or in H. tauto. Qed.

Lemma no_at_firstn k (l : jsstring) :
  ~ In at_sign l -> ~ In at_sign (List.firstn k l).
Proof.
  intros Hl H. apply Hl. rewrite <- (firstn_skipn k l).
  apply in_or_app. left. exact H.
Qed.

Lemma no_at_skipn k (l : jsstring) :
  ~ In at_sign l -> ~ In at_sign (List.skipn k l).
Proof.
  intros Hl H. apply Hl. rewrite <- (firstn_skipn k l).
  apply in_or_app. right. exact H.
Qed.

Lemma no_at_zeros k : ~ In at_sign (List.repeat digit_zero k).
Proof. intros H. apply repeat_spec in H. discriminate H. Qed.

Lemma decimal_toString_has_no_at s n : ~ In at_sign (decimal_toString s n).
Proof.
  unfold decimal_toString.
  assert (Hd : ~ In at_sign (digits s)) by apply digits_have_no_at.
  assert (He : ~ In at_sign
                 ((if n - 1 <? 0 then js "e-" else js "e+") ++
                  number_to_string (Z.abs (n - 1)))).
  { apply no_at_app; [|apply number_to_string_has_no_at].
    destruct (n - 1 <? 0); simpl; intros [H|[H|H]]; try discriminate H; exact H. }
  destruct ((-5 <=? n) && (n <=? 21)).
  - destruct (Z.of_nat (List.length (digits s)) <=? n).
    + apply no_at_app; [exact Hd | apply no_at_zeros].
    + destruct (0 <? n).
      * apply no_at_app; [apply no_at_firstn; exact Hd|].
        apply no_at_app; [|apply no_at_skipn; exact Hd].
        simpl. intros [H|H]; [discriminate H | exact H].
      * apply no_at_app;
          [simpl; intros [H|[H|H]]; try discriminate H; exact H|].
        apply no_at_app; [apply no_at_zeros | exact Hd].
  - destruct (digits s) as [|d1 [|d2 more]]; [exact He| |].
    + apply no_at_app; [|exact He].
      intros [H|H]; [apply Hd; left; exact H | exact H].
    + apply no_at_app; [intros [H|H]; [apply Hd; left; exact H | exact H]|].
      apply no_at_app; [simpl; intros [H|H]; [discriminate H | exact H]|].
      apply no_at_app; [|exact He].
      intros H. apply Hd. right. exact H.
Qed.

Lemma Number_toString_has_no_at x : ~ In at_sign (Number_toString x).
Proof.
  destruct x as [|[|]|[|] s n]; cbn [Number_toString].
  - simpl. intros [H|H]; [discriminate H | exact H].
  - vm_compute. intros H. repeat (destruct H as [H|H]; [discriminate H|]). exact H.
  - vm_compute. intros H. repeat (destruct H as [H|H]; [discriminate H|]). exact H.
  - apply no_at_app; [|apply decimal_toString_has_no_at].
    simpl. intros [H|H]; [discriminate H | exact H].
  - apply decimal_toString_has_no_at.
Qed.

(** X3. Only a string or an array can pass the check: [undefined], [null],
    booleans, numbers and objects are rejected, whatever they hold. *)
Theorem accepted_address_is_string_or_array (v : value) :
  emailRegex_test v = Some true ->
  (exists s, v = VStr s) \/ (exists l, v = VArr l).
Proof.
  intros H. destruct v as [| |b|x|s|l|props]; eauto.
  - discriminate H.
  - discriminate H.
  - destruct b; discriminate H.
  - apply emailRegex_test_matches in H. destruct H as (s & Hs & Hshape).
    inversion Hs; subst s. apply address_shape_has_at in Hshape.
    apply Number_toString_has_no_at in Hshape. contradiction.
  - unfold emailRegex_test in H. cbn [ToString] in H.
    destruct (has_own (js "toString") props); discriminate H.
Qed.

Lemma accepted_address_is_string_or_array_witness :
  (exists s, VArr [VStr (js "ana"); VStr (js "b@example.com")] = VStr s) \/
  (exists l, VArr [VStr (js "ana"); VStr (js "b@example.com")] = VArr l).
Proof.
  exact (accepted_address_is_string_or_array
           (VArr [VStr (js "ana"); VStr (js "b@example.com")]) eq_refl).
Defined.

(** ** The shape of every run of [sendEmailWithRetry] *)

Lemma total_backoff_delays count : forall attempt,
  0 <= attempt ->
  total (backoff_delays attempt count) =
  1000 * (2 ^ (attempt + Z.of_nat count) - 2 ^ attempt).
Proof.
  induction count as [|c IH]; intros attempt Ha.
  - simpl. rewrite Z.add_0_r, Z.sub_diag. reflexivity.
  - cbn [backoff_delays total List.fold_right].
    fold (total (backoff_delays (attempt + 1) c)).
    rewrite IH by lia.
    replace (attempt + 1 + Z.of_nat c) with (attempt + Z.of_nat (S c)) by lia.
    rewrite (Z.pow_add_r 2 attempt 1) by lia.
    change (2 ^ 1) with 2. ring.
Qed.

Section Shape.

Variable env : Env.
Variable mailOptions : MailOptions.
Variable maxRetries : Z.

(** With an initialised transporter the loop stops at the first attempt
    the relay accepts, or after the last attempt. *)
Lemma retry_loop_shape (fuel : nat) :
  forall attempt lastError st t,
    transporter st = Some t ->
    Z.to_nat (maxRetries + 1 - attempt) = fuel ->
    exists k added,
      trace (snd (retry_loop env mailOptions maxRetries attempt lastError st))
        = trace st ++ added /\
      invocations added = k /\
      (k <= fuel)%nat /\
      (forall j, (j < pred k)%nat ->
         exists err,
           relay env (invocations (trace st) + j) mailOptions = Rejected err) /\
      sleeps added = backoff_delays attempt (pred k) /\
      match fst (retry_loop env mailOptions maxRetries attempt lastError st) with
      | Ok info =>
          (1 <= k)%nat /\
          relay env (invocations (trace st) + pred k) mailOptions = Resolved info
      | Throw th =>
          k = fuel /\
          match fuel with
          | O => th = lastError
          | S f =>
              exists err,
                th = ThrownError err /\
                relay env (invocations (trace st) + f) mailOptions = Rejected err
          end
      end.
Proof.
  induction fuel as [|fuel IH]; intros attempt lastError st t Ht Hfuel;
    rewrite retry_loop_unfold.
  - assert (Hgt : (attempt <=? maxRetries) = false) by (apply Z.leb_gt; lia).
    rewrite Hgt. exists O, []. cbn [fst snd throw]. rewrite app_nil_r.
    repeat split; try reflexivity. intros j Hj. inversion Hj.
  - assert (Hle : (attempt <=? maxRetries) = true) by (apply Z.leb_le; lia).
    rewrite Hle. unfold bind.
    destruct (relay env (invocations (trace st)) mailOptions) as [info|err] eqn:Hr.
    + rewrite (attempt_body_resolved env mailOptions maxRetries attempt st t info Ht Hr).
      exists 1%nat. eexists. cbn [fst snd ret trace].
      split; [reflexivity|]. split; [reflexivity|]. split; [lia|].
      split; [intros j Hj; inversion Hj|]. split; [reflexivity|].
      split; [lia|]. cbn [pred]. rewrite Nat.add_0_r. exact Hr.
    + rewrite (attempt_body_rejected env mailOptions maxRetries attempt st t err Ht Hr).
      set (st1 := {| transporter := transporter st;
                     trace := trace st ++
                       rejected_events mailOptions maxRetries attempt err |}).
      assert (Hinv1 : invocations (trace st1) = S (invocations (trace st))).
      { unfold st1. cbn [trace].
        rewrite invocations_app, invocations_rejected_events. lia. }
      destruct (IH (attempt + 1) (ThrownError err) st1 t Ht ltac:(lia))
        as (k & added & Htrace & Hinv & Hk & Hbefore & Hsl & Hres).
      exists (S k), (rejected_events mailOptions maxRetries attempt err ++ added).
      split; [rewrite Htrace; unfold st1; cbn [trace];
              rewrite <- app_assoc; reflexivity|].
      split; [rewrite invocations_app, invocations_rejected_events, Hinv;
              reflexivity|].
      split; [lia|].
      split.
      { intros j Hj. cbn [pred] in Hj. destruct j as [|j].
        - rewrite Nat.add_0_r. eauto.
        - destruct (Hbefore j ltac:(lia)) as [e' He']. exists e'.
          rewrite <- He', Hinv1. f_equal. lia. }
      rewrite sleeps_app, sleeps_rejected_events, Hsl.
      destruct (fst (retry_loop env mailOptions maxRetries (attempt + 1)
                       (ThrownError err) st1)) as [info|th].
      * destruct Hres as [Hk1 Hok].
        assert (Hlt : (attempt <? maxRetries) = true) by (apply Z.ltb_lt; lia).
        rewrite Hlt. cbn [pred].
        split; [destruct k; [lia | reflexivity]|].
        split; [lia|].
        rewrite <- Hok, Hinv1. f_equal. lia.
      * destruct Hres as [-> Hth]. cbn [pred].
        split.
        { destruct fuel as [|fuel'].
          - assert (Hlt : (attempt <? maxRetries) = false) by (apply Z.ltb_ge; lia).
            rewrite Hlt. reflexivity.
          - assert (Hlt : (attempt <? maxRetries) = true) by (apply Z.ltb_lt; lia).
            rewrite Hlt. reflexivity. }
        split; [reflexivity|].
        destruct fuel as [|fuel'].
        -- exists err. rewrite Nat.add_0_r. split; [exact Hth | exact Hr].
        -- destruct Hth as (e' & Hth & He'). exists e'. split; [exact Hth|].
           rewrite <- He', Hinv1. f_equal. lia.
Qed.

Lemma attempt_body_uninitialised attempt st :
  transporter st = None ->
  attempt_body env mailOptions maxRetries attempt st =
  (Ok (inr (ThrownError TypeError_sendMail)),
   {| transporter := transporter st;
      trace := trace st ++ unreached_events maxRetries attempt |}).
Proof.
  intros Ht.
  unfold attempt_body, try_catch, bind, log, sleep, emit, sendMail, ret,
    unreached_events. simpl.
  rewrite Ht. simpl.
  destruct (attempt <? maxRetries); simpl;
    repeat rewrite <- app_assoc; reflexivity.
Qed.

(** While [transporter] is [undefined] no attempt reaches the transport,
    and the loop still backs off between attempts. *)
Lemma retry_loop_uninitialised (fuel : nat) :
  forall attempt lastError st,
    transporter st = None ->
    Z.to_nat (maxRetries + 1 - attempt) = fuel ->
    exists added,
      trace (snd (retry_loop env mailOptions maxRetries attempt lastError st))
        = trace st ++ added /\
      invocations added = 0%nat /\
      sleeps added = backoff_delays attempt (pred fuel) /\
      fst (retry_loop env mailOptions maxRetries attempt lastError st) =
      Throw (match fuel with
             | O => lastError
             | S _ => ThrownError TypeError_sendMail
             end).
Proof.
  induction fuel as [|fuel IH]; intros attempt lastError st Ht Hfuel;
    rewrite retry_loop_unfold.
  - assert (Hgt : (attempt <=? maxRetries) = false) by (apply Z.leb_gt; lia).
    rewrite Hgt. exists []. cbn [fst snd throw]. rewrite app_nil_r.
    repeat split.
  - assert (Hle : (attempt <=? maxRetries) = true) by (apply Z.leb_le; lia).
    rewrite Hle. unfold bind.
    rewrite (attempt_body_uninitialised attempt st Ht).
    set (st1 := {| transporter := transporter st;
                   trace := trace st ++ unreached_events maxRetries attempt |}).
    destruct (IH (attempt + 1) (ThrownError TypeError_sendMail) st1 Ht ltac:(lia))
      as (added & Htrace & Hinv & Hsl & Hres).
    exists (unreached_events maxRetries attempt ++ added).
    split; [rewrite Htrace; unfold st1; cbn [trace];
            rewrite <- app_assoc; reflexivity|].
    assert (Hu : invocations (unreached_events maxRetries attempt) = 0%nat /\
                 sleeps (unreached_events maxRetries attempt) =
                 if attempt <? maxRetries then [2 ^ attempt * 1000] else []).
    { unfold unreached_events. destruct (attempt <? maxRetries); split; reflexivity. }
    destruct Hu as [Hu1 Hu2].
    split; [rewrite invocations_app, Hu1, Hinv; reflexivity|].
    split.
    + rewrite sleeps_app, Hu2, Hsl. cbn [pred].
      destruct fuel as [|fuel'].
      * assert (Hlt : (attempt <? maxRetries) = false) by (apply Z.ltb_ge; lia).
        rewrite Hlt. reflexivity.
      * assert (Hlt : (attempt <? maxRetries) = true) by (apply Z.ltb_lt; lia).
        rewrite Hlt. reflexivity.
    + rewrite Hres. destruct fuel; reflexivity.
Qed.

End Shape.

(** What a run costs and how it can end, whatever the relay answers and
    whether or not the transporter is initialised. *)
Lemma sendEmailWithRetry_effort
  (env : Env) (mailOptions : MailOptions) (n : Z) (st : state) :
  exists added j,
    trace (snd (sendEmailWithRetry env mailOptions n st)) = trace st ++ added /\
    (invocations added <= Z.to_nat n)%nat /\
    (j <= pred (Z.to_nat n))%nat /\
    sleeps added = backoff_delays 1 j /\
    (1 <= n ->
     (exists info, fst (sendEmailWithRetry env mailOptions n st) = Ok info) \/
     (exists e, fst (sendEmailWithRetry env mailOptions n st) = Throw (ThrownError e))) /\
    (n < 1 -> sendEmailWithRetry env mailOptions n st = (Throw ThrownUndefined, st)).
Proof.
  assert (Hlow : n < 1 ->
            sendEmailWithRetry env mailOptions n st = (Throw ThrownUndefined, st)).
  { intros Hn. unfold sendEmailWithRetry. rewrite retry_loop_unfold.
    assert (Hgt : (1 <=? n) = false) by (apply Z.leb_gt; lia).
    rewrite Hgt. reflexivity. }
  unfold sendEmailWithRetry in *.
  destruct (transporter st) as [t|] eqn:Ht.
  - destruct (retry_loop_shape env mailOptions n (Z.to_nat (n + 1 - 1)) 1
                ThrownUndefined st t Ht eq_refl)
      as (k & added & Htrace & Hinv & Hk & _ & Hsl & Hres).
    replace (n + 1 - 1) with n in * by lia.
    exists added, (pred k).
    split; [exact Htrace|]. split; [lia|]. split; [lia|]. split; [exact Hsl|].
    split; [|exact Hlow].
    intros Hn.
    destruct (fst (retry_loop env mailOptions n 1 ThrownUndefined st)) as [info|th].
    + left. eauto.
    + right. destruct Hres as [_ Hth].
      destruct (Z.to_nat n) eqn:E; [lia|].
      destruct Hth as (e & -> & _). eauto.
  - destruct (retry_loop_uninitialised env mailOptions n (Z.to_nat (n + 1 - 1)) 1
                ThrownUndefined st Ht eq_refl)
      as (added & Htrace & Hinv & Hsl & Hres).
    replace (n + 1 - 1) with n in * by lia.
    exists added, (pred (Z.to_nat n)).
    split; [exact Htrace|]. split; [lia|]. split; [lia|]. split; [exact Hsl|].
    split; [|exact Hlow].
    intros Hn. right. rewrite Hres.
    destruct (Z.to_nat n) eqn:E; [lia|]. eauto.
Qed.

(** X4. With an initialised transporter and [maxRetries = n >= 1], every
    run makes some [k] attempts, [1 <= k <= n]: attempts [1 .. k-1] were
    rejected and each was followed by its backoff sleep; the run returns
    exactly when attempt [k] was accepted, with the relay's [info], and
    throws exactly when [k = n] and attempt [n] was rejected, with that
    error. *)
Theorem run_ends_at_first_success_or_last_attempt
  (env : Env) (mailOptions : MailOptions) (n : Z) (st : state) (t : Transport) :
  1 <= n ->
  transporter st = Some t ->
  let run := sendEmailWithRetry env mailOptions n st in
  let added := new_events st (snd run) in
  exists k,
    (1 <= k <= Z.to_nat n)%nat /\
    invocations added = k /\
    sleeps added = backoff_delays 1 (pred k) /\
    (forall j, (j < pred k)%nat ->
       exists err,
         relay env (invocations (trace st) + j) mailOptions = Rejected err) /\
    match fst run with
    | Ok info =>
        relay env (invocations (trace st) + pred k) mailOptions = Resolved info
    | Throw th =>
        k = Z.to_nat n /\
        exists err,
          th = ThrownError err /\
          relay env (invocations (trace st) + pred k) mailOptions = Rejected err
    end.
Proof.
  intros Hn Ht run added. subst run added. unfold sendEmailWithRetry.
  destruct (retry_loop_shape env mailOptions n (Z.to_nat (n + 1 - 1)) 1
              ThrownUndefined st t Ht eq_refl)
    as (k & added & Htrace & Hinv & Hk & Hbefore & Hsl & Hres).
  replace (n + 1 - 1) with n in * by lia.
  rewrite (new_events_app st _ added Htrace).
  exists k.
  destruct (fst (retry_loop env mailOptions n 1 ThrownUndefined st)) as [info|th].
  - destruct Hres as [Hk1 Hok]. repeat split; try assumption; lia.
  - destruct Hres as [-> Hth].
    destruct (Z.to_nat n) as [|f] eqn:E; [lia|].
    destruct Hth as (err & -> & Herr).
    repeat split; try assumption; try lia. exists err. split; [reflexivity|].
    exact Herr.
Qed.

Lemma run_ends_at_first_success_or_last_attempt_witness :
  let env := env_with (scripted [Rejected err_timeout; Resolved info_ok] err_auth) in
  let run := sendEmailWithRetry env sample_message 3 st_ready in
  let added := new_events st_ready (snd run) in
  exists k,
    (1 <= k <= 3)%nat /\
    invocations added = k /\
    sleeps added = backoff_delays 1 (pred k) /\
    (forall j, (j < pred k)%nat ->
       exists err,
         relay env (invocations (trace st_ready) + j) sample_message = Rejected err) /\
    relay env (invocations (trace st_ready) + pred k) sample_message = Resolved info_ok.
Proof.
  intros env.
  exact (run_ends_at_first_success_or_last_attempt env sample_message 3 st_ready _
           ltac:(lia) eq_refl).
Defined.

(** X5. Whatever the relay answers and whatever the state, a call with
    [maxRetries = n] invokes the transport at most [n] times and sleeps at
    most [n - 1] times; for [n >= 1] the time slept in total is at most
    [1000 * (2 ^ n - 2)] milliseconds. *)
Theorem retry_effort_bounded
  (env : Env) (mailOptions : MailOptions) (n : Z) (st : state) :
  let added := new_events st (snd (sendEmailWithRetry env mailOptions n st)) in
  (invocations added <= Z.to_nat n)%nat /\
  (List.length (sleeps added) <= Z.to_nat (n - 1))%nat /\
  0 <= total (sleeps added) /\
  (1 <= n -> total (sleeps added) <= 1000 * (2 ^ n - 2)).
Proof.
  intros added. subst added.
  destruct (sendEmailWithRetry_effort env mailOptions n st)
    as (added & j & Htrace & Hinv & Hj & Hsl & _ & _).
  rewrite (new_events_app st _ added Htrace), Hsl.
  rewrite backoff_delays_length, total_backoff_delays by lia.
  assert (Hpow : 2 ^ 1 <= 2 ^ (1 + Z.of_nat j))
    by (apply Z.pow_le_mono_r; lia).
  change (2 ^ 1) with 2 in *.
  split; [exact Hinv|]. split; [lia|]. split; [lia|].
  intros Hn.
  assert (Hpow' : 2 ^ (1 + Z.of_nat j) <= 2 ^ n)
    by (apply Z.pow_le_mono_r; lia).
  lia.
Qed.

(** X6. [sendEmailWithRetry] throws [undefined] exactly when
    [maxRetries < 1]; with [maxRetries >= 1] a failure is always an
    [Error] object. *)
Theorem throws_undefined_iff_no_attempt_allowed
  (env : Env) (mailOptions : MailOptions) (n : Z) (st : state) :
  fst (sendEmailWithRetry env mailOptions n st) = Throw ThrownUndefined <-> n < 1.
Proof.
  destruct (sendEmailWithRetry_effort env mailOptions n st)
    as (added & j & _ & _ & _ & _ & Hhigh & Hlow).
  split.
  - intros H. destruct (Z_lt_ge_dec n 1) as [Hn|Hn]; [exact Hn|].
    destruct (Hhigh ltac:(lia)) as [[info Hi]|[e He]]; congruence.
  - intros Hn. rewrite (Hlow Hn). reflexivity.
Qed.

(** X7. While [transporter] is [undefined] and [maxRetries = n >= 1], no
    attempt reaches the transport: the call invokes it zero times, still
    sleeps all [n - 1] backoff delays, and throws the [TypeError] of the
    failed property read. *)
Theorem uninitialised_transporter_wastes_backoff
  (env : Env) (mailOptions : MailOptions) (n : Z) (st : state) :
  1 <= n ->
  transporter st = None ->
  let run := sendEmailWithRetry env mailOptions n st in
  fst run = Throw (ThrownError TypeError_sendMail) /\
  invocations (new_events st (snd run)) = 0%nat /\
  sleeps (new_events st (snd run)) = backoff_delays 1 (Z.to_nat (n - 1)).
Proof.
  intros Hn Ht run. subst run. unfold sendEmailWithRetry.
  destruct (retry_loop_uninitialised env mailOptions n (Z.to_nat (n + 1 - 1)) 1
              ThrownUndefined st Ht eq_refl)
    as (added & Htrace & Hinv & Hsl & Hres).
  replace (n + 1 - 1) with n in * by lia.
  rewrite (new_events_app st _ added Htrace), Hres, Hinv, Hsl.
  destruct (Z.to_nat n) eqn:E; [lia|].
  repeat split. f_equal. lia.
Qed.

Lemma uninitialised_transporter_wastes_backoff_witness :
  let run := sendEmailWithRetry (env_rejecting err_auth) sample_message 3 st_fresh in
  fst run = Throw (ThrownError TypeError_sendMail) /\
  invocations (new_events st_fresh (snd run)) = 0%nat /\
  sleeps (new_events st_fresh (snd run)) = [2000; 4000].
Proof.
  exact (uninitialised_transporter_wastes_backoff (env_rejecting err_auth)
           sample_message 3 st_fresh ltac:(lia) eq_refl).
Defined.

(** ** [GET /test] *)

Section TestEndpoint.

Variable env : Env.

Lemma test_endpoint_unconfigured st :
  truthy (EMAIL_USER env) && truthy (EMAIL_APP_PASSWORD env) = false ->
  exists r,
    test_endpoint env st = (Ok r, st) /\
    statusCode r = 500 /\
    prop (body r) (js "success") = VBool false.
Proof.
  intros H. unfold test_endpoint, try_catch, ret.
  rewrite <- negb_andb, H. cbn [negb].
  eexists. split; [reflexivity|]. split; reflexivity.
Qed.

Lemma test_endpoint_configured st :
  truthy (EMAIL_USER env) && truthy (EMAIL_APP_PASSWORD env) = true ->
  let testEmail := or_else (TEST_EMAIL env) (EMAIL_USER env) in
  let m := test_mailOptions env
             (testBooking env testEmail (Date_now env (List.length (trace st)))) in
  to m = testEmail /\
  truthy testEmail = true /\
  exists r,
    fst (test_endpoint env st) = Ok r /\
    match sendEmailWithRetry env m 1 st with
    | (Ok info, st1) =>
        snd (test_endpoint env st) = st1 /\
        statusCode r = 200 /\
        prop (body r) (js "success") = VBool true /\
        prop (body r) (js "to") = testEmail /\
        prop (body r) (js "messageId") = messageId info
    | (Throw (ThrownError e), st1) =>
        snd (test_endpoint env st) =
          {| transporter := transporter st1;
             trace := trace st1 ++ [EvLog (LogTestError (ThrownError e))] |} /\
        statusCode r = 500 /\
        prop (body r) (js "success") = VBool false /\
        prop (body r) (js "error") = VStr (message e)
    | (Throw ThrownUndefined, _) => False
    end.
Proof.
  intros H testEmail m.
  apply andb_prop in H. destruct H as [Hu Hp].
  assert (Hte : truthy testEmail = true).
  { unfold testEmail, or_else. destruct (truthy (TEST_EMAIL env)) eqn:E; assumption. }
  split; [reflexivity|]. split; [exact Hte|].
  destruct (sendEmailWithRetry_effort env m 1 st) as (_ & _ & _ & _ & _ & _ & Hres & _).
  specialize (Hres ltac:(lia)).
  unfold test_endpoint, try_catch, bind. rewrite Hu, Hp. cbn [negb orb].
  fold testEmail. rewrite Hte. cbn [negb]. fold m.
  destruct (sendEmailWithRetry env m 1 st) as [[info|[|e]] st1]; cbn [fst] in Hres.
  - unfold now_iso, ret. cbn [fst snd]. eexists. split; [reflexivity|].
    repeat split.
  - destruct Hres as [[i Hi]|[e He]]; discriminate.
  - unfold log, emit, message_of, now_iso, ret, bind. cbn [fst snd].
    eexists. split; [reflexivity|]. repeat split.
Qed.

End TestEndpoint.

(** X13. [GET /test] answers every request with 200 or 500, and [success]
    is [true] exactly with 200.  It never answers 400: the branch for a
    missing test address cannot be reached, since an address is missing
    only when [EMAIL_USER] is, and that is answered with 500 first, without
    any effect. *)
Theorem test_endpoint_never_400 (env : Env) (st : state) :
  exists r,
    fst (test_endpoint env st) = Ok r /\
    (statusCode r = 200 \/ statusCode r = 500) /\
    prop (body r) (js "success") = VBool (statusCode r =? 200) /\
    (truthy (EMAIL_USER env) && truthy (EMAIL_APP_PASSWORD env) = false ->
     statusCode r = 500 /\ snd (test_endpoint env st) = st).
Proof.
  destruct (truthy (EMAIL_USER env) && truthy (EMAIL_APP_PASSWORD env)) eqn:Hc.
  - destruct (test_endpoint_configured env st Hc) as (_ & _ & r & Hr & Hcase).
    exists r. split; [exact Hr|].
    destruct (sendEmailWithRetry env _ 1 st) as [[info|[|e]] st1].
    + destruct Hcase as (_ & Hs & Hsucc & _). rewrite Hs, Hsucc.
      split; [auto|]. split; [reflexivity | discriminate].
    + contradiction.
    + destruct Hcase as (_ & Hs & Hsucc & _). rewrite Hs, Hsucc.
      split; [auto|]. split; [reflexivity | discriminate].
  - destruct (test_endpoint_unconfigured env st Hc) as (r & Hrun & Hs & Hsucc).
    exists r. rewrite Hrun, Hs, Hsucc. cbn [fst snd]. auto.
Qed.

(** X14. With the account configured and the transporter initialised,
    [GET /test] hands exactly one message to the transport, addressed to
    [TEST_EMAIL] when that is set and to [EMAIL_USER] otherwise, and never
    sleeps.  It answers 200 with the provider's message identifier when the
    relay accepts, and 500 with the raw message of the error when it
    rejects: no error is classified here, a timeout included. *)
Theorem test_endpoint_sends_one_message (env : Env) (st : state) (t : Transport) :
  truthy (EMAIL_USER env) && truthy (EMAIL_APP_PASSWORD env) = true ->
  transporter st = Some t ->
  let testEmail := or_else (TEST_EMAIL env) (EMAIL_USER env) in
  let added := new_events st (snd (test_endpoint env st)) in
  (exists m, sent_messages added = [m] /\ to m = testEmail) /\
  sleeps added = [] /\
  exists r,
    fst (test_endpoint env st) = Ok r /\
    forall m, sent_messages added = [m] ->
      match relay env (invocations (trace st)) m with
      | Resolved info =>
          statusCode r = 200 /\ prop (body r) (js "messageId") = messageId info
      | Rejected e =>
          statusCode r = 500 /\ prop (body r) (js "error") = VStr (message e)
      end.
Proof.
  intros Hc Ht testEmail added. subst added.
  destruct (test_endpoint_configured env st Hc) as (Hto & _ & r & Hr & Hcase).
  fold testEmail in Hto, Hcase.
  set (m := test_mailOptions env
              (testBooking env testEmail (Date_now env (List.length (trace st)))))
    in *.
  destruct (sendEmailWithRetry_once env m st t Ht)
    as (mid & Hmid & Hmi & Hms & Hres).
  destruct (sendEmailWithRetry_extends env m 1 st) as [_ (mid' & Hmid' & Hall)].
  rewrite Hmid in Hmid'. apply app_inv_head in Hmid'. subst mid'.
  assert (Hsent : sent_messages mid = [m]).
  { pose proof (sent_messages_length mid) as Hlen. rewrite Hmi in Hlen.
    destruct (sent_messages mid) as [|x [|y l]]; try discriminate Hlen.
    inversion Hall; subst. reflexivity. }
  destruct (sendEmailWithRetry env m 1 st) as [[info|[|e]] st1];
    cbn [fst snd] in *; try contradiction.
  - destruct Hcase as (Hst & Hs & _ & _ & Hid). rewrite Hst.
    rewrite (new_events_app st st1 mid Hmid), Hsent, Hms.
    split; [exists m; auto|]. split; [reflexivity|].
    exists r. split; [exact Hr|].
    intros m' Hm'. inversion Hm'; subst m'.
    destruct (relay env (invocations (trace st)) m) as [info'|e'];
      [|discriminate Hres].
    inversion Hres; subst. auto.
  - destruct Hcase as (Hst & Hs & _ & Herr). rewrite Hst.
    erewrite new_events_app by (cbn [trace]; rewrite Hmid, <- app_assoc; reflexivity).
    rewrite sent_messages_app, sleeps_app, Hsent, Hms.
    split; [exists m; auto|]. split; [reflexivity|].
    exists r. split; [exact Hr|].
    intros m' Hm'. inversion Hm'; subst m'.
    destruct (relay env (invocations (trace st)) m) as [info'|e'];
      [discriminate Hres|].
    inversion Hres; subst. auto.
Qed.

Lemma test_endpoint_sends_one_message_witness :
  let env := env_rejecting err_timeout in
  let added := new_events st_ready (snd (test_endpoint env st_ready)) in
  (exists m, sent_messages added = [m] /\ to m = VStr (js "luna@gmail.com")) /\
  sleeps added = [] /\
  exists r,
    fst (test_endpoint env st_ready) = Ok r /\
    forall m, sent_messages added = [m] ->
      match relay env (invocations (trace st_ready)) m with
      | Resolved info =>
          statusCode r = 200 /\ prop (body r) (js "messageId") = messageId info
      | Rejected e =>
          statusCode r = 500 /\ prop (body r) (js "error") = VStr (message e)
      end.
Proof.
  intros env.
  exact (test_endpoint_sends_one_message env st_ready _ eq_refl eq_refl).
Defined.

(** X15. With the account configured but [transporter] still [undefined]
    (the application was loaded without [startServer]), [GET /test] reaches
    no transport: it answers 500 with the message of the [TypeError] and
    neither sends nor sleeps. *)
Theorem test_endpoint_without_transporter (env : Env) (st : state) :
  truthy (EMAIL_USER env) && truthy (EMAIL_APP_PASSWORD env) = true ->
  transporter st = None ->
  let added := new_events st (snd (test_endpoint env st)) in
  invocations added = 0%nat /\
  sleeps added = [] /\
  exists r,
    fst (test_endpoint env st) = Ok r /\
    statusCode r = 500 /\
    prop (body r) (js "error") = VStr (message TypeError_sendMail).
Proof.
  intros Hc Ht added. subst added.
  destruct (test_endpoint_configured env st Hc) as (_ & _ & r & Hr & Hcase).
  match type of Hcase with
  | context [sendEmailWithRetry env ?m 1 st] =>
      destruct (retry_loop_uninitialised env m 1 (Z.to_nat (1 + 1 - 1)) 1
                  ThrownUndefined st Ht eq_refl)
        as (mid & Hmid & Hmi & Hms & Hres);
      fold (sendEmailWithRetry env m 1) in Hmid, Hres;
      destruct (sendEmailWithRetry env m 1 st) as [[info|[|e]] st1]
  end; cbn [fst snd] in *; try discriminate Hres; try contradiction.
  destruct Hcase as (Hst & Hs & _ & Herr). rewrite Hst.
  erewrite new_events_app by (cbn [trace]; rewrite Hmid, <- app_assoc; reflexivity).
  rewrite invocations_app, sleeps_app, Hmi, Hms.
  split; [reflexivity|]. split; [reflexivity|].
  exists r. split; [exact Hr|]. split; [exact Hs|].
  change (Z.to_nat (1 + 1 - 1)) with 1%nat in Hres. cbn iota in Hres.
  inversion Hres; subst. exact Herr.
Qed.

Lemma test_endpoint_without_transporter_witness :
  let env := env_rejecting err_auth in
  let added := new_events st_fresh (snd (test_endpoint env st_fresh)) in
  invocations added = 0%nat /\
  sleeps added = [] /\
  exists r,
    fst (test_endpoint env st_fresh) = Ok r /\
    statusCode r = 500 /\
    prop (body r) (js "error") = VStr (message TypeError_sendMail).
Proof.
  intros env.
  exact (test_endpoint_without_transporter env st_fresh eq_refl eq_refl).
Defined.

(** ** [formatTime] *)

Lemma split_colon_nonempty s : split_colon s <> [].
Proof.
  destruct s as [|c s]; simpl; [discriminate|].
  destruct (split_colon s); [discriminate|].
  destruct (c =? colon)%N; discriminate.
Qed.

Lemma split_colon_no_colon s :
  forallb (fun c => negb (c =? colon)%N) s = true -> split_colon s = [s].
Proof.
  induction s as [|c s IH]; simpl; intros H; [reflexivity|].
  apply andb_prop in H. destruct H as [Hc Hs].
  rewrite (IH Hs). apply negb_true_iff in Hc. rewrite Hc. reflexivity.
Qed.

Lemma split_colon_first hh rest :
  forallb (fun c => negb (c =? colon)%N) hh = true ->
  split_colon (hh ++ colon :: rest) = hh :: split_colon rest.
Proof.
  induction hh as [|c hh IH]; simpl; intros H.
  - destruct (split_colon rest) as [|piece pieces] eqn:E.
    + apply split_colon_nonempty in E. contradiction.
    + reflexivity.
  - apply andb_prop in H. destruct H as [Hc Hs].
    rewrite (IH Hs). apply negb_true_iff in Hc. rewrite Hc. reflexivity.
Qed.

(** X16. For a time written [HH:MM] whose hour part parses to a number
    [hour >= 0], [formatTime] gives [h:MM AM] or [h:MM PM] on the 12-hour
    clock: [1 <= h <= 12], [h] is congruent to [hour] modulo 12 (so 0 and
    12 both show as 12), and the suffix is [PM] exactly when [hour >= 12].
    The minutes are copied as written; the hour is not checked against
    23. *)
Theorem formatTime_twelve_hour_clock (env : Env) (hh mm : jsstring) (hour : Z) :
  forallb (fun c => negb (c =? colon)%N) hh = true ->
  forallb (fun c => negb (c =? colon)%N) mm = true ->
  mm <> [] ->
  parseInt env hh = Some hour ->
  0 <= hour ->
  exists h,
    1 <= h <= 12 /\
    (h - hour) mod 12 = 0 /\
    formatTime env (VStr (hh ++ [colon] ++ mm)) =
    VStr (number_to_string h ++ [colon] ++ mm ++ js " " ++
          (if hour <? 12 then js "AM" else js "PM")).
Proof.
  intros Hhh Hmm Hne Hparse Hpos.
  assert (Hrem : Z.rem hour 12 = hour mod 12) by (apply Z.rem_mod_nonneg; lia).
  assert (Hrange : 0 <= hour mod 12 < 12) by (apply Z.mod_pos_bound; lia).
  exists (if hour mod 12 =? 0 then 12 else hour mod 12).
  split; [|split].
  - destruct (hour mod 12 =? 0) eqn:E; [lia|]. apply Z.eqb_neq in E. lia.
  - destruct (hour mod 12 =? 0) eqn:E.
    + apply Z.eqb_eq in E.
      replace (12 - hour) with (- hour + 1 * 12) by lia.
      rewrite Z.mod_add by lia. rewrite Z.mod_opp_l_z by lia. reflexivity.
    + rewrite Zminus_mod, Zmod_mod, Z.sub_diag. reflexivity.
  - unfold formatTime. cbn [truthy app].
    destruct (hh ++ colon :: mm) as [|c0 s0] eqn:Es.
    { destruct hh; discriminate Es. }
    cbn [negb]. rewrite <- Es.
    rewrite (split_colon_first hh mm Hhh), (split_colon_no_colon mm Hmm).
    cbn [List.nth]. rewrite Hparse, Hrem.
    destruct mm as [|c1 mm']; [contradiction|].
    replace (hour >=? 12) with (negb (hour <? 12)).
    + destruct (hour <? 12); reflexivity.
    + rewrite Z.geb_leb, Z.ltb_antisym, negb_involutive. reflexivity.
Qed.

Lemma formatTime_twelve_hour_clock_witness :
  exists h,
    1 <= h <= 12 /\
    (h - 14) mod 12 = 0 /\
    formatTime (env_rejecting err_auth) (VStr (js "14" ++ [colon] ++ js "05")) =
    VStr (number_to_string h ++ [colon] ++ js "05" ++ js " " ++ js "PM").
Proof.
  exact (formatTime_twelve_hour_clock (env_rejecting err_auth) (js "14") (js "05") 14
           eq_refl eq_refl ltac:(discriminate) eq_refl ltac:(lia)).
Defined.

(** ** Substrings and the timeout class *)

Lemma starts_with_prefix pat : forall s,
  starts_with pat s = true <-> exists post, s = pat ++ post.
Proof.
  induction pat as [|p pat IH]; intros s; simpl.
  - split; [intros _; exists s; reflexivity | reflexivity].
  - destruct s as [|c s].
    + split; [discriminate | intros [post H]; discriminate H].
    + split.
      * intros H. apply andb_prop in H. destruct H as [Hc Hs].
        apply N.eqb_eq in Hc. subst c.
        apply IH in Hs. destruct Hs as [post ->]. exists post. reflexivity.
      * intros [post H]. inversion H; subst.
        rewrite N.eqb_refl. apply IH. exists post. reflexivity.
Qed.

Lemma includes_substring pat : forall s,
  includes s pat = true <-> substring pat s.
Proof.
  unfold substring.
  induction s as [|c s IH].
  - cbn [includes]. rewrite orb_false_r, starts_with_prefix. split.
    + intros [post H]. exists [], post. exact H.
    + intros (pre & post & H). destruct pre as [|x pre]; [|discriminate H].
      exists post. exact H.
  - cbn [includes]. split.
    + intros H. apply orb_prop in H. destruct H as [H|H].
      * apply starts_with_prefix in H. destruct H as [post H].
        exists [], post. exact H.
      * apply IH in H. destruct H as (pre & post & ->).
        exists (c :: pre), post. reflexivity.
    + intros (pre & post & H). destruct pre as [|x pre].
      * assert (Hs : starts_with pat (c :: s) = true)
          by (apply starts_with_prefix; exists post; exact H).
        rewrite Hs. reflexivity.
      * inversion H; subst.
        assert (Hi : includes (pre ++ pat ++ post) pat = true)
          by (apply IH; exists pre, post; reflexivity).
        rewrite Hi. apply orb_true_r.
Qed.

(** X17. The handler reports 504 exactly for the errors whose message
    contains the text [timeout] somewhere (in that spelling) or whose code
    is the string [ETIMEDOUT]; every other error is reported as 500. *)
Theorem status_504_iff_timeout (e : JsError) :
  (fst (classifyError e) = 504 <->
   substring (js "timeout") (message e) \/ code e = VStr (js "ETIMEDOUT")) /\
  (fst (classifyError e) = 500 <->
   ~ substring (js "timeout") (message e) /\ code e <> VStr (js "ETIMEDOUT")).
Proof.
  assert (Hclass : timeout_class e = true <->
            substring (js "timeout") (message e) \/ code e = VStr (js "ETIMEDOUT")).
  { unfold timeout_class. rewrite orb_true_iff, includes_substring,
      strict_eq_string_spec. reflexivity. }
  destruct (classifyError_status e) as [[Hs Ht]|[Hs Ht]]; rewrite Hs.
  - apply Hclass in Ht.
    split; split; intros H; try discriminate H; try reflexivity; tauto.
  - assert (Hn : ~ (substring (js "timeout") (message e) \/
                    code e = VStr (js "ETIMEDOUT"))).
    { intros H. apply Hclass in H. congruence. }
    split; split; intros H; try discriminate H; try reflexivity; tauto.
Qed.

(** ** The loop leaves its inputs alone *)

(** X18. [sendEmailWithRetry] never replaces the transporter, never removes
    or rewrites what was recorded before it ran, and hands the transport no
    message other than the [mailOptions] it was given, on every attempt. *)
Theorem retry_keeps_message_and_transporter
  (env : Env) (mailOptions : MailOptions) (n : Z) (st : state) :
  let st' := snd (sendEmailWithRetry env mailOptions n st) in
  transporter st' = transporter st /\
  trace st' = trace st ++ new_events st st' /\
  Forall (fun m => m = mailOptions) (sent_messages (new_events st st')).
Proof.
  intros st'. subst st'.
  destruct (sendEmailWithRetry_extends env mailOptions n st)
    as [Hkeep (added & Htrace & Hall)].
  rewrite (new_events_app st _ added Htrace).
  split; [exact Hkeep|]. split; [exact Htrace | exact Hall].
Qed.


(** ** Every path of [POST /send-confirmation] *)

(** A request body is of exactly one kind: it cannot be destructured, a
    check turns it down, the conversion of its address throws, or it
    passes. *)
Lemma validation_partition env req_body :
  match nullish req_body, fails_validation env req_body,
        unconvertible_email env req_body, passes_validation env req_body with
  | true, false, false, false
  | false, true, false, false
  | false, false, true, false
  | false, false, false, true => True
  | _, _, _, _ => False
  end.
Proof.
  unfold fails_validation, unconvertible_email, passes_validation.
  destruct (nullish req_body); cbn [negb andb]; [exact I|].
  destruct (truthy (prop req_body (js "booking"))); cbn [negb andb orb]; [|exact I].
  destruct (truthy (prop (prop req_body (js "booking")) (js "email")));
    cbn [negb andb orb]; [|exact I].
  destruct (test_email env (prop (prop req_body (js "booking")) (js "email")))
    as [[|]|]; exact I.
Qed.

Lemma classifyError_destructure req_body :
  classifyError (TypeError_destructure (js "booking") req_body) =
  (500, message (TypeError_destructure (js "booking") req_body)).
Proof. destruct req_body; vm_compute; reflexivity. Qed.

(** What a conversion throws is a [TypeError] or a [RangeError], and the
    [catch] block answers both with 500 and their own text. *)
Lemma converted_throws {A} (o : option A) t :
  converted o = Throw t -> t = ThrownError TypeError_toPrimitive.
Proof. destruct o; cbn; intros H; inversion H; reflexivity. Qed.

Lemma conversion_classified t :
  t = ThrownError TypeError_toPrimitive \/ t = ThrownError RangeError_stack ->
  exists e, t = ThrownError e /\ classifyError e = (500, message e).
Proof.
  intros [->| ->]; eexists; (split; [reflexivity|]); vm_compute; reflexivity.
Qed.

Lemma to_string_throws env v t :
  to_string env v = Throw t ->
  exists e, t = ThrownError e /\ classifyError e = (500, message e).
Proof.
  intros H. apply conversion_classified. unfold to_string in H.
  destruct v as [| |b|x|s|l|props];
    try (left; exact (converted_throws _ t H)).
  destruct (join_overflows env l).
  - right. inversion H. reflexivity.
  - left. exact (converted_throws _ t H).
Qed.

Lemma test_email_throws env v t :
  test_email env v = Throw t ->
  exists e, t = ThrownError e /\ classifyError e = (500, message e).
Proof.
  intros H. apply conversion_classified. unfold test_email in H.
  destruct v as [| |b|x|s|l|props];
    try (left; exact (converted_throws _ t H)).
  destruct (join_overflows env l).
  - right. inversion H. reflexivity.
  - left. exact (converted_throws _ t H).
Qed.

(** [emailRegex.test] answers for the string the value converts to. *)
Lemma test_email_to_string env v accepted :
  test_email env v = Ok accepted <->
  exists s, to_string env v = Ok s /\ accepted = full_match emailRegex s.
Proof.
  assert (H : converted (emailRegex_test v) = Ok accepted <->
              exists s, converted (ToString v) = Ok s /\
                        accepted = full_match emailRegex s).
  { unfold emailRegex_test. destruct (ToString v) as [s|]; cbn.
    - split.
      + intros E. inversion E. exists s. split; reflexivity.
      + intros (s' & E & ->). inversion E. reflexivity.
    - split; [discriminate | intros (s' & E & _); discriminate E]. }
  unfold test_email, to_string.
  destruct v as [| |b|x|s|l|props]; try exact H.
  destruct (join_overflows env l); [|exact H].
  split; [discriminate | intros (s' & E & _); discriminate E].
Qed.

Lemma text_body_throws env booking t :
  text_body env booking = Throw t ->
  exists e, t = ThrownError e /\ classifyError e = (500, message e).
Proof.
  unfold text_body, and_then.
  repeat match goal with
         | |- match to_string env ?v with _ => _ end = _ -> _ =>
             let E := fresh "E" in
             destruct (to_string env v) eqn:E;
             [|intros H; inversion H; subst; eapply to_string_throws; exact E]
         end.
  discriminate.
Qed.

Lemma subject_for_throws env booking status t :
  subject_for env booking status = Throw t ->
  exists e, t = ThrownError e /\ classifyError e = (500, message e).
Proof.
  unfold subject_for, and_then.
  destruct (isConfirmation status); [|discriminate].
  destruct (to_string env (prop booking (js "bookingId"))) eqn:E; [discriminate|].
  intros H. inversion H; subst. eapply to_string_throws. exact E.
Qed.

Lemma confirmation_mailOptions_throws env booking status t :
  confirmation_mailOptions env booking status = Throw t ->
  exists e, t = ThrownError e /\ classifyError e = (500, message e).
Proof.
  unfold confirmation_mailOptions, and_then.
  destruct (subject_for env booking status) eqn:Es.
  - destruct (text_body env booking) eqn:Et; [discriminate|].
    intros H. inversion H; subst. eapply text_body_throws. exact Et.
  - intros H. inversion H; subst. eapply subject_for_throws. exact Es.
Qed.

Section Handler.

Variable env : Env.

Lemma stringify_prints req_body :
  stringify_throws env req_body = false -> stringify_error env req_body = None.
Proof.
  unfold stringify_throws.
  destruct (stringify_error env req_body); [discriminate | reflexivity].
Qed.

(** A body that [JSON.stringify] cannot print: the error is thrown before
    the [try] block is entered, and nothing answers the request. *)
Lemma send_confirmation_unprintable req_body error st :
  stringify_error env req_body = Some error ->
  send_confirmation env req_body st =
  (Throw (ThrownError error), received env st).
Proof.
  intros H.
  unfold send_confirmation, received, bind, stringify, now_iso, log, emit, throw.
  cbn [fst snd trace transporter]. rewrite H. reflexivity.
Qed.

(** A body that cannot be destructured goes straight to the [catch]
    block. *)
Lemma send_confirmation_nullish req_body st :
  stringify_throws env req_body = false ->
  nullish req_body = true ->
  send_confirmation env req_body st =
  send_confirmation_catch env
    (ThrownError (TypeError_destructure (js "booking") req_body))
    (after_prologue env req_body st).
Proof.
  intros Hp Hnull.
  unfold send_confirmation, after_prologue.
  unfold bind, try_catch, destructure_body, stringify, now_iso, log, emit, ret, throw.
  cbn [fst snd trace transporter]. rewrite (stringify_prints _ Hp).
  cbn [fst snd trace transporter].
  rewrite Hnull. repeat rewrite <- app_assoc. reflexivity.
Qed.

(** A request that one of the two checks turns down is answered with 400
    from the state that follows the prologue. *)
Lemma send_confirmation_turned_down req_body st :
  stringify_throws env req_body = false ->
  fails_validation env req_body = true ->
  snd (send_confirmation env req_body st) = after_prologue env req_body st /\
  exists r,
    fst (send_confirmation env req_body st) = Ok r /\
    statusCode r = 400 /\
    prop (body r) (js "success") = VBool false /\
    prop (body r) (js "error") =
      VStr (if negb (truthy (prop req_body (js "booking")))
               || negb (truthy (prop (prop req_body (js "booking")) (js "email")))
            then js "Missing required booking data"
            else js "Invalid email address").
Proof.
  unfold fails_validation. intros Hp Hbad.
  apply andb_prop in Hbad. destruct Hbad as [Hnull Hbad].
  apply negb_true_iff in Hnull.
  unfold send_confirmation, after_prologue.
  unfold bind, try_catch, destructure_body, stringify, lift, now_iso, log,
    emit, ret, throw.
  cbn [fst snd trace transporter]. rewrite (stringify_prints _ Hp).
  cbn [fst snd trace transporter].
  rewrite Hnull. cbn [fst snd].
  destruct (negb (truthy (prop req_body (js "booking")))
            || negb (truthy (prop (prop req_body (js "booking")) (js "email"))))
    eqn:Hmissing.
  - repeat rewrite <- app_assoc. split; [reflexivity|].
    eexists. split; [reflexivity|]. repeat split.
  - cbn [orb] in Hbad.
    destruct (test_email env (prop (prop req_body (js "booking")) (js "email")))
      as [accepted|]; [|discriminate Hbad].
    rewrite Hbad. repeat rewrite <- app_assoc. split; [reflexivity|].
    eexists. split; [reflexivity|]. repeat split.
Qed.

(** A truthy address on which the conversion to a string throws: the
    error of [emailRegex.test] reaches the [catch] block. *)
Lemma send_confirmation_unconvertible req_body st :
  stringify_throws env req_body = false ->
  unconvertible_email env req_body = true ->
  send_confirmation env req_body st =
  send_confirmation_catch env (conversion_error env req_body)
    (after_prologue env req_body st).
Proof.
  unfold unconvertible_email, conversion_error. intros Hp H.
  apply andb_prop in H. destruct H as [H Hre].
  apply andb_prop in H. destruct H as [H Hem].
  apply andb_prop in H. destruct H as [Hnull Hbk].
  apply negb_true_iff in Hnull.
  unfold send_confirmation, after_prologue.
  unfold bind, try_catch, destructure_body, stringify, lift, now_iso, log,
    emit, ret, throw.
  cbn [fst snd trace transporter]. rewrite (stringify_prints _ Hp).
  cbn [fst snd trace transporter].
  rewrite Hnull. cbn [fst snd]. rewrite Hbk, Hem. cbn [negb orb].
  destruct (test_email env (prop (prop req_body (js "booking")) (js "email")));
    [discriminate Hre|].
  repeat rewrite <- app_assoc. reflexivity.
Qed.

(** A request that passes validation and whose message cannot be built:
    the transporter is looked after, then the error of the template
    literal reaches the [catch] block. *)
Lemma send_confirmation_unbuildable req_body error st :
  stringify_throws env req_body = false ->
  passes_validation env req_body = true ->
  message_for env req_body = Throw error ->
  send_confirmation env req_body st =
  send_confirmation_catch env error (initialised env req_body st).
Proof.
  unfold passes_validation, message_for. intros Hp H Hm.
  apply andb_prop in H. destruct H as [H Hre].
  apply andb_prop in H. destruct H as [H Hem].
  apply andb_prop in H. destruct H as [Hnull Hbk].
  apply negb_true_iff in Hnull.
  unfold send_confirmation, initialised, after_prologue.
  unfold bind, try_catch, destructure_body, stringify, lift, now_iso, log,
    emit, ret, throw.
  cbn [fst snd trace transporter]. rewrite (stringify_prints _ Hp).
  cbn [fst snd trace transporter].
  rewrite Hnull. cbn [fst snd]. rewrite Hbk, Hem. cbn [negb orb].
  destruct (test_email env (prop (prop req_body (js "booking")) (js "email")))
    as [accepted|]; [|discriminate Hre].
  rewrite Hre. cbn [negb]. rewrite Hm. unfold initializeTransporter.
  destruct (transporter st) as [t|]; cbn [fst snd trace transporter];
    repeat rewrite <- app_assoc; reflexivity.
Qed.

(** A request that passes validation and whose message [m] is built
    reaches [sendEmailWithRetry(mailOptions, 2)]; its outcome decides
    between the success response and the [catch] block. *)
Lemma send_confirmation_valid req_body (m : MailOptions) st :
  stringify_throws env req_body = false ->
  passes_validation env req_body = true ->
  message_for env req_body = Ok m ->
  send_confirmation env req_body st =
  match sendEmailWithRetry env m 2 (ready_to_send env req_body m st) with
  | (Ok info, st3) => delivered env req_body info st3
  | (Throw error, st3) => send_confirmation_catch env error st3
  end.
Proof.
  unfold passes_validation, message_for. intros Hp H Hm.
  apply andb_prop in H. destruct H as [H Hre].
  apply andb_prop in H. destruct H as [H Hem].
  apply andb_prop in H. destruct H as [Hnull Hbk].
  apply negb_true_iff in Hnull.
  unfold send_confirmation, ready_to_send, initialised, after_prologue, delivered.
  unfold bind, try_catch, destructure_body, stringify, lift, now_iso, log,
    emit, ret, throw.
  cbn [fst snd trace transporter]. rewrite (stringify_prints _ Hp).
  cbn [fst snd trace transporter].
  rewrite Hnull. cbn [fst snd]. rewrite Hbk, Hem. cbn [negb orb].
  destruct (test_email env (prop (prop req_body (js "booking")) (js "email")))
    as [accepted|] eqn:Htest; [|discriminate Hre].
  apply test_email_to_string in Htest. destruct Htest as (address & Haddress & _).
  rewrite Hre. cbn [negb]. rewrite Hm, Haddress. unfold initializeTransporter.
  unfold printable_info, logging_error, delivery_log.
  destruct (transporter st) as [t|]; cbn [fst snd trace transporter];
    repeat rewrite <- app_assoc; cbn [app];
    destruct (sendEmailWithRetry env m 2 _) as [[info|error] st3];
    cbn [fst snd trace transporter]; try reflexivity;
    destruct (to_string env (messageId info)); cbn [fst snd trace transporter];
    try reflexivity;
    destruct (to_string env (response info)); cbn [fst snd trace transporter];
    repeat rewrite <- app_assoc; reflexivity.
Qed.

(** What logging a delivery adds to the trace, and what it throws. *)
Lemma delivery_log_quiet info :
  invocations (delivery_log env info) = 0%nat /\
  sleeps (delivery_log env info) = [] /\
  sent_messages (delivery_log env info) = [] /\
  creations (delivery_log env info) = 0%nat.
Proof.
  unfold delivery_log.
  destruct (to_string env (messageId info));
    [destruct (to_string env (response info))|]; repeat split.
Qed.

Lemma logging_error_classified info :
  printable_info env info = false ->
  exists e, logging_error env info = ThrownError e /\
            classifyError e = (500, message e).
Proof.
  unfold printable_info, logging_error.
  destruct (to_string env (messageId info)) as [id|t1] eqn:E1.
  - destruct (to_string env (response info)) as [text|t2] eqn:E2;
      [discriminate|].
    intros _. exact (to_string_throws env _ t2 E2).
  - intros _. exact (to_string_throws env _ t1 E1).
Qed.

(** The state in which the transporter has been looked after: console and
    set-up events only. *)
Lemma initialised_state req_body st :
  exists pre,
    trace (initialised env req_body st) = trace st ++ pre /\
    invocations pre = 0%nat /\
    sleeps pre = [] /\
    sent_messages pre = [] /\
    creations pre = match transporter st with Some _ => 0%nat | None => 1%nat end /\
    transporter (initialised env req_body st) =
    match transporter st with
    | Some t => Some t
    | None => transporter (snd (initializeTransporter env st))
    end.
Proof.
  unfold initialised, after_prologue, initializeTransporter.
  cbn [fst snd trace transporter].
  destruct (transporter st) as [t|]; cbn [fst snd trace transporter];
    repeat rewrite <- app_assoc;
    eexists; (split; [reflexivity|]); repeat split.
Qed.

Lemma ready_to_send_state req_body m st :
  exists pre t,
    trace (ready_to_send env req_body m st) = trace st ++ pre /\
    invocations pre = 0%nat /\
    sleeps pre = [] /\
    sent_messages pre = [] /\
    creations pre = match transporter st with Some _ => 0%nat | None => 1%nat end /\
    transporter (ready_to_send env req_body m st) = Some t /\
    Some t =
    match transporter st with
    | Some t => Some t
    | None => transporter (snd (initializeTransporter env st))
    end.
Proof.
  unfold ready_to_send, initialised, after_prologue, initializeTransporter.
  cbn [fst snd trace transporter].
  destruct (transporter st) as [t|]; cbn [fst snd trace transporter];
    repeat rewrite <- app_assoc;
    do 2 eexists; (split; [reflexivity|]); repeat split.
Qed.

(** A request that does not pass validation, or cannot be printed, leaves
    console output and nothing else. *)
Lemma send_confirmation_quiet req_body st :
  stringify_throws env req_body = true \/
  passes_validation env req_body = false ->
  exists added,
    trace (snd (send_confirmation env req_body st)) = trace st ++ added /\
    transporter (snd (send_confirmation env req_body st)) = transporter st /\
    invocations added = 0%nat /\ sleeps added = [] /\
    sent_messages added = [] /\ creations added = 0%nat.
Proof.
  intros H.
  destruct (stringify_throws env req_body) eqn:Hp.
  - unfold stringify_throws in Hp.
    destruct (stringify_error env req_body) as [error|] eqn:He; [|discriminate Hp].
    rewrite (send_confirmation_unprintable req_body error st He).
    unfold received. cbn [snd trace transporter].
    eexists. split; [reflexivity|]. repeat split.
  - destruct H as [H|Hbad]; [discriminate H|].
    pose proof (validation_partition env req_body) as Hkind.
    rewrite Hbad in Hkind.
    destruct (nullish req_body) eqn:Hnull;
      destruct (fails_validation env req_body) eqn:Hfail;
      destruct (unconvertible_email env req_body) eqn:Hunc; try contradiction.
    + rewrite (send_confirmation_nullish req_body st Hp Hnull).
      rewrite send_confirmation_catch_trace.
      unfold after_prologue. cbn [trace transporter]. rewrite <- app_assoc.
      eexists. split; [reflexivity|]. repeat split.
    + destruct (send_confirmation_turned_down req_body st Hp Hfail) as [Hst _].
      rewrite Hst. unfold after_prologue. cbn [trace transporter].
      eexists. split; [reflexivity|]. repeat split.
    + rewrite (send_confirmation_unconvertible req_body st Hp Hunc).
      rewrite send_confirmation_catch_trace.
      unfold after_prologue. cbn [trace transporter]. rewrite <- app_assoc.
      eexists. split; [reflexivity|]. repeat split.
Qed.

(** The response to a request on whose address the conversion throws. *)
Lemma send_confirmation_unconvertible_response req_body st :
  stringify_throws env req_body = false ->
  unconvertible_email env req_body = true ->
  exists r e,
    fst (send_confirmation env req_body st) = Ok r /\
    conversion_error env req_body = ThrownError e /\
    statusCode r = 500 /\
    prop (body r) (js "success") = VBool false /\
    prop (body r) (js "error") = VStr (message e).
Proof.
  intros Hp Hunc.
  rewrite (send_confirmation_unconvertible req_body st Hp Hunc).
  assert (He : exists e, conversion_error env req_body = ThrownError e /\
                         classifyError e = (500, message e)).
  { unfold unconvertible_email in Hunc. unfold conversion_error.
    apply andb_prop in Hunc. destruct Hunc as [_ Hre].
    destruct (test_email env (prop (prop req_body (js "booking")) (js "email")))
      as [accepted|t] eqn:Htest; [discriminate Hre|].
    exact (test_email_throws env _ t Htest). }
  destruct He as (e & He & Hclass). rewrite He.
  rewrite send_confirmation_catch_error, Hclass. cbn [fst snd].
  eexists. exists e. split; [reflexivity|]. repeat split.
Qed.

(** The events of a request that reaches [sendEmailWithRetry]: console and
    set-up events, the events of the call, console events. *)
Lemma send_confirmation_valid_trace req_body m st :
  stringify_throws env req_body = false ->
  passes_validation env req_body = true ->
  message_for env req_body = Ok m ->
  exists pre mid post,
    trace (ready_to_send env req_body m st) = trace st ++ pre /\
    trace (snd (sendEmailWithRetry env m 2 (ready_to_send env req_body m st))) =
      trace (ready_to_send env req_body m st) ++ mid /\
    trace (snd (send_confirmation env req_body st)) = trace st ++ pre ++ mid ++ post /\
    transporter (snd (send_confirmation env req_body st)) =
      transporter (ready_to_send env req_body m st) /\
    invocations pre = 0%nat /\ sleeps pre = [] /\ sent_messages pre = [] /\
    creations pre = match transporter st with Some _ => 0%nat | None => 1%nat end /\
    creations mid = 0%nat /\
    invocations post = 0%nat /\ sleeps post = [] /\ sent_messages post = [] /\
    creations post = 0%nat.
Proof.
  intros Hp Hvalid Hm. rewrite (send_confirmation_valid req_body m st Hp Hvalid Hm).
  destruct (ready_to_send_state req_body m st)
    as (pre & t & Hpre & Hi & Hs & Hsm & Hc & _ & _).
  destruct (sendEmailWithRetry_extends env m 2 (ready_to_send env req_body m st))
    as [Hkeep _].
  destruct (retry_loop_creates_nothing env m 2 (Z.to_nat (2 + 1 - 1)) 1
              ThrownUndefined (ready_to_send env req_body m st) (Nat.le_refl _))
    as (mid & Hmid & Hmc).
  fold (sendEmailWithRetry env m 2) in Hmid.
  exists pre, mid.
  destruct (sendEmailWithRetry env m 2 (ready_to_send env req_body m st))
    as [[info|error] st3]; cbn [snd] in Hmid, Hkeep.
  - destruct (delivery_log_quiet info) as (Hli & Hls & Hlm & Hlc).
    assert (Hafter : exists post,
               snd (delivered env req_body info st3) =
               {| transporter := transporter st3; trace := trace st3 ++ post |} /\
               invocations post = 0%nat /\ sleeps post = [] /\
               sent_messages post = [] /\ creations post = 0%nat).
    { unfold delivered. destruct (printable_info env info).
      - cbn [snd]. eexists. split; [reflexivity|]. repeat split; assumption.
      - rewrite send_confirmation_catch_trace. cbn [trace transporter].
        rewrite <- app_assoc. eexists. split; [reflexivity|].
        rewrite invocations_app, sleeps_app, sent_messages_app, creations_app,
          Hli, Hls, Hlm, Hlc. repeat split. }
    destruct Hafter as (post & Hafter & Hpi & Hps & Hpm & Hpc).
    rewrite Hafter. cbn [snd trace transporter]. exists post.
    split; [exact Hpre|]. split; [exact Hmid|]. split.
    + rewrite Hmid, Hpre. repeat rewrite <- app_assoc. reflexivity.
    + split; [exact Hkeep|]. repeat split; assumption.
  - rewrite send_confirmation_catch_trace. cbn [snd trace transporter]. eexists.
    split; [exact Hpre|]. split; [exact Hmid|]. split.
    + rewrite Hmid, Hpre. repeat rewrite <- app_assoc. reflexivity.
    + split; [exact Hkeep|]. repeat split; assumption.
Qed.

(** The response to a request that reaches [sendEmailWithRetry], read off
    the outcome of the call. *)
Lemma send_confirmation_valid_response req_body m st :
  stringify_throws env req_body = false ->
  passes_validation env req_body = true ->
  message_for env req_body = Ok m ->
  exists r,
    fst (send_confirmation env req_body st) = Ok r /\
    match fst (sendEmailWithRetry env m 2 (ready_to_send env req_body m st)) with
    | Ok info =>
        if printable_info env info
        then statusCode r = 200 /\
             prop (body r) (js "success") = VBool true /\
             prop (body r) (js "messageId") = messageId info /\
             prop (body r) (js "recipient") =
               prop (prop req_body (js "booking")) (js "email")
        else statusCode r = 500 /\
             prop (body r) (js "success") = VBool false /\
             exists e,
               logging_error env info = ThrownError e /\
               prop (body r) (js "error") = VStr (message e)
    | Throw (ThrownError e) =>
        statusCode r = fst (classifyError e) /\
        prop (body r) (js "success") = VBool false /\
        prop (body r) (js "error") = VStr (snd (classifyError e)) /\
        prop (body r) (js "code") = code e
    | Throw ThrownUndefined => False
    end.
Proof.
  intros Hp Hvalid Hm. rewrite (send_confirmation_valid req_body m st Hp Hvalid Hm).
  destruct (sendEmailWithRetry_effort env m 2 (ready_to_send env req_body m st))
    as (_ & _ & _ & _ & _ & _ & Hres & _).
  specialize (Hres ltac:(lia)).
  destruct (sendEmailWithRetry env m 2 (ready_to_send env req_body m st))
    as [[info|[|e]] st3]; cbn [fst] in *.
  - unfold delivered. destruct (printable_info env info) eqn:Hinfo.
    + cbn [fst]. eexists. split; [reflexivity|]. repeat split.
    + destruct (logging_error_classified info Hinfo) as (e & He & Hclass).
      rewrite He, send_confirmation_catch_error, Hclass. cbn [fst snd].
      eexists. split; [reflexivity|]. repeat split.
      exists e. split; reflexivity.
  - destruct Hres as [[i Hi]|[e He]]; discriminate.
  - rewrite send_confirmation_catch_error. cbn [fst].
    eexists. split; [reflexivity|]. repeat split.
Qed.

(** The response to a request whose message cannot be built. *)
Lemma send_confirmation_unbuildable_run req_body error st :
  stringify_throws env req_body = false ->
  passes_validation env req_body = true ->
  message_for env req_body = Throw error ->
  (exists r e,
     fst (send_confirmation env req_body st) = Ok r /\
     error = ThrownError e /\
     statusCode r = 500 /\
     prop (body r) (js "success") = VBool false /\
     prop (body r) (js "error") = VStr (message e)) /\
  exists added,
    trace (snd (send_confirmation env req_body st)) = trace st ++ added /\
    transporter (snd (send_confirmation env req_body st)) =
      transporter (initialised env req_body st) /\
    invocations added = 0%nat /\ sleeps added = [] /\ sent_messages added = [] /\
    creations added = match transporter st with Some _ => 0%nat | None => 1%nat end.
Proof.
  intros Hp Hvalid Hm.
  rewrite (send_confirmation_unbuildable req_body error st Hp Hvalid Hm).
  destruct (confirmation_mailOptions_throws env _ _ error Hm) as (e & -> & Hclass).
  rewrite send_confirmation_catch_error, Hclass.
  cbn [fst snd trace transporter]. split.
  - eexists. exists e. split; [reflexivity|]. repeat split.
  - destruct (initialised_state req_body st) as (pre & Hpre & Hi & Hs & Hsm & Hc & _).
    rewrite Hpre, <- app_assoc. eexists. split; [reflexivity|].
    split; [reflexivity|].
    rewrite invocations_app, sleeps_app, sent_messages_app, creations_app,
      Hi, Hs, Hsm, Hc.
    repeat split. destruct (transporter st); reflexivity.
Qed.

End Handler.

Lemma test_email_rejects env (v : value) :
  test_email env v = Ok false <->
  exists s, to_string env v = Ok s /\ ~ address_shape s.
Proof.
  rewrite test_email_to_string. split.
  - intros (s & Hs & Hno). exists s. split; [exact Hs|]. intros Hshape.
    apply emailRegex_language, full_match_matches in Hshape. congruence.
  - intros (s & Hs & Hno). exists s. split; [exact Hs|].
    destruct (full_match emailRegex s) eqn:E; [|reflexivity].
    apply full_match_matches, emailRegex_language in E. contradiction.
Qed.

(** What the two checks turn down, in terms of the request. *)
Lemma fails_validation_spec env req_body :
  fails_validation env req_body = true <->
  nullish req_body = false /\
  (truthy (prop req_body (js "booking")) = false \/
   truthy (prop (prop req_body (js "booking")) (js "email")) = false \/
   exists s,
     to_string env (prop (prop req_body (js "booking")) (js "email")) = Ok s /\
     ~ address_shape s).
Proof.
  unfold fails_validation.
  rewrite andb_true_iff, !orb_true_iff, !negb_true_iff.
  rewrite <- test_email_rejects.
  destruct (test_email env (prop (prop req_body (js "booking")) (js "email")))
    as [[|]|]; cbn [negb]; intuition congruence.
Qed.



(** ** Claims about the handler *)

(** C5. The error classification of the handler is a function of the final
    error alone.  An error of the timeout class (the text [timeout] occurs
    in its message, or its code is [ETIMEDOUT]) gives 504 with the timeout
    message; an error outside that class gives 500, with the message of its
    code for the codes [EAUTH] (authentication), [ECONNECTION] (connection)
    and [ENOTFOUND] (name resolution), and with the raw text of the error
    for every other code, [ESOCKET] included.  The [catch] block answers
    every [Error] with that classification without invoking the transport
    or sleeping, and whenever the delivery of a request fails, its final
    error is an [Error] and the response is the classification of it. *)
Theorem error_classification_total
  (env : Env) (e : JsError) (req_body : value) (m : MailOptions) (st : state) :
  (substring (js "timeout") (message e) \/ code e = VStr (js "ETIMEDOUT") ->
   classifyError e = (504, js "Connection to Gmail timed out. Please try again.")) /\
  (~ substring (js "timeout") (message e) -> code e = VStr (js "EAUTH") ->
   classifyError e =
   (500, js "Email authentication failed. Check your Gmail App Password on Render.")) /\
  (~ substring (js "timeout") (message e) -> code e = VStr (js "ECONNECTION") ->
   classifyError e =
   (500, js "Cannot connect to Gmail servers. Check network or firewall settings.")) /\
  (~ substring (js "timeout") (message e) -> code e = VStr (js "ENOTFOUND") ->
   classifyError e = (500, js "Cannot resolve Gmail server. Network issue.")) /\
  (~ substring (js "timeout") (message e) ->
   code e <> VStr (js "ETIMEDOUT") ->
   code e <> VStr (js "EAUTH") ->
   code e <> VStr (js "ECONNECTION") ->
   code e <> VStr (js "ENOTFOUND") ->
   classifyError e = (500, message e)) /\
  (let run := send_confirmation_catch env (ThrownError e) st in
   exists r,
     fst run = Ok r /\
     statusCode r = fst (classifyError e) /\
     prop (body r) (js "error") = VStr (snd (classifyError e)) /\
     prop (body r) (js "success") = VBool false /\
     invocations (new_events st (snd run)) = 0%nat /\
     sleeps (new_events st (snd run)) = []) /\
  (stringify_throws env req_body = false ->
   passes_validation env req_body = true ->
   message_for env req_body = Ok m ->
   match fst (sendEmailWithRetry env m 2 (ready_to_send env req_body m st)) with
   | Ok _ => True
   | Throw ThrownUndefined => False
   | Throw (ThrownError final) =>
       exists r,
         fst (send_confirmation env req_body st) = Ok r /\
         statusCode r = fst (classifyError final) /\
         prop (body r) (js "error") = VStr (snd (classifyError final)) /\
         prop (body r) (js "success") = VBool false
   end).
Proof.
  assert (Hmsg : includes (message e) (js "timeout") = false <->
                 ~ substring (js "timeout") (message e)).
  { rewrite <- includes_substring.
    destruct (includes (message e) (js "timeout")); split; congruence. }
  assert (Hcode : forall lit,
             code e <> VStr lit -> strict_eq_string (code e) lit = false).
  { intros lit Hne. destruct (strict_eq_string (code e) lit) eqn:E; [|reflexivity].
    apply strict_eq_string_spec in E. contradiction. }
  assert (Hlit : forall lit, code e = VStr (js lit) ->
             strict_eq_string (code e) (js "ETIMEDOUT") =
             jsstring_eqb (js lit) (js "ETIMEDOUT")).
  { intros lit ->. reflexivity. }
  repeat split.
  - intros [H|H]; unfold classifyError.
    + apply includes_substring in H. rewrite H. reflexivity.
    + apply strict_eq_string_spec in H. rewrite H, orb_true_r. reflexivity.
  - intros H Hc. apply Hmsg in H. unfold classifyError.
    rewrite H, (Hlit _ Hc), Hc. reflexivity.
  - intros H Hc. apply Hmsg in H. unfold classifyError.
    rewrite H, (Hlit _ Hc), Hc. reflexivity.
  - intros H Hc. apply Hmsg in H. unfold classifyError.
    rewrite H, (Hlit _ Hc), Hc. reflexivity.
  - intros H H0 H1 H2 H3. apply Hmsg in H. unfold classifyError.
    rewrite H, (Hcode _ H0), (Hcode _ H1), (Hcode _ H2), (Hcode _ H3). reflexivity.
  - rewrite send_confirmation_catch_error. cbn [fst snd].
    eexists. split; [reflexivity|]. repeat split.
    + erewrite new_events_app by (cbn [trace]; reflexivity). reflexivity.
    + erewrite new_events_app by (cbn [trace]; reflexivity). reflexivity.
  - intros Hp Hvalid Hm.
    destruct (send_confirmation_valid_response env req_body m st Hp Hvalid Hm)
      as (r & Hr & Hcase).
    destruct (fst (sendEmailWithRetry env m 2 (ready_to_send env req_body m st)))
      as [info|[|final]]; [exact I | exact Hcase |].
    destruct Hcase as (Hs & Hsucc & Herr & _).
    exists r. repeat split; assumption.
Qed.

(** A time-out recognised by its message alone: the code is [ESOCKET]. *)
Lemma error_classification_total_witness :
  code err_socket_timeout = VStr (js "ESOCKET") /\
  classifyError err_socket_timeout =
  (504, js "Connection to Gmail timed out. Please try again.").
Proof.
  split; [reflexivity|].
  refine (proj1 (error_classification_total (env_rejecting err_socket_timeout)
                   err_socket_timeout sample_request sample_message st_ready) _).
  left. exists (js "Socket "), (js " while waiting for response"). reflexivity.
Defined.

(** A refused connection as the transport reports it, with the code
    [ESOCKET], belongs to no class and is answered with its raw text; so
    is a message that spells [Timeout] with a capital. *)
Example refused_connection_gets_raw_text :
  classifyError err_refused = (500, message err_refused) /\
  classifyError err_Timeout_capital = (500, js "Timeout") /\
  classifyError err_greeting =
  (504, js "Connection to Gmail timed out. Please try again.").
Proof. vm_compute. repeat split. Qed.




(** ** Template selection *)

Lemma confirmation_subject_not_reminder bookingId :
  confirmation_subject bookingId <> reminder_subject.
Proof.
  unfold confirmation_subject, reminder_subject, sparkles, calendar.
  cbn [app]. intros H. inversion H.
Qed.

(** The subject and body of every message that can be built for a booking
    and a status. *)
Lemma confirmation_mailOptions_template (env : Env) (booking status : value) m :
  confirmation_mailOptions env booking status = Ok m ->
  (status = VStr (js "confirmed") ->
   (exists bookingId,
      to_string env (prop booking (js "bookingId")) = Ok bookingId /\
      subject m = confirmation_subject bookingId) /\
   html m = generateConfirmationEmail booking) /\
  (status <> VStr (js "confirmed") ->
   subject m = reminder_subject /\
   html m = generateReminderEmail booking) /\
  ((exists bookingId, subject m = confirmation_subject bookingId) <->
   status = VStr (js "confirmed")).
Proof.
  unfold confirmation_mailOptions, subject_for, and_then. intros Hm.
  destruct (isConfirmation status) eqn:E.
  - apply isConfirmation_spec in E.
    destruct (to_string env (prop booking (js "bookingId"))) as [bookingId|];
      [|discriminate Hm].
    destruct (text_body env booking) as [text|]; [|discriminate Hm].
    inversion Hm; subst m. cbn [subject html].
    split; [|split].
    + intros _. split; [|reflexivity]. exists bookingId. split; reflexivity.
    + intros Hne. contradiction.
    + split; [intros _; exact E | intros _; exists bookingId; reflexivity].
  - assert (Hne : status <> VStr (js "confirmed")).
    { intros H. apply isConfirmation_spec in H. congruence. }
    destruct (text_body env booking) as [text|]; [|discriminate Hm].
    inversion Hm; subst m. cbn [subject html].
    split; [|split].
    + intros H. contradiction.
    + intros _. split; reflexivity.
    + split; [|intros H; contradiction].
      intros [bookingId H]. symmetry in H.
      apply confirmation_subject_not_reminder in H. contradiction.
Qed.

Example missing_status_selects_reminder :
  isConfirmation VUndefined = false.
Proof. reflexivity. Qed.

Example other_case_selects_reminder :
  isConfirmation (VStr (js "Confirmed")) = false /\
  isConfirmation (VStr (js "CONFIRMED")) = false /\
  isConfirmation (VStr (js "confirmed ")) = false /\
  isConfirmation (VBool true) = false.
Proof. repeat split. Qed.

(** C10. The template is chosen by [status === 'confirmed'] alone.  For
    every request, every message that the handler can build for it carries
    the confirmation subject (with the text of [booking.bookingId]) and the
    confirmation body exactly when [status] is the string [confirmed]; with
    any other status (absent, or spelled in another case) it carries the
    reminder subject and the reminder body.  When the request passes
    validation and the message is built, that message, and no other, is
    handed to the transport; when a template literal throws while the
    message is built, nothing is handed to it. *)
Theorem template_selected_by_status (env : Env) (req_body : value) (st : state) :
  let booking := prop req_body (js "booking") in
  let status := prop req_body (js "status") in
  let sent :=
    sent_messages (new_events st (snd (send_confirmation env req_body st))) in
  (isConfirmation status = true <-> status = VStr (js "confirmed")) /\
  (forall m, message_for env req_body = Ok m ->
     (status = VStr (js "confirmed") ->
      (exists bookingId,
         to_string env (prop booking (js "bookingId")) = Ok bookingId /\
         subject m = confirmation_subject bookingId) /\
      html m = generateConfirmationEmail booking) /\
     (status <> VStr (js "confirmed") ->
      subject m = reminder_subject /\
      html m = generateReminderEmail booking) /\
     ((exists bookingId, subject m = confirmation_subject bookingId) <->
      status = VStr (js "confirmed"))) /\
  (stringify_throws env req_body = false ->
   passes_validation env req_body = true ->
   match message_for env req_body with
   | Ok m => sent <> [] /\ Forall (fun m' => m' = m) sent
   | Throw _ => sent = []
   end).
Proof.
  intros booking status sent.
  split; [apply isConfirmation_spec|].
  split; [intros m Hm; exact (confirmation_mailOptions_template env booking status m Hm)|].
  intros Hp Hvalid. subst sent.
  destruct (message_for env req_body) as [m|error] eqn:Hm.
  - destruct (send_confirmation_valid_trace env req_body m st Hp Hvalid Hm)
      as (pre & mid & post & _ & Hmid & Htrace & _ & _ & _ & Hpre & _ & _ & _ & _
          & Hpost & _).
    destruct (ready_to_send_state env req_body m st)
      as (_ & t & _ & _ & _ & _ & _ & Ht & _).
    destruct (sendEmailWithRetry_invokes env m 2
                (ready_to_send env req_body m st) t Ht ltac:(lia))
      as (mid' & Hmid' & Hinv & Hall).
    rewrite Hmid in Hmid'. apply app_inv_head in Hmid'. subst mid'.
    rewrite (new_events_app st _ _ Htrace).
    rewrite !sent_messages_app, Hpre, Hpost, app_nil_r. cbn [app]. split.
    + intros Hnil. rewrite <- sent_messages_length, Hnil in Hinv.
      simpl in Hinv. lia.
    + exact Hall.
  - destruct (send_confirmation_unbuildable_run env req_body error st Hp Hvalid Hm)
      as (_ & added & Htrace & _ & _ & _ & Hsent & _).
    rewrite (new_events_app st _ added Htrace). exact Hsent.
Qed.

(** A valid request without a [status] field gets the reminder. *)
Lemma template_selected_by_status_witness :
  let env := env_rejecting err_auth in
  let sent :=
    sent_messages
      (new_events st_fresh (snd (send_confirmation env request_without_status st_fresh))) in
  exists m,
    message_for env request_without_status = Ok m /\
    subject m = reminder_subject /\
    html m = generateReminderEmail sample_booking /\
    sent <> [] /\ Forall (fun m' => m' = m) sent.
Proof.
  intros env sent.
  pose proof (template_selected_by_status env request_without_status st_fresh)
    as (_ & Htemplate & Hsent).
  specialize (Hsent eq_refl eq_refl).
  destruct (message_for env request_without_status) as [m|error] eqn:Hm;
    [|discriminate Hm].
  exists m. split; [reflexivity|].
  destruct (Htemplate m eq_refl) as (_ & Hreminder & _).
  destruct (Hreminder ltac:(discriminate)) as [Hsubject Hhtml].
  split; [exact Hsubject|]. split; [exact Hhtml|]. exact Hsent.
Defined.

(** ** Scenarios *)

(** Scenario A: two failures, success on the third attempt of three. *)
Example scenario_A :
  let env := env_with (scripted [Rejected err_timeout; Rejected err_timeout;
                                 Resolved info_ok] err_auth) in
  let run := sendEmailWithRetry env sample_message 3 st_ready in
  fst run = Ok info_ok /\
  invocations (new_events st_ready (snd run)) = 3%nat /\
  sleeps (new_events st_ready (snd run)) = [2000; 4000].
Proof. vm_compute. repeat split. Qed.

(** Scenario B: authentication always fails; the handler makes two
    attempts and answers 500 with the authentication message. *)
Example scenario_B :
  let run := send_confirmation (env_rejecting err_auth) sample_request st_fresh in
  (exists r,
     fst run = Ok r /\
     statusCode r = 500 /\
     prop (body r) (js "error") =
       VStr (js "Email authentication failed. Check your Gmail App Password on Render.")) /\
  invocations (new_events st_fresh (snd run)) = 2%nat /\
  sleeps (new_events st_fresh (snd run)) = [2000].
Proof. vm_compute. split; [eexists|]; repeat split. Qed.

(** Scenario C: the relay always times out; the handler answers 504. *)
Example scenario_C :
  let run := send_confirmation (env_rejecting err_timeout) sample_request st_fresh in
  exists r,
    fst run = Ok r /\
    statusCode r = 504 /\
    prop (body r) (js "error") =
      VStr (js "Connection to Gmail timed out. Please try again.").
Proof. vm_compute. eexists. repeat split. Qed.

(** A delivered message: 200 with the provider's message identifier. *)
Example scenario_delivered :
  let env := env_with (scripted [Resolved info_ok] err_auth) in
  let run := send_confirmation env sample_request st_fresh in
  (exists r,
     fst run = Ok r /\
     statusCode r = 200 /\
     prop (body r) (js "messageId") = messageId info_ok /\
     prop (body r) (js "recipient") = VStr (js "ana@example.com")) /\
  sent_messages (new_events st_fresh (snd run)) = [sample_message].
Proof. vm_compute. split; [eexists|]; repeat split. Qed.

(** While [transporter] is [undefined], every attempt ends in a
    [TypeError] before the transport is reached. *)
Example uninitialised_transporter_is_never_invoked :
  let run := sendEmailWithRetry (env_rejecting err_auth) sample_message 2 st_fresh in
  fst run = Throw (ThrownError TypeError_sendMail) /\
  invocations (new_events st_fresh (snd run)) = 0%nat /\
  sleeps (new_events st_fresh (snd run)) = [2000].
Proof. vm_compute. repeat split. Qed.

(** An array whose join is an address passes the syntactic check, also
    when the join prints a number in exponent notation. *)
Example array_email_passes_validation :
  passes_validation (env_rejecting err_auth) request_nested_email = true /\
  passes_validation (env_rejecting err_auth) request_exponent_email = true /\
  invocations
    (new_events st_fresh
       (snd (send_confirmation (env_rejecting err_auth) request_exponent_email
               st_fresh))) = 2%nat.
Proof. vm_compute. repeat split. Qed.

(** An address that is an object with an own [toString] property: the
    check throws, the [catch] block answers 500, nothing is sent and no
    transport is created. *)
Example unprintable_email_is_answered_500 :
  let run := send_confirmation (env_rejecting err_auth) request_unprintable_email
               st_fresh in
  (exists r,
     fst run = Ok r /\
     statusCode r = 500 /\
     prop (body r) (js "error") = VStr (js "Cannot convert object to primitive value")) /\
  new_events st_fresh (snd run) =
  [EvLog (LogReceived (js "2023-11-14T22:13:20.000Z"));
   EvLog (LogRequestBody request_unprintable_email);
   EvRequestTimeout 45000;
   EvLog (LogErrorSending (ThrownError TypeError_toPrimitive))].
Proof. vm_compute. split; [eexists|]; repeat split. Qed.

(** A valid address with a [time] that no template literal can print: the
    transport is created, the message is not built, nothing is sent. *)
Example unprintable_time_is_answered_500 :
  let run := send_confirmation (env_rejecting err_auth) request_unprintable_time
               st_fresh in
  passes_validation (env_rejecting err_auth) request_unprintable_time = true /\
  message_for (env_rejecting err_auth) request_unprintable_time =
    Throw (ThrownError TypeError_toPrimitive) /\
  (exists r, fst run = Ok r /\ statusCode r = 500) /\
  sent_messages (new_events st_fresh (snd run)) = [] /\
  creations (new_events st_fresh (snd run)) = 1%nat.
Proof. vm_compute. repeat split. eexists. split; reflexivity. Qed.

(** A delivery whose identifier cannot be printed: the message is sent,
    the template literal of the console line throws, and the request is
    answered with 500. *)
Example unprintable_identifier_is_answered_500 :
  let env := env_with (scripted [Resolved info_unprintable] err_auth) in
  let run := send_confirmation env sample_request st_fresh in
  (exists r,
     fst run = Ok r /\
     statusCode r = 500 /\
     prop (body r) (js "error") = VStr (js "Cannot convert object to primitive value")) /\
  sent_messages (new_events st_fresh (snd run)) = [sample_message].
Proof. vm_compute. split; [eexists|]; repeat split. Qed.

(** A body that exhausts the stack of [JSON.stringify] is not answered. *)
Example unprintable_body_is_not_answered :
  send_confirmation env_small_stack (VArr [VArr [VArr []]]) st_fresh =
  (Throw (ThrownError RangeError_stack),
   {| transporter := None;
      trace := [EvLog (LogReceived (js "2023-11-14T22:13:20.000Z"))] |}).
Proof. vm_compute. reflexivity. Qed.

(** An address nested in arrays: where the join of the arrays exhausts
    the stack the check throws a [RangeError] and the request is answered
    with 500; elsewhere the address is read through the arrays and the
    request passes validation. *)
Example nested_email_depends_on_the_stack :
  let run := send_confirmation env_small_stack request_nested_email st_fresh in
  (exists r,
     fst run = Ok r /\
     statusCode r = 500 /\
     prop (body r) (js "error") = VStr (js "Maximum call stack size exceeded")) /\
  invocations (new_events st_fresh (snd run)) = 0%nat /\
  passes_validation env_small_stack request_nested_email = false /\
  passes_validation (env_rejecting err_auth) request_nested_email = true.
Proof. vm_compute. split; [eexists|]; repeat split. Qed.

(** ** Further properties of [POST /send-confirmation] *)



(** X9. For a body that [JSON.stringify] can print, the status is 400
    exactly when the body can be destructured and [booking] is falsy, or
    [booking.email] is falsy, or [booking.email] converts to a string that
    is not of the shape [a@b.c].  A body that is [undefined] or [null], and
    an address on which the conversion to a string throws, are answered
    with 500. *)
Theorem status_400_iff_validation_fails
  (env : Env) (req_body : value) (st : state) :
  stringify_throws env req_body = false ->
  exists r,
    fst (send_confirmation env req_body st) = Ok r /\
    (statusCode r = 400 <->
     nullish req_body = false /\
     (truthy (prop req_body (js "booking")) = false \/
      truthy (prop (prop req_body (js "booking")) (js "email")) = false \/
      exists s,
        to_string env (prop (prop req_body (js "booking")) (js "email")) = Ok s /\
        ~ address_shape s)) /\
    (nullish req_body = true \/ unconvertible_email env req_body = true ->
     statusCode r = 500 /\ prop (body r) (js "success") = VBool false).
Proof.
  intros Hp.
  cut (exists r,
         fst (send_confirmation env req_body st) = Ok r /\
         (statusCode r = 400 <-> fails_validation env req_body = true) /\
         (nullish req_body = true \/ unconvertible_email env req_body = true ->
          statusCode r = 500 /\ prop (body r) (js "success") = VBool false)).
  { intros (r & Hr & H400 & H500). exists r.
    rewrite <- fails_validation_spec. auto. }
  pose proof (validation_partition env req_body) as Hkind.
  destruct (nullish req_body) eqn:Hnull;
    destruct (fails_validation env req_body) eqn:Hfail;
    destruct (unconvertible_email env req_body) eqn:Hunc;
    destruct (passes_validation env req_body) eqn:Hvalid; try contradiction.
  - rewrite (send_confirmation_nullish env req_body st Hp Hnull).
    rewrite send_confirmation_catch_error, classifyError_destructure.
    cbn [fst]. eexists. split; [reflexivity|]. cbn [statusCode body].
    split; [split; discriminate|]. intros _. split; reflexivity.
  - destruct (send_confirmation_turned_down env req_body st Hp Hfail)
      as (_ & r & Hr & Hs & Hsucc & _).
    exists r. rewrite Hs. split; [exact Hr|]. split; [tauto|].
    intros [H|H]; discriminate H.
  - destruct (send_confirmation_unconvertible_response env req_body st Hp Hunc)
      as (r & e & Hr & _ & Hs & Hsucc & _).
    exists r. rewrite Hs. split; [exact Hr|].
    split; [split; discriminate|]. intros _. split; [reflexivity | exact Hsucc].
  - assert (Hno : forall r : Response,
               statusCode r = 200 \/ statusCode r = 500 \/ statusCode r = 504 ->
               (statusCode r = 400 <-> false = true) /\
               (false = true \/ false = true ->
                statusCode r = 500 /\ prop (body r) (js "success") = VBool false)).
    { intros r Hr. split.
      - split; [intros H; rewrite H in Hr; lia | discriminate].
      - intros [H|H]; discriminate H. }
    destruct (message_for env req_body) as [m|error] eqn:Hm.
    + destruct (send_confirmation_valid_response env req_body m st Hp Hvalid Hm)
        as (r & Hr & Hcase).
      exists r. split; [exact Hr|]. apply Hno.
      destruct (fst (sendEmailWithRetry env m 2 (ready_to_send env req_body m st)))
        as [info|[|e]].
      * destruct (printable_info env info); destruct Hcase as (Hs & _); auto.
      * contradiction.
      * destruct Hcase as (Hs & _). rewrite Hs.
        destruct (classifyError_status e) as [[H _]|[H _]]; rewrite H; auto.
    + destruct (send_confirmation_unbuildable_run env req_body error st Hp Hvalid Hm)
        as ((r & e & Hr & _ & Hs & _) & _).
      exists r. split; [exact Hr|]. apply Hno. auto.
Qed.

Lemma status_400_iff_validation_fails_witness :
  exists r,
    fst (send_confirmation (env_rejecting err_auth) request_unprintable_email
           st_fresh) = Ok r /\
    statusCode r = 500 /\ prop (body r) (js "success") = VBool false.
Proof.
  destruct (status_400_iff_validation_fails (env_rejecting err_auth)
              request_unprintable_email st_fresh eq_refl) as (r & Hr & _ & H500).
  exists r. split; [exact Hr|]. apply H500. right. reflexivity.
Defined.

(** X10. One request costs at most two invocations of the transport, at
    most one sleep, of 2000 milliseconds, and at most one creation of a
    transport, whatever the body, the state and the answers of the relay. *)
Theorem send_confirmation_effort_bounded
  (env : Env) (req_body : value) (st : state) :
  let added := new_events st (snd (send_confirmation env req_body st)) in
  (invocations added <= 2)%nat /\
  (sleeps added = [] \/ sleeps added = [2000]) /\
  (creations added <= 1)%nat.
Proof.
  intros added. subst added.
  destruct (stringify_throws env req_body) eqn:Hp;
    [|destruct (passes_validation env req_body) eqn:Hvalid].
  - destruct (send_confirmation_quiet env req_body st (or_introl Hp))
      as (added & Htrace & _ & Hi & Hs & _ & Hc).
    rewrite (new_events_app st _ added Htrace), Hi, Hs, Hc. auto.
  - destruct (message_for env req_body) as [m|error] eqn:Hm.
    + destruct (send_confirmation_valid_trace env req_body m st Hp Hvalid Hm)
        as (pre & mid & post & _ & Hmid & Htrace & _ & Hri & Hrs & _ & Hrc & Hmc
            & Hpi & Hps & _ & Hpc).
      destruct (sendEmailWithRetry_effort env m 2 (ready_to_send env req_body m st))
        as (mid' & j & Hmid' & Hmi & Hj & Hms & _ & _).
      rewrite Hmid in Hmid'. apply app_inv_head in Hmid'. subst mid'.
      rewrite (new_events_app st _ _ Htrace).
      rewrite !invocations_app, !sleeps_app, !creations_app.
      rewrite Hri, Hrs, Hrc, Hpi, Hps, Hpc, Hmc, Hms, app_nil_r.
      split; [simpl in Hmi; lia|]. split.
      * destruct j as [|[|j]]; [left; reflexivity | right; reflexivity|].
        simpl in Hj. lia.
      * destruct (transporter st); lia.
    + destruct (send_confirmation_unbuildable_run env req_body error st Hp Hvalid Hm)
        as (_ & added & Htrace & _ & Hi & Hs & _ & Hc).
      rewrite (new_events_app st _ added Htrace), Hi, Hs, Hc.
      split; [lia|]. split; [left; reflexivity|]. destruct (transporter st); lia.
  - destruct (send_confirmation_quiet env req_body st (or_intror Hvalid))
      as (added & Htrace & _ & Hi & Hs & _ & Hc).
    rewrite (new_events_app st _ added Htrace), Hi, Hs, Hc. auto.
Qed.

(** X11. The transporter is created lazily and only once: a request never
    replaces an existing transporter; when there is none, a request whose
    body can be printed and passes validation creates exactly one, with the
    Gmail settings and the credentials of the environment, before the
    message is built (so also when building it throws); every other
    request creates none. *)
Theorem transporter_created_once_on_demand
  (env : Env) (req_body : value) (st : state) :
  let st' := snd (send_confirmation env req_body st) in
  let validated :=
    negb (stringify_throws env req_body) && passes_validation env req_body in
  transporter st' =
    match transporter st with
    | Some t => Some t
    | None =>
        if validated
        then transporter (snd (initializeTransporter env st))
        else None
    end /\
  creations (new_events st st') =
    match transporter st with
    | Some _ => 0%nat
    | None => if validated then 1%nat else 0%nat
    end /\
  exists t,
    transporter (snd (initializeTransporter env st)) = Some t /\
    host t = js "smtp.gmail.com" /\ port t = 587 /\
    secure t = false /\ requireTLS t = true /\
    auth_user t = EMAIL_USER env /\ auth_pass t = EMAIL_APP_PASSWORD env /\
    connectionTimeout t = 30000 /\ greetingTimeout t = 30000 /\
    socketTimeout t = 60000.
Proof.
  intros st' validated. subst st' validated.
  assert (Hquiet :
            stringify_throws env req_body = true \/
            passes_validation env req_body = false ->
            negb (stringify_throws env req_body) && passes_validation env req_body
            = false ->
            transporter (snd (send_confirmation env req_body st)) =
              match transporter st with
              | Some t => Some t
              | None => None
              end /\
            creations (new_events st (snd (send_confirmation env req_body st))) =
              match transporter st with
              | Some _ => 0%nat
              | None => 0%nat
              end).
  { intros H _.
    destruct (send_confirmation_quiet env req_body st H)
      as (added & Htrace & Htr & _ & _ & _ & Hc).
    rewrite (new_events_app st _ added Htrace), Htr, Hc.
    destruct (transporter st); split; reflexivity. }
  assert (Hsettings : exists t,
             transporter (snd (initializeTransporter env st)) = Some t /\
             host t = js "smtp.gmail.com" /\ port t = 587 /\
             secure t = false /\ requireTLS t = true /\
             auth_user t = EMAIL_USER env /\ auth_pass t = EMAIL_APP_PASSWORD env /\
             connectionTimeout t = 30000 /\ greetingTimeout t = 30000 /\
             socketTimeout t = 60000).
  { eexists. split; [reflexivity|]. repeat split. }
  destruct (stringify_throws env req_body) eqn:Hp;
    [|destruct (passes_validation env req_body) eqn:Hvalid]; cbn [negb andb].
  - destruct (Hquiet (or_introl eq_refl) eq_refl) as [H1 H2].
    split; [exact H1|]. split; [exact H2 | exact Hsettings].
  - split; [|split; [|exact Hsettings]].
    + destruct (message_for env req_body) as [m|error] eqn:Hm.
      * destruct (send_confirmation_valid_trace env req_body m st Hp Hvalid Hm)
          as (_ & _ & _ & _ & _ & _ & Htr & _).
        destruct (ready_to_send_state env req_body m st)
          as (_ & t & _ & _ & _ & _ & _ & Ht & Hwhich).
        rewrite Htr, Ht. exact Hwhich.
      * destruct (send_confirmation_unbuildable_run env req_body error st Hp Hvalid Hm)
          as (_ & added & _ & Htr & _).
        destruct (initialised_state env req_body st) as (_ & _ & _ & _ & _ & _ & Hi).
        rewrite Htr. exact Hi.
    + destruct (message_for env req_body) as [m|error] eqn:Hm.
      * destruct (send_confirmation_valid_trace env req_body m st Hp Hvalid Hm)
          as (pre & mid & post & _ & _ & Htrace & _ & _ & _ & _ & Hrc & Hmc
              & _ & _ & _ & Hpc).
        rewrite (new_events_app st _ _ Htrace).
        rewrite !creations_app, Hrc, Hmc, Hpc.
        destruct (transporter st); reflexivity.
      * destruct (send_confirmation_unbuildable_run env req_body error st Hp Hvalid Hm)
          as (_ & added & Htrace & _ & _ & _ & _ & Hc).
        rewrite (new_events_app st _ added Htrace). exact Hc.
  - destruct (Hquiet (or_intror eq_refl) eq_refl) as [H1 H2].
    split; [exact H1|]. split; [exact H2 | exact Hsettings].
Qed.

(** X12. The answer to a request that passes validation is decided by
    whether its message can be built and by the relay's answers to at most
    two invocations.  If a template literal throws while the message is
    built: 500 with the message of the error thrown, nothing sent.
    Otherwise, if the first invocation is accepted: one invocation, no
    sleep, and 200 with the provider's message identifier (500 when the
    identifier or the response that the transport resolved with cannot be
    printed to the console, although the message was sent).  If the first
    is rejected and the second accepted: the same after a sleep of 2000
    milliseconds.  If both are rejected: the classification of the second
    error, whatever the first one was. *)
Theorem valid_request_decided_by_two_answers
  (env : Env) (req_body : value) (st : state) :
  stringify_throws env req_body = false ->
  passes_validation env req_body = true ->
  let i := invocations (trace st) in
  let run := send_confirmation env req_body st in
  let added := new_events st (snd run) in
  exists r,
    fst run = Ok r /\
    match message_for env req_body with
    | Throw error =>
        statusCode r = 500 /\
        (exists e,
           error = ThrownError e /\ prop (body r) (js "error") = VStr (message e)) /\
        sent_messages added = [] /\ sleeps added = []
    | Ok m =>
        match relay env i m with
        | Resolved info =>
            (if printable_info env info
             then statusCode r = 200 /\
                  prop (body r) (js "messageId") = messageId info /\
                  prop (body r) (js "recipient") =
                    prop (prop req_body (js "booking")) (js "email")
             else statusCode r = 500 /\
                  prop (body r) (js "success") = VBool false) /\
            sent_messages added = [m] /\ sleeps added = []
        | Rejected _ =>
            match relay env (S i) m with
            | Resolved info =>
                (if printable_info env info
                 then statusCode r = 200 /\
                      prop (body r) (js "messageId") = messageId info /\
                      prop (body r) (js "recipient") =
                        prop (prop req_body (js "booking")) (js "email")
                 else statusCode r = 500 /\
                      prop (body r) (js "success") = VBool false) /\
                sent_messages added = [m; m] /\ sleeps added = [2000]
            | Rejected e2 =>
                statusCode r = fst (classifyError e2) /\
                prop (body r) (js "error") = VStr (snd (classifyError e2)) /\
                prop (body r) (js "code") = code e2 /\
                sent_messages added = [m; m] /\ sleeps added = [2000]
            end
        end
    end.
Proof.
  intros Hp Hvalid i run added. subst run added.
  destruct (message_for env req_body) as [m|error] eqn:Hm.
  2:{ destruct (send_confirmation_unbuildable_run env req_body error st Hp Hvalid Hm)
        as ((r & e & Hr & He & Hs & _ & Herr) & added & Htrace & _ & _ & Hsl
            & Hsent & _).
      exists r. rewrite (new_events_app st _ added Htrace).
      split; [exact Hr|]. split; [exact Hs|].
      split; [exists e; split; assumption|]. split; assumption. }
  destruct (send_confirmation_valid_response env req_body m st Hp Hvalid Hm)
    as (r & Hr & Hcase).
  destruct (send_confirmation_valid_trace env req_body m st Hp Hvalid Hm)
    as (pre & mid & post & Hpre & Hmid & Htrace & _ & Hri & Hrs & Hrm & _ & _
        & _ & Hps & Hpm & _).
  destruct (ready_to_send_state env req_body m st)
    as (_ & t & _ & _ & _ & _ & _ & Ht & _).
  assert (Hi : invocations (trace (ready_to_send env req_body m st)) = i).
  { rewrite Hpre, invocations_app, Hri. apply Nat.add_0_r. }
  rewrite (new_events_app st _ _ Htrace).
  rewrite !sent_messages_app, !sleeps_app, Hrm, Hrs, Hpm, Hps, !app_nil_r.
  cbn [app].
  exists r. split; [exact Hr|].
  destruct (relay env i m) as [info|e1] eqn:H1.
  - destruct (sendEmailWithRetry_resolved_at env m 2 0
                (ready_to_send env req_body m st) t
                (fun _ => {| message := []; code := VUndefined |}) info)
      as (st3 & mid' & Hrun & _ & Hmid' & _ & Hms & Hmm);
      [lia | exact Ht | intros j Hj; lia | rewrite Hi, Nat.add_0_r; exact H1 |].
    rewrite Hrun in Hcase, Hmid. cbn [fst snd] in Hcase, Hmid.
    rewrite Hmid' in Hmid. apply app_inv_head in Hmid. subst mid.
    rewrite !sent_messages_app, !sleeps_app, Hmm, Hms.
    split; [|cbn; split; reflexivity].
    destruct (printable_info env info).
    + destruct Hcase as (Hs & _ & Hid & Hrec). repeat split; assumption.
    + destruct Hcase as (Hs & Hsucc & _). split; assumption.
  - destruct (relay env (S i) m) as [info|e2] eqn:H2.
    + destruct (sendEmailWithRetry_resolved_at env m 2 1
                  (ready_to_send env req_body m st) t (fun _ => e1) info)
        as (st3 & mid' & Hrun & _ & Hmid' & _ & Hms & Hmm);
        [lia | exact Ht | | rewrite Hi, Nat.add_1_r; exact H2 |].
      { intros j Hj. assert (j = O) by lia. subst j.
        rewrite Hi, Nat.add_0_r. exact H1. }
      rewrite Hrun in Hcase, Hmid. cbn [fst snd] in Hcase, Hmid.
      rewrite Hmid' in Hmid. apply app_inv_head in Hmid. subst mid.
      rewrite !sent_messages_app, !sleeps_app, Hmm, Hms.
      split; [|cbn; split; reflexivity].
      destruct (printable_info env info).
      * destruct Hcase as (Hs & _ & Hid & Hrec). repeat split; assumption.
      * destruct Hcase as (Hs & Hsucc & _). split; assumption.
    + destruct (sendEmailWithRetry_all_rejected env m 2
                  (ready_to_send env req_body m st) t
                  (fun j => match j with O => e1 | S _ => e2 end))
        as (st3 & mid' & Hrun & _ & Hmid' & _ & Hms & Hmm);
        [lia | exact Ht | |].
      { intros j Hj. rewrite Hi. destruct j as [|[|j]].
        - rewrite Nat.add_0_r. exact H1.
        - rewrite Nat.add_1_r. exact H2.
        - simpl in Hj. lia. }
      rewrite Hrun in Hcase, Hmid. cbn [fst snd] in Hcase, Hmid.
      rewrite Hmid' in Hmid. apply app_inv_head in Hmid. subst mid.
      change (pred (Z.to_nat 2)) with 1%nat in Hcase.
      cbn iota in Hcase.
      destruct Hcase as (Hs & _ & Herr & Hcode).
      rewrite Hmm, Hms.
      cbn. repeat split; assumption.
Qed.

Lemma valid_request_decided_by_two_answers_witness :
  let env := env_with (scripted [Rejected err_timeout; Resolved info_ok] err_auth) in
  let run := send_confirmation env sample_request st_fresh in
  let added := new_events st_fresh (snd run) in
  exists r,
    fst run = Ok r /\
    statusCode r = 200 /\
    prop (body r) (js "messageId") = messageId info_ok /\
    prop (body r) (js "recipient") = VStr (js "ana@example.com") /\
    sent_messages added = [sample_message; sample_message] /\
    sleeps added = [2000].
Proof.
  intros env.
  destruct (valid_request_decided_by_two_answers env sample_request st_fresh
              eq_refl eq_refl) as (r & Hr & (Hs & Hid & Hrec) & Hsent & Hsl).
  exists r. repeat split; assumption.
Defined.

(** ** The earlier revision *)

Section Revisions.

Variable env : Env.

(** How the earlier revision answers a request that does not pass
    validation. *)
Lemma v1_rejects req_body st :
  passes_validation env req_body = false ->
  exists r,
    fst (ServerV1.send_confirmation env req_body st) = Ok r /\
    invocations (new_events st (snd (ServerV1.send_confirmation env req_body st)))
      = 0%nat /\
    sleeps (new_events st (snd (ServerV1.send_confirmation env req_body st))) = [] /\
    prop (body r) (js "success") = VBool false /\
    if nullish req_body
    then statusCode r = 500 /\
         prop (body r) (js "error") =
           VStr (message (TypeError_destructure (js "booking") req_body))
    else if unconvertible_email env req_body
    then statusCode r = 500 /\
         exists e,
           conversion_error env req_body = ThrownError e /\
           prop (body r) (js "error") = VStr (message e)
    else statusCode r = 400 /\
         prop (body r) (js "error") =
           VStr (if negb (truthy (prop req_body (js "booking")))
                    || negb (truthy (prop (prop req_body (js "booking")) (js "email")))
                 then js "Missing required booking data"
                 else js "Invalid email address").
Proof.
  unfold passes_validation, unconvertible_email, conversion_error. intros Hbad.
  unfold ServerV1.send_confirmation, ServerV1.send_confirmation_catch.
  unfold bind, try_catch, destructure_body, lift, now_iso, log, emit, ret,
    throw, message_of.
  cbn [fst snd trace transporter].
  destruct (nullish req_body) eqn:Hnull; cbn [negb andb] in Hbad |- *.
  - cbn [fst snd trace transporter].
    eexists. split; [reflexivity|].
    erewrite new_events_app by (cbn [trace]; rewrite <- ?app_assoc; reflexivity).
    repeat split.
  - destruct (truthy (prop req_body (js "booking"))); cbn [negb orb andb] in *.
    + destruct (truthy (prop (prop req_body (js "booking")) (js "email")));
        cbn [negb orb andb] in *.
      * destruct (test_email env (prop (prop req_body (js "booking")) (js "email")))
          as [accepted|t] eqn:Htest.
        -- rewrite Hbad. cbn [negb fst snd trace transporter].
           eexists. split; [reflexivity|].
           erewrite new_events_app by (cbn [trace]; rewrite <- ?app_assoc; reflexivity).
           repeat split.
        -- destruct (test_email_throws env _ t Htest) as (e & -> & _).
           cbn [fst snd trace transporter].
           eexists. split; [reflexivity|].
           erewrite new_events_app by (cbn [trace]; rewrite <- ?app_assoc; reflexivity).
           repeat split. exists e. split; reflexivity.
      * eexists. split; [reflexivity|].
        erewrite new_events_app by (cbn [trace]; rewrite <- ?app_assoc; reflexivity).
        repeat split.
    + eexists. split; [reflexivity|].
      erewrite new_events_app by (cbn [trace]; rewrite <- ?app_assoc; reflexivity).
      repeat split.
Qed.

(** How the retry revision answers it. *)
Lemma v2_rejects req_body st :
  stringify_throws env req_body = false ->
  passes_validation env req_body = false ->
  exists r,
    fst (send_confirmation env req_body st) = Ok r /\
    prop (body r) (js "success") = VBool false /\
    if nullish req_body
    then statusCode r = 500 /\
         prop (body r) (js "error") =
           VStr (message (TypeError_destructure (js "booking") req_body))
    else if unconvertible_email env req_body
    then statusCode r = 500 /\
         exists e,
           conversion_error env req_body = ThrownError e /\
           prop (body r) (js "error") = VStr (message e)
    else statusCode r = 400 /\
         prop (body r) (js "error") =
           VStr (if negb (truthy (prop req_body (js "booking")))
                    || negb (truthy (prop (prop req_body (js "booking")) (js "email")))
                 then js "Missing required booking data"
                 else js "Invalid email address").
Proof.
  intros Hp Hbad.
  pose proof (validation_partition env req_body) as Hkind. rewrite Hbad in Hkind.
  destruct (nullish req_body) eqn:Hnull;
    destruct (fails_validation env req_body) eqn:Hfail;
    destruct (unconvertible_email env req_body) eqn:Hunc; try contradiction.
  - rewrite (send_confirmation_nullish env req_body st Hp Hnull).
    rewrite send_confirmation_catch_error, classifyError_destructure. cbn [fst snd].
    eexists. split; [reflexivity|]. repeat split.
  - destruct (send_confirmation_turned_down env req_body st Hp Hfail)
      as (_ & r & Hr & Hs & Hsucc & Herr).
    exists r. repeat split; assumption.
  - destruct (send_confirmation_unconvertible_response env req_body st Hp Hunc)
      as (r & e & Hr & He & Hs & Hsucc & Herr).
    exists r. split; [exact Hr|]. split; [exact Hsucc|]. split; [exact Hs|].
    exists e. split; assumption.
Qed.

End Revisions.

(** X19. The retry revision answers a request that does not pass validation
    (and that it can print) exactly as the earlier revision did: the same
    status (400 when a check turns it down, 500 for a body that is
    [undefined] or [null] and for an address on which the conversion to a
    string throws), the same [success] flag and the same error text; and
    neither revision reaches the transport for it. *)
Theorem revisions_agree_on_rejected_requests
  (env : Env) (req_body : value) (st1 st2 : state) :
  stringify_throws env req_body = false ->
  passes_validation env req_body = false ->
  let run1 := ServerV1.send_confirmation env req_body st1 in
  let run2 := send_confirmation env req_body st2 in
  exists r1 r2,
    fst run1 = Ok r1 /\ fst run2 = Ok r2 /\
    statusCode r1 = statusCode r2 /\
    prop (body r1) (js "success") = prop (body r2) (js "success") /\
    prop (body r1) (js "error") = prop (body r2) (js "error") /\
    invocations (new_events st1 (snd run1)) = 0%nat /\
    invocations (new_events st2 (snd run2)) = 0%nat.
Proof.
  intros Hp Hbad run1 run2. subst run1 run2.
  destruct (v1_rejects env req_body st1 Hbad) as (r1 & Hr1 & Hi & _ & Hok1 & H1).
  destruct (v2_rejects env req_body st2 Hp Hbad) as (r2 & Hr2 & Hok2 & H2).
  destruct (send_confirmation_quiet env req_body st2 (or_intror Hbad))
    as (added & Htrace & _ & Hi2 & _).
  exists r1, r2. split; [exact Hr1|]. split; [exact Hr2|].
  rewrite (new_events_app st2 _ added Htrace), Hok1, Hok2.
  destruct (nullish req_body); [|destruct (unconvertible_email env req_body)].
  - destruct H1 as (Hs1 & He1). destruct H2 as (Hs2 & He2).
    rewrite Hs1, Hs2, He1, He2. repeat split; assumption.
  - destruct H1 as (Hs1 & e1 & Hc1 & He1). destruct H2 as (Hs2 & e2 & Hc2 & He2).
    rewrite Hc1 in Hc2. inversion Hc2; subst e2.
    rewrite Hs1, Hs2, He1, He2. repeat split; assumption.
  - destruct H1 as (Hs1 & He1). destruct H2 as (Hs2 & He2).
    rewrite Hs1, Hs2, He1, He2. repeat split; assumption.
Qed.

Lemma revisions_agree_on_rejected_requests_witness :
  let run1 := ServerV1.send_confirmation (env_rejecting err_auth)
                request_unprintable_email st_ready in
  let run2 := send_confirmation (env_rejecting err_auth)
                request_unprintable_email st_fresh in
  exists r1 r2,
    fst run1 = Ok r1 /\ fst run2 = Ok r2 /\
    statusCode r1 = statusCode r2 /\
    prop (body r1) (js "success") = prop (body r2) (js "success") /\
    prop (body r1) (js "error") = prop (body r2) (js "error") /\
    invocations (new_events st_ready (snd run1)) = 0%nat /\
    invocations (new_events st_fresh (snd run2)) = 0%nat.
Proof.
  exact (revisions_agree_on_rejected_requests (env_rejecting err_auth)
           request_unprintable_email st_ready st_fresh eq_refl eq_refl).
Defined.

Lemma v1_text_body_throws env booking t :
  ServerV1.text_body env booking = Throw t ->
  exists e, t = ThrownError e.
Proof.
  unfold ServerV1.text_body, and_then.
  repeat match goal with
         | |- match to_string env ?v with _ => _ end = _ -> _ =>
             let E := fresh "E" in
             destruct (to_string env v) eqn:E;
             [|intros H; inversion H; subst;
               destruct (to_string_throws env _ _ E) as (e & -> & _);
               exists e; reflexivity]
         end.
  discriminate.
Qed.

Lemma v1_confirmation_mailOptions_throws env booking status t :
  ServerV1.confirmation_mailOptions env booking status = Throw t ->
  exists e, t = ThrownError e.
Proof.
  unfold ServerV1.confirmation_mailOptions, and_then.
  destruct (subject_for env booking status) eqn:Es.
  - destruct (ServerV1.text_body env booking) eqn:Et; [discriminate|].
    intros H. inversion H; subst. eapply v1_text_body_throws. exact Et.
  - intros H. inversion H; subst.
    destruct (subject_for_throws env _ _ _ Es) as (e & -> & _).
    exists e. reflexivity.
Qed.

(** X20. The earlier revision makes a single attempt: for a request that
    passes validation, with an initialised transporter, it never sleeps.
    When the message is built it hands that one message to the transport
    and answers 200 with the provider's message identifier if the relay
    accepts, and otherwise 500 with the raw message of the error, a timeout
    included (it never answers 504).  When a template literal throws while
    the message is built, it sends nothing and answers 500 with the message
    of the error thrown. *)
Theorem earlier_revision_single_attempt
  (env : Env) (req_body : value) (st : state) (t : Transport) :
  passes_validation env req_body = true ->
  transporter st = Some t ->
  let run := ServerV1.send_confirmation env req_body st in
  let added := new_events st (snd run) in
  exists r,
    fst run = Ok r /\
    sleeps added = [] /\
    match ServerV1.confirmation_mailOptions env
            (prop req_body (js "booking")) (prop req_body (js "status")) with
    | Throw error =>
        statusCode r = 500 /\
        prop (body r) (js "success") = VBool false /\
        (exists e,
           error = ThrownError e /\ prop (body r) (js "error") = VStr (message e)) /\
        sent_messages added = []
    | Ok m =>
        sent_messages added = [m] /\
        match relay env (invocations (trace st)) m with
        | Resolved info =>
            statusCode r = 200 /\
            prop (body r) (js "messageId") = messageId info /\
            prop (body r) (js "recipient") =
              prop (prop req_body (js "booking")) (js "email")
        | Rejected e =>
            statusCode r = 500 /\
            prop (body r) (js "success") = VBool false /\
            prop (body r) (js "error") = VStr (message e)
        end
    end.
Proof.
  intros H Ht run added. subst run added. unfold passes_validation in H.
  apply andb_prop in H. destruct H as [H Hre].
  apply andb_prop in H. destruct H as [H Hem].
  apply andb_prop in H. destruct H as [Hnull Hbk].
  apply negb_true_iff in Hnull.
  unfold ServerV1.send_confirmation, ServerV1.send_confirmation_catch.
  unfold bind, try_catch, destructure_body, lift, now_iso, log, emit, ret,
    throw, sendMail, message_of.
  cbn [fst snd trace transporter].
  rewrite Hnull. cbn [fst snd]. rewrite Hbk, Hem. cbn [negb orb].
  destruct (test_email env (prop (prop req_body (js "booking")) (js "email")))
    as [accepted|] eqn:Htest; [|discriminate Hre].
  apply test_email_to_string in Htest. destruct Htest as (address & Haddress & _).
  rewrite Hre. cbn [negb].
  destruct (ServerV1.confirmation_mailOptions env (prop req_body (js "booking"))
              (prop req_body (js "status"))) as [m|error] eqn:Hm.
  - rewrite Haddress. cbn [fst snd trace transporter]. rewrite Ht.
    rewrite !invocations_snoc_log.
    destruct (relay env (invocations (trace st)) m) as [info|e];
      cbn [fst snd trace transporter];
      (erewrite new_events_app by (cbn [trace]; rewrite <- ?app_assoc; reflexivity));
      eexists; (split; [reflexivity|]); repeat split.
  - destruct (v1_confirmation_mailOptions_throws env _ _ error Hm) as (e & ->).
    cbn [fst snd trace transporter].
    erewrite new_events_app by (cbn [trace]; rewrite <- ?app_assoc; reflexivity).
    eexists. split; [reflexivity|]. repeat split.
    exists e. split; reflexivity.
Qed.

(** A timeout is answered with 500 and its raw message. *)
Lemma earlier_revision_single_attempt_witness :
  let env := env_rejecting err_timeout in
  let run := ServerV1.send_confirmation env sample_request st_ready in
  let added := new_events st_ready (snd run) in
  exists r,
    fst run = Ok r /\
    sleeps added = [] /\
    List.length (sent_messages added) = 1%nat /\
    statusCode r = 500 /\
    prop (body r) (js "success") = VBool false /\
    prop (body r) (js "error") = VStr (js "Connection timeout").
Proof.
  intros env run added.
  destruct (earlier_revision_single_attempt env sample_request st_ready _
              eq_refl eq_refl) as (r & Hr & Hs & Hcase).
  exists r. split; [exact Hr|]. split; [exact Hs|].
  destruct Hcase as (Hsent & Hstatus & Hsucc & Herr).
  split; [fold run added in Hsent; rewrite Hsent; reflexivity|].
  repeat split; assumption.
Defined.

(** ** Missing data in a message *)

(** X21. Missing data is rendered, not rejected.  Every message that is
    built for a confirmation whose booking has no [bookingId] has a subject
    that ends in the text [undefined], while its plain-text body falls back
    to [N/A]; and when [EMAIL_USER] is not set, its sender header reads
    ["Luna Massage" <undefined>]. *)
Theorem missing_data_is_rendered (env : Env) (booking : value) (m : MailOptions) :
  prop booking (js "bookingId") = VUndefined ->
  confirmation_mailOptions env booking (VStr (js "confirmed")) = Ok m ->
  subject m = sparkles ++ js " Payment Confirmed - Luna Massage Booking undefined" /\
  substring (js "Booking ID: N/A") (text m) /\
  (EMAIL_USER env = VUndefined ->
   from m = dquote ++ js "Luna Massage" ++ dquote ++ js " <undefined>").
Proof.
  intros Hid. unfold confirmation_mailOptions, subject_for, and_then.
  change (isConfirmation (VStr (js "confirmed"))) with true. cbn iota.
  rewrite Hid. cbn [to_string converted ToString].
  unfold text_body, and_then. rewrite Hid.
  change (or_else VUndefined (VStr (js "N/A"))) with (VStr (js "N/A")).
  cbn [to_string converted ToString].
  destruct (to_string env (or_else (prop booking (js "service")) (VStr (js "N/A"))))
    as [service|]; [|discriminate].
  destruct (to_string env (formatDate env (prop booking (js "date"))))
    as [date|]; [|discriminate].
  destruct (to_string env (formatTime env (prop booking (js "time"))))
    as [time|]; [|discriminate].
  destruct (to_string env (or_else (prop booking (js "servicePrice")) (VStr (js "0"))))
    as [amount|]; [|discriminate].
  intros Hm. inversion Hm; subst m. cbn [subject text from].
  split; [reflexivity|]. split.
  - exists (js "Luna Massage Booking Confirmation" ++ newline ++ newline).
    eexists. rewrite <- !app_assoc. reflexivity.
  - unfold EMAIL_USER, process_env, sender.
    destruct (env_EMAIL_USER env); [discriminate | reflexivity].
Qed.

Lemma missing_data_is_rendered_witness :
  let booking := VObj [ (js "email", VStr (js "ana@example.com")) ] in
  exists m,
    confirmation_mailOptions (env_rejecting err_auth) booking
      (VStr (js "confirmed")) = Ok m /\
    subject m = sparkles ++ js " Payment Confirmed - Luna Massage Booking undefined" /\
    substring (js "Booking ID: N/A") (text m).
Proof.
  intros booking.
  destruct (confirmation_mailOptions (env_rejecting err_auth) booking
              (VStr (js "confirmed"))) as [m|error] eqn:Hm; [|discriminate Hm].
  exists m. split; [reflexivity|].
  destruct (missing_data_is_rendered (env_rejecting err_auth) booking m eq_refl Hm)
    as (Hsubject & Htext & _).
  split; assumption.
Defined.
